(** * OptiNet: pipe-diameter optimisation of water networks

    A shallow embedding of the Python sources [objfun.py], [hydraulic.py],
    [optinetd_deap.py] and [plot.py], and the properties of the design
    document that are settled against it.

    Conventions of the embedding.
    - Python [int] is [Z] (or [nat] for counts returned by the engine).
    - Python [float] is an IEEE 754 double: a finite double is given by
      the rational it denotes, next to the infinities and NaN
      ([Float.float]); every arithmetic operation rounds its exact result
      to the nearest double, ties to even. A number the engine hands over
      is the rational value of the double it returns; the sources only
      store and compare these, and comparison is exact.
    - A [dict] is a [gmap]; a [list] is a [list].
    - Exceptions are values of [exn]; a computation ends in an [outcome].
    - The EPANET toolkit is opaque: its answers are functions of the
      sequence of state-changing toolkit calls made so far. *)

From Stdlib Require Import ZArith QArith Qround Qpower Lqa List String Lia.
From stdpp Require Import base option list gmap strings sorting.

Local Open Scope Z_scope.

(** ** Python values and exceptions *)

Inductive exn : Type :=
| AssertionError (msg : string)
| IndexError
| KeyError
| TypeError
| AttributeError
| OverflowError
| ValueError
| OSError
| ENtoolkitError.

Inductive outcome (A : Type) : Type :=
| Ok (a : A)
| Raise (e : exn)
| OutOfFuel.

Arguments Ok {A} a.
Arguments Raise {A} e.
Arguments OutOfFuel {A}.

Definition obind {A B} (o : outcome A) (k : A -> outcome B) : outcome B :=
  match o with
  | Ok a => k a
  | Raise e => Raise e
  | OutOfFuel => OutOfFuel
  end.

(** [l[i]] for a Python list and an [int] index: a negative index counts
    from the end, anything outside [-len, len) raises [IndexError]. *)
Definition py_getitem {A} (l : list A) (i : Z) : outcome A :=
  let n := Z.of_nat (length l) in
  let j := if i <? 0 then i + n else i in
  if (0 <=? j) && (j <? n)
  then match l !! Z.to_nat j with
       | Some x => Ok x
       | None => Raise IndexError
       end
  else Raise IndexError.

(** [[f(x) for x in l]]: evaluated left to right, the first exception
    aborts the comprehension. *)
Fixpoint list_comp {A B} (f : A -> outcome B) (l : list A) : outcome (list B) :=
  match l with
  | [] => Ok []
  | x :: l' => obind (f x) (fun y => obind (list_comp f l') (fun ys => Ok (y :: ys)))
  end.

(** [d[k]] for a dict. *)
Definition dict_getitem {V} (d : gmap Z V) (k : Z) : outcome V :=
  match d !! k with
  | Some v => Ok v
  | None => Raise KeyError
  end.

(** ** Computations with a mutable world and exceptions

    An exception leaves the world as it was when it was raised. *)

Definition SM (W A : Type) : Type := W -> outcome A * W.

#[export] Instance SM_ret {W} : MRet (SM W) := fun A (a : A) w => (Ok a, w).
#[export] Instance SM_bind {W} : MBind (SM W) :=
  fun A B (k : A -> SM W B) (m : SM W A) w =>
  match m w with
  | (Ok a, w') => k a w'
  | (Raise e, w') => (Raise e, w')
  | (OutOfFuel, w') => (OutOfFuel, w')
  end.

Definition raise {W A} (e : exn) : SM W A := fun w => (Raise e, w).
Definition out_of_fuel {W A} : SM W A := fun w => (OutOfFuel, w).
Definition lift {W A} (o : outcome A) : SM W A := fun w => (o, w).

(** [for x in l: body(x)] *)
Fixpoint for_each {W A} (l : list A) (body : A -> SM W unit) : SM W unit :=
  match l with
  | [] => mret tt
  | x :: l' => body x ;; for_each l' body
  end.

(** [for x in l: acc = body(x, acc)] *)
Fixpoint for_fold {W A T} (l : list A) (acc : T) (body : A -> T -> SM W T)
  : SM W T :=
  match l with
  | [] => mret acc
  | x :: l' => acc' ← body x acc; for_fold l' acc' body
  end.

(** [range(n)] *)
Definition range (n : nat) : list nat := seq 0 n.

(** The computation [m] never ends in the exception [e]. *)
Definition never {W A} (e : exn) (m : SM W A) : Prop :=
  forall w, fst (m w) <> Raise e.

(** [x < y] on floats *)
Definition Qlt_bool (x y : Q) : bool := negb (Qle_bool y x).

(** ** Python floats

    IEEE 754 binary64 with the default rounding: to nearest, ties to
    even. The two zeros are not told apart: they compare equal, and
    addition, multiplication and comparison give the same values on
    both. *)

Module Float.

Inductive float : Type :=
| Fin (x : Q)
| Inf (negative : bool)
| NaN.

Definition pow2 (k : Z) : Q := (2 ^ k)%Q.

(** [floor (log2 x)] for [x > 0] *)
Definition ilog2 (x : Q) : Z :=
  let k := Z.log2 (Qnum x) - Z.log2 (Zpos (Qden x)) in
  if Qle_bool (pow2 k) x then k else k - 1.

(** The nearest integer, ties to even. *)
Definition rne (x : Q) : Z :=
  let f := Qfloor x in
  match (x - inject_Z f ?= 1 # 2)%Q with
  | Lt => f
  | Gt => f + 1
  | Eq => if Z.even f then f else f + 1
  end.

(** The exponent of the last place of [x > 0]: 53 significant bits, and
    no exponent below that of the subnormal numbers. *)
Definition ulp_exp (x : Q) : Z := Z.max (ilog2 x - 52) (-1074).

(** The multiple of [2 ^ ulp_exp x] nearest to [x > 0]. *)
Definition nearest (x : Q) : Q :=
  let e := ulp_exp x in (inject_Z (rne (x * pow2 (- e))) * pow2 e)%Q.

(** A result of [2 ^ 1024] or more overflows to infinity. *)
Definition round_pos (x : Q) : float :=
  let y := nearest x in
  if Qle_bool (pow2 1024) y then Inf false else Fin (Qred y).

Definition opp (a : float) : float :=
  match a with
  | Fin x => Fin (- x)
  | Inf s => Inf (negb s)
  | NaN => NaN
  end.

(** The double nearest to the rational [x]. *)
Definition round (x : Q) : float :=
  match (x ?= 0)%Q with
  | Eq => Fin 0
  | Gt => round_pos x
  | Lt => opp (round_pos (- x))
  end.

(** [a + b] *)
Definition add (a b : float) : float :=
  match a, b with
  | NaN, _ | _, NaN => NaN
  | Inf s, Inf t => if Bool.eqb s t then Inf s else NaN
  | Inf s, Fin _ | Fin _, Inf s => Inf s
  | Fin x, Fin y => round (x + y)
  end.

(** An infinity of sign [s] times the finite [y]. *)
Definition sign_times (s : bool) (y : Q) : float :=
  match (y ?= 0)%Q with
  | Eq => NaN
  | Gt => Inf s
  | Lt => Inf (negb s)
  end.

(** [a * b] *)
Definition mul (a b : float) : float :=
  match a, b with
  | NaN, _ | _, NaN => NaN
  | Inf s, Inf t => Inf (xorb s t)
  | Inf s, Fin y | Fin y, Inf s => sign_times s y
  | Fin x, Fin y => round (x * y)
  end.

(** [a <= b] *)
Definition leb (a b : float) : bool :=
  match a, b with
  | NaN, _ | _, NaN => false
  | Fin x, Fin y => Qle_bool x y
  | Fin _, Inf t => negb t
  | Inf s, Fin _ => s
  | Inf s, Inf t => s || negb t
  end.

(** [a - b] *)
Definition sub (a b : float) : float := add a (opp b).

(** [a < b] *)
Definition ltb (a b : float) : bool :=
  match a, b with
  | NaN, _ | _, NaN => false
  | Fin x, Fin y => negb (Qle_bool y x)
  | Fin _, Inf t => negb t
  | Inf s, Fin _ => s
  | Inf s, Inf t => s && negb t
  end.

Definition le (a b : float) : Prop := leb a b = true.

(** Zero or more, [+inf] included. *)
Definition nonneg (a : float) : Prop := leb (Fin 0) a = true.

(** A finite value that is a double: rounding leaves it as it is. *)
Definition canonical (a : float) : Prop :=
  match a with
  | Fin x => round x = Fin x
  | _ => True
  end.

End Float.

(** ** Python numbers

    A number is an [int] or a [float]. An operation on two [int]s is
    exact; otherwise the [int] operand is converted to [float] first,
    which fails with [OverflowError] when the [int] is beyond the range
    of the doubles. *)

Inductive pynum : Type :=
| PyInt (z : Z)
| PyFloat (x : Float.float).

Definition float_of_int (z : Z) : outcome Float.float :=
  match Float.round (inject_Z z) with
  | Float.Inf _ => Raise OverflowError
  | x => Ok x
  end.

Definition to_float (a : pynum) : outcome Float.float :=
  match a with
  | PyInt z => float_of_int z
  | PyFloat x => Ok x
  end.

(** [a + b] *)
Definition py_add (a b : pynum) : outcome pynum :=
  match a, b with
  | PyInt x, PyInt y => Ok (PyInt (x + y))
  | _, _ =>
      obind (to_float a) (fun x =>
      obind (to_float b) (fun y => Ok (PyFloat (Float.add x y))))
  end.

(** [a * b] *)
Definition py_mul (a b : pynum) : outcome pynum :=
  match a, b with
  | PyInt x, PyInt y => Ok (PyInt (x * y))
  | _, _ =>
      obind (to_float a) (fun x =>
      obind (to_float b) (fun y => Ok (PyFloat (Float.mul x y))))
  end.

(** The value of a number: an [int] of any size has one, exactly. *)
Definition value (a : pynum) : Float.float :=
  match a with
  | PyInt z => Float.Fin (inject_Z z)
  | PyFloat x => x
  end.

(** [for x in l: acc = body(x, acc)] without a world. *)
Fixpoint ofold {A T} (l : list A) (acc : T) (body : A -> T -> outcome T)
  : outcome T :=
  match l with
  | [] => Ok acc
  | x :: l' => obind (body x acc) (fun acc' => ofold l' acc' body)
  end.

(** ** objfun.py: the diameter catalog *)

Module Catalog.

(** [sorted(pipe_price.keys())] *)
Definition sorted_keys (pipe_price : gmap Z Z) : list Z :=
  merge_sort Z.le (elements (dom pipe_price)).

Definition index2diam (diam_indexes : list Z) (pipe_price : gmap Z Z)
  : outcome (list Z) :=
  let keys := sorted_keys pipe_price in
  list_comp (fun x => py_getitem keys x) diam_indexes.


End Catalog.

(** ** hydraulic.py: the network object and the EPANET toolkit *)

Module Hydraulic.

(** Codes of [lib.epamodule] used by the sources. *)
Inductive count_code := EN_NODECOUNT | EN_LINKCOUNT.
Inductive init_flag := EN_NOSAVE.
Inductive node_param :=
| EN_ELEVATION | EN_BASEDEMAND | EN_PATTERN | EN_DEMAND | EN_HEAD
| EN_PRESSURE | EN_QUALITY.
Inductive link_param :=
| EN_DIAMETER | EN_LENGTH | EN_ROUGHNESS | EN_MINORLOSS | EN_INITSTATUS
| EN_INITSETTING | EN_KBULK | EN_KWALL | EN_FLOW | EN_VELOCITY
| EN_HEADLOSS | EN_STATUS | EN_SETTING | EN_ENERGY.

(** The toolkit calls that change the state of the solver. The state of
    the opaque engine is the sequence of such calls made so far. *)
Inductive ENcall :=
| ENopen (fi fo : string)
| ENopenH
| ENinitH (flag : init_flag)
| ENrunH
| ENnextH
| ENsetlinkvalue (index : nat) (param : link_param) (value : Z)
| ENcloseH
| ENclose.

(** What the program sees of its surroundings: the answers of the toolkit
    to its queries (functions of the calls made so far; toolkit calls are
    taken to succeed) and [os.path.isfile]. *)
Class Env := {
  ENgetcount : list ENcall -> count_code -> nat;
  ENgetnodeid : list ENcall -> nat -> string;
  ENgetnodetype : list ENcall -> nat -> Z;
  ENgetnodevalue : list ENcall -> nat -> node_param -> Q;
  ENgetlinkid : list ENcall -> nat -> string;
  ENgetlinkvalue : list ENcall -> nat -> link_param -> Q;
  ENnextH_tstep : list ENcall -> Z;
  isfile : string -> bool
}.

Definition EXT_INPUT : string := "inp".
Definition EXT_REPORT : string := "rpt".

(** The fields of a [Network] object ([name], [reserviors] and the
    coordinate fields are set to [None] and never used). *)
Record Network := mkNetwork {
  path : string;
  inputfile : string;
  outputfile : string;
  links : option nat;
  nodes : option nat;
  node_values : gmap string (gmap string Q);
  link_values : gmap string (gmap string Q);
  nodeids : list string;
  sources : list Z;
  pressure : list Q;
  velocity : list Q;
  lengths : list Q;
  diameters : list Q;
  flowrate : list Q
}.

(** The object, the engine and the standard output. *)
Record World := mkWorld {
  self : Network;
  calls : list ENcall;
  stdout : list string
}.

Abbreviation M := (SM World).

Definition get_self : M Network := fun w => (Ok (self w), w).
Definition get_calls : M (list ENcall) := fun w => (Ok (calls w), w).
Definition update_self (f : Network -> Network) : M unit :=
  fun w => (Ok tt, mkWorld (f (self w)) (calls w) (stdout w)).
Definition en_call (c : ENcall) : M unit :=
  fun w => (Ok tt, mkWorld (self w) (calls w ++ [c]) (stdout w)).
Definition print (line : string) : M unit :=
  fun w => (Ok tt, mkWorld (self w) (calls w) (stdout w ++ [line])).

(** [range(self.nodes)]; [range(None)] raises [TypeError]. *)
Definition range_of (n : option nat) : M (list nat) :=
  match n with
  | Some n => mret (range n)
  | None => raise TypeError
  end.

(** [a is b] for two [int] objects created independently of each other
    (here: the result of [len] and a count read from the toolkit).
    CPython shares one object per integer in [-5, 256]; outside of that
    interval two separately created objects are distinct even when their
    values are equal. *)
Definition py_int_is (a b : Z) : bool :=
  (a =? b) && (-5 <=? a) && (a <=? 256).

(** [len(diameters) is self.links]; [self.links] is [None] before
    [initialize]. *)
Definition len_is_links (len : nat) (links : option nat) : bool :=
  match links with
  | Some l => py_int_is (Z.of_nat len) (Z.of_nat l)
  | None => false
  end.

(** [s[-4:]] *)
Definition last4 (s : string) : string :=
  substring (String.length s - 4) 4 s.

(** [Network.__init__] *)
Definition Network_init (basepath filename : string) : Network :=
  {| path := basepath;
     inputfile := filename;
     outputfile := last4 filename +:+ "." +:+ EXT_REPORT;
     links := None;
     nodes := None;
     node_values := ∅;
     link_values := ∅;
     nodeids := [];
     sources := [];
     pressure := [];
     velocity := [];
     lengths := [];
     diameters := [];
     flowrate := [] |}.

Section methods.
Context `{Env}.

Definition check_file : M bool :=
  n ← get_self; mret (isfile (path n +:+ inputfile n)).

Definition open_network : M bool :=
  n ← get_self;
  let fi := path n +:+ inputfile n in
  let fo := path n +:+ outputfile n in
  exist ← check_file;
  (if exist : bool
   then en_call (ENopen fi fo) ;; en_call ENopenH
   else print ("File: " +:+ fi +:+ " does not exist")) ;;
  mret true.

Definition close_network : M unit :=
  en_call ENcloseH ;; en_call ENclose.

Definition set_counts (nn nl : nat) (n : Network) : Network :=
  mkNetwork (path n) (inputfile n) (outputfile n) (Some nl) (Some nn)
    (node_values n) (link_values n) (nodeids n) (sources n) (pressure n)
    (velocity n) (lengths n) (diameters n) (flowrate n).

Definition initialize : M unit :=
  h ← get_calls;
  update_self (set_counts (ENgetcount h EN_NODECOUNT) (ENgetcount h EN_LINKCOUNT)).

Definition change_diameters (diams : list Z) : M unit :=
  n ← get_self;
  (if len_is_links (length diams) (links n)
   then mret tt
   else raise (AssertionError "The number of diameters and pipes don't match")) ;;
  r ← range_of (links n);
  for_each r (fun i =>
    d ← lift (py_getitem diams (Z.of_nat i));
    en_call (ENsetlinkvalue (i + 1) EN_DIAMETER d)).

(** The five assignments at the head of [simulate]. *)
Definition reset_results (n : Network) : Network :=
  mkNetwork (path n) (inputfile n) (outputfile n) (links n) (nodes n)
    (node_values n) (link_values n) (nodeids n) [] []
    [] [] [] (flowrate n).

Definition node_dict (h : list ENcall) (node : nat) : gmap string Q :=
  <["QUALITY" := ENgetnodevalue h node EN_QUALITY]>
  (<["PRESSURE" := ENgetnodevalue h node EN_PRESSURE]>
  (<["HEAD" := ENgetnodevalue h node EN_HEAD]>
  (<["DEMAND" := ENgetnodevalue h node EN_DEMAND]>
  (<["PATTERN" := ENgetnodevalue h node EN_PATTERN]>
  (<["BASEDEMAND" := ENgetnodevalue h node EN_BASEDEMAND]>
  (<["ELEVATION" := ENgetnodevalue h node EN_ELEVATION]> ∅)))))).

Definition link_dict (h : list ENcall) (link : nat) : gmap string Q :=
  <["ENERGY" := ENgetlinkvalue h link EN_ENERGY]>
  (<["SETTING" := ENgetlinkvalue h link EN_SETTING]>
  (<["STATUS" := ENgetlinkvalue h link EN_STATUS]>
  (<["HEADLOSS" := ENgetlinkvalue h link EN_HEADLOSS]>
  (<["VELOCITY" := ENgetlinkvalue h link EN_VELOCITY]>
  (<["FLOW" := ENgetlinkvalue h link EN_FLOW]>
  (<["KWALL" := ENgetlinkvalue h link EN_KWALL]>
  (<["KBULK" := ENgetlinkvalue h link EN_KBULK]>
  (<["INITSETTING" := ENgetlinkvalue h link EN_INITSETTING]>
  (<["INITSTATUS" := ENgetlinkvalue h link EN_INITSTATUS]>
  (<["MINORLOSS" := ENgetlinkvalue h link EN_MINORLOSS]>
  (<["ROUGHNESS" := ENgetlinkvalue h link EN_ROUGHNESS]>
  (<["LENGTH" := ENgetlinkvalue h link EN_LENGTH]>
  (<["DIAMETER" := ENgetlinkvalue h link EN_DIAMETER]> ∅))))))))))))).

(** The body of the loop over the nodes, for the engine state [h]. *)
Definition node_row (h : list ENcall) (i : nat) (n : Network) : Network :=
  let node := (i + 1)%nat in
  let nid := ENgetnodeid h node in
  let p := ENgetnodevalue h node EN_PRESSURE in
  let t := ENgetnodetype h node in
  mkNetwork (path n) (inputfile n) (outputfile n) (links n) (nodes n)
    (<[nid := node_dict h node]> (node_values n)) (link_values n)
    (nodeids n ++ [nid]) (sources n ++ [t]) (pressure n ++ [p])
    (velocity n) (lengths n) (diameters n) (flowrate n).

(** The body of the loop over the links. *)
Definition link_row (h : list ENcall) (i : nat) (n : Network) : Network :=
  let link := (i + 1)%nat in
  let linkid := ENgetlinkid h link in
  let v := ENgetlinkvalue h link EN_VELOCITY in
  let l := ENgetlinkvalue h link EN_LENGTH in
  let d := ENgetlinkvalue h link EN_DIAMETER in
  let f := ENgetlinkvalue h link EN_FLOW in
  mkNetwork (path n) (inputfile n) (outputfile n) (links n) (nodes n)
    (node_values n) (<[linkid := link_dict h link]> (link_values n))
    (nodeids n) (sources n) (pressure n)
    (velocity n ++ [v]) (lengths n ++ [l]) (diameters n ++ [d])
    (flowrate n ++ [f]).

(** [tstep = em.ENnextH()] *)
Definition en_nextH : M Z :=
  h ← get_calls; en_call ENnextH ;; mret (ENnextH_tstep h).

(** The [while True] loop of [simulate]; [fuel] bounds the number of
    hydraulic periods. *)
Fixpoint simulate_loop (fuel : nat) : M unit :=
  match fuel with
  | O => out_of_fuel
  | S fuel' =>
      en_call ENrunH ;;
      n ← get_self;
      rn ← range_of (nodes n);
      for_each rn (fun i => h ← get_calls; update_self (node_row h i)) ;;
      n ← get_self;
      rl ← range_of (links n);
      for_each rl (fun i => h ← get_calls; update_self (link_row h i)) ;;
      tstep ← en_nextH;
      if tstep <=? 0 then mret tt else simulate_loop fuel'
  end.

Definition simulate (fuel : nat)
  : M (list Q * list Q * list Q * list Z) :=
  en_call (ENinitH EN_NOSAVE) ;;
  update_self reset_results ;;
  simulate_loop fuel ;;
  n ← get_self;
  mret (pressure n, velocity n, lengths n, sources n).

End methods.
End Hydraulic.

(** ** objfun.py: the objective function *)

Module Objfun.
Import Hydraulic.

(** The keyword arguments of [network_cost]. The four thresholds are
    finite numbers and are only compared with; the penalty step is
    added to the multipliers. *)
Record Options := mkOptions {
  hmin : Q;
  hmax : Q;
  vmin : Q;
  vmax : Q;
  penalty_step : pynum
}.

(** The values [kwargs.get] falls back to. *)
Definition default_options : Options :=
  {| hmin := 30; hmax := 100; vmin := 1 # 4; vmax := 5 # 2;
     penalty_step := PyInt 1 |}.

(** [p < _hmin or p > _hmax] *)
Definition outside (lo hi x : Q) : bool := Qlt_bool x lo || Qlt_bool hi x.

Section network_cost.
Context `{Env}.

Definition network_cost (fuel : nat) (diams : list Z)
    (unit_prices : gmap Z Z) (o : Options) : M pynum :=
  change_diameters diams ;;
  simulate fuel ;;
  network ← get_self;
  rn ← range_of (nodes network);
  pH ← for_fold rn (PyInt 1) (fun i pH =>
    s ← lift (py_getitem (sources network) (Z.of_nat i));
    if s =? 0
    then p ← lift (py_getitem (pressure network) (Z.of_nat i));
         if outside (hmin o) (hmax o) p
         then lift (py_add pH (penalty_step o))
         else mret pH
    else mret pH);
  rl ← range_of (links network);
  pV ← for_fold rl (PyInt 1) (fun i pV =>
    v ← lift (py_getitem (velocity network) (Z.of_nat i));
    if outside (vmin o) (vmax o) v
    then lift (py_add pV (penalty_step o))
    else mret pV);
  for_fold (range (length diams)) (PyInt 0) (fun i cost =>
    d ← lift (py_getitem diams (Z.of_nat i));
    u ← lift (dict_getitem unit_prices d);
    l ← lift (py_getitem (lengths network) (Z.of_nat i));
    ul ← lift (py_mul (PyInt u) (PyFloat (Float.Fin l)));
    ulV ← lift (py_mul ul pV);
    c ← lift (py_mul ulV pH);
    lift (py_add cost c)).

(** The source returns the cost as a one-element tuple. *)
Definition network_diameters (fuel : nat) (diam_indexes : list Z)
    (pipe_price : gmap Z Z) : M pynum :=
  ds ← lift (Catalog.index2diam diam_indexes pipe_price);
  network_cost fuel ds pipe_price default_options.

End network_cost.

(** *** The quantities the design document speaks of *)

Fixpoint count_true {A} (f : A -> bool) (l : list A) : nat :=
  match l with
  | [] => O
  | x :: l' => if f x then S (count_true f l') else count_true f l'
  end.

(** A junction (type [0]) whose pressure is outside [[hmin, hmax]]. *)
Definition pressure_violated (o : Options) (sp : Z * Q) : bool :=
  (sp.1 =? 0) && outside (hmin o) (hmax o) sp.2.

Definition velocity_violated (o : Options) (v : Q) : bool :=
  outside (vmin o) (vmax o) v.

(** Number of violations among the first [N] nodes and first [L] pipes. *)
Definition pressure_violations (o : Options) (N : nat) (n : Network) : nat :=
  count_true (pressure_violated o) (take N (zip (sources n) (pressure n))).

Definition velocity_violations (o : Options) (L : nat) (n : Network) : nat :=
  count_true (velocity_violated o) (take L (velocity n)).

(** A multiplier after [k] violations: it starts at the [int] [1] and the
    penalty step is added [k] times. With an [int] step it stays an
    [int]; with a [float] step every addition rounds. *)
Definition penalty (o : Options) (k : nat) : pynum :=
  match penalty_step o with
  | PyInt s => PyInt (1 + Z.of_nat k * s)
  | PyFloat s =>
      match k with
      | O => PyInt 1
      | S _ => PyFloat (Nat.iter k (fun x => Float.add x s) (Float.Fin 1))
      end
  end.

(** The three accumulations of [network_cost], one step each. *)
Definition pH_step (o : Options) (k : nat) (sp : Z * Q) : nat :=
  if pressure_violated o sp then S k else k.

Definition pV_step (o : Options) (k : nat) (v : Q) : nat :=
  if velocity_violated o v then S k else k.

Definition price_of (unit_prices : gmap Z Z) (d : Z) : Z :=
  default 0 (unit_prices !! d).

Definition cost_step (unit_prices : gmap Z Z) (pV pH : pynum) (dl : Z * Q)
    (cost : pynum) : outcome pynum :=
  obind (py_mul (PyInt (price_of unit_prices dl.1)) (PyFloat (Float.Fin dl.2)))
    (fun ul =>
  obind (py_mul ul pV) (fun ulV =>
  obind (py_mul ulV pH) (fun c =>
  py_add cost c))).

(** A number that can take part in floating-point arithmetic: a
    [float], or an [int] within the range of the doubles. *)
Definition converts (a : pynum) : Prop := exists x, to_float a = Ok x.

(** [unitPrice * length * pV * pH] for one pipe, evaluated from left to
    right; each product is rounded. *)
Definition pipe_cost (u : Z) (l : Q) (pV pH : pynum) : outcome Float.float :=
  obind (float_of_int u) (fun fu =>
  obind (to_float pV) (fun fV =>
  obind (to_float pH) (fun fH =>
  Ok (Float.mul (Float.mul (Float.mul fu (Float.Fin l)) fV) fH)))).

(** The sum of the pipe costs as [cost = 0; cost += c] accumulates it:
    from left to right, each addition rounded; the [int] [0] when there
    is no pipe. *)
Definition float_sum (cs : list Float.float) : Float.float :=
  foldl Float.add (Float.Fin 0) cs.

Definition accumulated (cs : list Float.float) : pynum :=
  match cs with
  | [] => PyInt 0
  | _ :: _ => PyFloat (float_sum cs)
  end.

Definition cost_formula (unit_prices : gmap Z Z) (diams : list Z)
    (lens : list Q) (pV pH : pynum) : outcome pynum :=
  obind (list_comp (fun dl : Z * Q => pipe_cost (price_of unit_prices dl.1) dl.2 pV pH)
           (zip diams lens))
        (fun cs => Ok (accumulated cs)).

(** [(Σ_i unitPrice[diameter_i] * length_i) * pV * pH] with the sum taken
    first, in floating point and in exact arithmetic. *)
Definition factored_cost (unit_prices : gmap Z Z) (diams : list Z)
    (lens : list Q) (pV pH : Float.float) : Float.float :=
  let material :=
    float_sum (zip_with (fun d l =>
      Float.mul (Float.round (inject_Z (price_of unit_prices d))) (Float.Fin l))
      diams lens) in
  Float.mul (Float.mul material pV) pH.

Fixpoint Qsum (l : list Q) : Q :=
  match l with
  | [] => 0%Q
  | x :: l' => (x + Qsum l')%Q
  end.

Definition material_cost (unit_prices : gmap Z Z) (diams : list Z)
    (lens : list Q) : Q :=
  Qsum (zip_with (fun d l => (inject_Z (price_of unit_prices d) * l)%Q) diams lens).

(** [Σ_i minUnitPrice * length_i] over the first [L] pipes, accumulated
    like the cost. *)
Definition lower_bound (m : Z) (L : nat) (lens : list Q) : Float.float :=
  float_sum (map (fun l => Float.mul (Float.round (inject_Z m)) (Float.Fin l))
               (take L lens)).



End Objfun.

(** ** optinetd_deap.py: the multi-run driver *)

Module Driver.

(** An individual of the hall of fame: its genome and [fitness.values[0]]. *)
Record Individual := mkIndividual {
  genome : list Z;
  fitness : Q
}.

(** A row of the logbook of one run, and a row of the statistics frame. *)
Record LogRow := mkLogRow {
  gen : nat; nevals : nat; avg : Q; std : Q; min : Q; max : Q
}.

Record StatRow := mkStatRow {
  row : LogRow;
  bestFit : Q
}.

(** The lines of the best-solution report and of the standard output,
    kept structured (the formatting of numbers is not modelled). *)
Inductive line :=
| Execution (i execs : nat)
| BestIter (f : Q)
| RunTime (execs : nat)
| Generations (g : list nat)
| BestSolution (best : option Individual)
| BestFitness (f : Q)
| ReportRunTime.

(** What a file holds: the table [to_csv] wrote, the lines written to a
    report, a saved figure, or any of these followed by lines that were
    appended to it. *)
Inductive file :=
| Csv (rows : list StatRow)
| Text (lines : list line)
| Figure
| Mixed (f : file) (lines : list line).

Record World := mkWorld {
  files : gmap string file;
  stdout : list line
}.

Abbreviation M := (SM World).

(** What the driver and the chart take from outside. One call of
    [optimize_diameters] is a whole run of the external genetic
    algorithm: the [i]-th call either raises or returns the best
    individual [hof.items[0]] and the logbook. [now] is the time stamp
    [datetime.strftime(start, f)]. [writable name] tells whether a file
    of that name can be opened for writing (its directory is there, the
    process may write to it). [foreign f] is what [csv.reader], [int] and
    [float] make of a file that is not a table of [to_csv]: the pairs of
    columns 0 and 6, or an exception. [yticks g best] are the tick
    locations the plotting library has chosen for the curve [best] over
    [g]. *)
Class GA := {
  optimize_diameters : nat -> outcome (Individual * list LogRow);
  now : string;
  writable : string -> bool;
  foreign : file -> outcome (list (nat * Q));
  yticks : list nat -> list Q -> list Q
}.

Definition print (l : line) : M unit :=
  fun w => (Ok tt, mkWorld (files w) (stdout w ++ [l])).

(** The content of a file after [f.write(l)] in mode ['a']. *)
Definition appended (old : option file) (l : line) : file :=
  match old with
  | None => Text [l]
  | Some (Text ls) => Text (ls ++ [l])
  | Some (Mixed f ls) => Mixed f (ls ++ [l])
  | Some f => Mixed f [l]
  end.

Definition append_line (name : string) (l : line) : M unit :=
  fun w => (Ok tt, mkWorld (<[name := appended (files w !! name) l]> (files w))
                           (stdout w)).

(** [s[:-4]] *)
Definition drop_last4 (s : string) : string :=
  substring 0 (String.length s - 4) s.

Section driver.
Context `{GA}.

(** [stats.to_csv(name, index=False)]: the file is replaced, or
    [OSError] when it cannot be opened for writing. *)
Definition to_csv (name : string) (rows : list StatRow) : M unit :=
  fun w =>
    if writable name
    then (Ok tt, mkWorld (<[name := Csv rows]> (files w)) (stdout w))
    else (Raise OSError, w).

(** [open(name, 'a')]: the file is created when it is not there. *)
Definition open_append (name : string) : M unit :=
  fun w =>
    if writable name
    then (Ok tt, mkWorld (match files w !! name with
                          | None => <[name := Text []]> (files w)
                          | Some _ => files w
                          end) (stdout w))
    else (Raise OSError, w).

(** [plt.savefig(name, ...)] *)
Definition savefig (name : string) : M unit :=
  fun w =>
    if writable name
    then (Ok tt, mkWorld (<[name := Figure]> (files w)) (stdout w))
    else (Raise OSError, w).

(** [open(name, 'r')] and the loop over [csv.reader]: the pairs
    [(int(row[0]), float(row[6]))] of the rows after the header. *)
Definition read_stats (name : string) : M (list (nat * Q)) :=
  fun w =>
    match files w !! name with
    | None => (Raise OSError, w)
    | Some (Csv rows) => (Ok (map (fun sr => (gen (row sr), bestFit sr)) rows), w)
    | Some f => (foreign f, w)
    end.

(** [best.fitness.values[0]]; [best] is [None] before the first run. *)
Definition fitness_of (best : option Individual) : M Q :=
  match best with
  | Some b => mret (fitness b)
  | None => raise AttributeError
  end.

(** The body of [for i in range(execs)]; the loop carries [(best, stats)]. *)
Definition exec_body (execs : nat) (i : nat)
    (acc : option Individual * list StatRow)
  : M (option Individual * list StatRow) :=
  let '(best, stats) := acc in
  print (Execution (i + 1) execs) ;;
  '(b, r) ← lift (optimize_diameters i);
  let best' :=
    match best with
    | None => b
    | Some cur => if Qlt_bool (fitness b) (fitness cur) then b else cur
    end in
  print (BestIter (fitness best')) ;;
  let df := map (fun lr => mkStatRow lr (fitness best')) r in
  mret (Some best', stats ++ df).

End driver.
End Driver.

(** ** What a run of [simulate] reads from the engine *)

Module SimSpec.
Import Hydraulic.
Section periods.
Context `{Env}.

(** The engine states at which the rows of the successive hydraulic
    periods are read, when the solver starts in state [h]: each period
    issues [ENrunH], reads its rows, and issues [ENnextH]; the period at
    which the toolkit reports a step [<= 0] is the last one. [None] when
    [fuel] periods do not reach it. *)
Fixpoint periods (fuel : nat) (h : list ENcall) : option (list (list ENcall)) :=
  match fuel with
  | O => None
  | S fuel' =>
      let h1 := h ++ [ENrunH] in
      if ENnextH_tstep h1 <=? 0 then Some [h1]
      else cons h1 <$> periods fuel' (h1 ++ [ENnextH])
  end.

(** One value per entity [1..n] and per period. *)
Definition rows {B} (f : list ENcall -> nat -> B) (n : nat)
    (hs : list (list ENcall)) : list B :=
  concat (map (fun h => map (fun i => f h (i + 1)%nat) (range n)) hs).

(** [n'] is [n] with the rows of the periods [hs] appended to its seven
    arrays; the counts and the file names are unchanged. *)
Record appended (N L : nat) (hs : list (list ENcall)) (n n' : Network) : Prop := {
  app_path : path n' = path n;
  app_inputfile : inputfile n' = inputfile n;
  app_outputfile : outputfile n' = outputfile n;
  app_nodes : nodes n' = nodes n;
  app_links : links n' = links n;
  app_nodeids : nodeids n' = nodeids n ++ rows ENgetnodeid N hs;
  app_sources : sources n' = sources n ++ rows ENgetnodetype N hs;
  app_pressure :
    pressure n' = pressure n ++ rows (fun h i => ENgetnodevalue h i EN_PRESSURE) N hs;
  app_velocity :
    velocity n' = velocity n ++ rows (fun h i => ENgetlinkvalue h i EN_VELOCITY) L hs;
  app_lengths :
    lengths n' = lengths n ++ rows (fun h i => ENgetlinkvalue h i EN_LENGTH) L hs;
  app_diameters :
    diameters n' = diameters n ++ rows (fun h i => ENgetlinkvalue h i EN_DIAMETER) L hs;
  app_flowrate :
    flowrate n' = flowrate n ++ rows (fun h i => ENgetlinkvalue h i EN_FLOW) L hs
}.

End periods.
End SimSpec.

(** ** Concrete catalogs, engines and worlds used in examples *)

Module Fixtures.
Import Hydraulic.

Definition two_loop_prices : gmap Z Z :=
  <[25 := 2]> (<[51 := 5]> (<[76 := 8]> (<[102 := 11]> ∅))).

(** A reservoir (node 1) feeding a junction (node 2) through one pipe of
    length 1000; a single hydraulic period. The junction pressure is
    [pj] and the pipe velocity is [1]. *)
Definition one_pipe (pj : Q) : Env := {|
  ENgetcount h c := match c with EN_NODECOUNT => 2%nat | EN_LINKCOUNT => 1%nat end;
  ENgetnodeid h i := if Nat.eqb i 1 then "R" else "J";
  ENgetnodetype h i := if Nat.eqb i 1 then 1 else 0;
  ENgetnodevalue h i p :=
    match p with
    | EN_PRESSURE => if Nat.eqb i 1 then 0%Q else pj
    | _ => 0%Q
    end;
  ENgetlinkid h i := "P";
  ENgetlinkvalue h i p :=
    match p with
    | EN_LENGTH => 1000%Q
    | EN_VELOCITY => 1%Q
    | _ => 0%Q
    end;
  ENnextH_tstep h := 0;
  isfile f := String.eqb f "data/OnePipe.inp"
|}.

(** The network object after [Network(path, inpfile)], and after
    [open_network(); initialize()] on the one-pipe engine. *)
Definition fresh (basepath filename : string) : World :=
  mkWorld (Network_init basepath filename) [] [].

Definition opened (pj : Q) : World :=
  snd ((@open_network (one_pipe pj) ;; @initialize (one_pipe pj))
         (fresh "data/" "OnePipe.inp")).




(** A network object whose link count is [l] (and node count [2]). *)
Definition with_links (l : nat) : World :=
  mkWorld (set_counts 2 l (Network_init "data/" "Big.inp")) [] [].

(** Two calls of [simulate] in a row on the one-pipe network. *)
Definition simulated_once : World :=
  snd (@simulate (one_pipe 50) 3 (opened 50)).

Definition second_call : outcome (list Q * list Q * list Q * list Z) * World :=
  @simulate (one_pipe 50) 3 simulated_once.

Definition simulated_twice : World := snd second_call.

Definition second_result : list Q * list Q * list Q * list Z :=
  match fst second_call with
  | Ok r => r
  | _ => ([], [], [], [])
  end.

(** A genetic algorithm whose first run succeeds, with a two-row logbook,
    and whose second run fails in the solver. *)
Definition first_best : Driver.Individual := Driver.mkIndividual [1; 0] 5000.

Definition first_log : list Driver.LogRow :=
  [Driver.mkLogRow 0 200 9000 100 7000 12000;
   Driver.mkLogRow 1 180 8000 100 5000 11000].

Definition second_run_fails : Driver.GA := {|
  Driver.optimize_diameters i :=
    if Nat.eqb i 0 then Ok (first_best, first_log) else Raise ENtoolkitError;
  Driver.now := "2020_01_01-00_00_00";
  Driver.writable name := true;
  Driver.foreign f := Raise ValueError;
  Driver.yticks g best := best
|}.

(** A genetic algorithm all of whose runs succeed. Every file can be
    written, and the chart has a tick at every point of the curve. *)
Definition all_runs_succeed : Driver.GA := {|
  Driver.optimize_diameters i := Ok (first_best, first_log);
  Driver.now := "2020_01_01-00_00_00";
  Driver.writable name := true;
  Driver.foreign f := Raise ValueError;
  Driver.yticks g best := best
|}.

(** Two runs of two generations each, the second of which finds a
    cheaper network than the first. *)
Definition second_best : Driver.Individual := Driver.mkIndividual [0; 0] 4200.

Definition second_log : list Driver.LogRow :=
  [Driver.mkLogRow 0 200 9500 120 6000 13000;
   Driver.mkLogRow 1 170 7000 90 4200 10000].

Definition improving : Driver.GA := {|
  Driver.optimize_diameters i :=
    if Nat.eqb i 0 then Ok (first_best, first_log) else Ok (second_best, second_log);
  Driver.now := "2020_01_01-00_00_00";
  Driver.writable name := true;
  Driver.foreign f := Raise ValueError;
  Driver.yticks g best := best
|}.

(** The same runs, with no directory [results/] to write to. *)
Definition no_directory : Driver.GA := {|
  Driver.optimize_diameters i :=
    if Nat.eqb i 0 then Ok (first_best, first_log) else Ok (second_best, second_log);
  Driver.now := "2020_01_01-00_00_00";
  Driver.writable name := false;
  Driver.foreign f := Raise ValueError;
  Driver.yticks g best := best
|}.

(** A report left by an earlier session. *)
Definition old_report : Driver.World :=
  Driver.mkWorld
    (<["results/ga_dimen_2020_01_01-00_00_00.txt" := Driver.Text [Driver.ReportRunTime]]> ∅)
    [].

Definition no_files : Driver.World := Driver.mkWorld ∅ [].

End Fixtures.

(** The toolkit calls of [k] hydraulic periods. *)
Definition period_calls (k : nat) : list Hydraulic.ENcall :=
  concat (replicate k [Hydraulic.ENrunH; Hydraulic.ENnextH]).

(** ** Further concrete inputs *)

Module Fixtures2.
Import Hydraulic.

(** A diameter that the two-loop catalog does not list, priced on the
    one-pipe network. *)
Definition unlisted : outcome pynum * World :=
  @Objfun.network_cost (Fixtures.one_pipe 50) 3 [52] Fixtures.two_loop_prices
    Objfun.default_options (Fixtures.opened 50).

Definition unlisted_run : outcome (list Q * list Q * list Q * list Z) * World :=
  @simulate (Fixtures.one_pipe 50) 3
    (snd (change_diameters [52] (Fixtures.opened 50))).

Definition unlisted_result : list Q * list Q * list Q * list Z :=
  match fst unlisted_run with
  | Ok r => r
  | _ => ([], [], [], [])
  end.

(** A three-period engine: the toolkit reports a positive step twice.
    The junction pressure is the number of [ENrunH] issued so far times
    ten. *)
Fixpoint runs_so_far (h : list Hydraulic.ENcall) : nat :=
  match h with
  | [] => 0%nat
  | Hydraulic.ENrunH :: h' => S (runs_so_far h')
  | _ :: h' => runs_so_far h'
  end.

Definition three_periods : Hydraulic.Env := {|
  Hydraulic.ENgetcount h c :=
    match c with
    | Hydraulic.EN_NODECOUNT => 2%nat
    | Hydraulic.EN_LINKCOUNT => 1%nat
    end;
  Hydraulic.ENgetnodeid h i := if Nat.eqb i 1 then "R" else "J";
  Hydraulic.ENgetnodetype h i := if Nat.eqb i 1 then 1 else 0;
  Hydraulic.ENgetnodevalue h i p :=
    match p with
    | Hydraulic.EN_PRESSURE =>
        if Nat.eqb i 1 then 0%Q else inject_Z (10 * Z.of_nat (runs_so_far h))
    | _ => 0%Q
    end;
  Hydraulic.ENgetlinkid h i := "P";
  Hydraulic.ENgetlinkvalue h i p :=
    match p with
    | Hydraulic.EN_LENGTH => 1000%Q
    | Hydraulic.EN_VELOCITY => 1%Q
    | _ => 0%Q
    end;
  Hydraulic.ENnextH_tstep h := if (runs_so_far h <? 3)%nat then 3600 else 0;
  Hydraulic.isfile f := true
|}.

Definition three_opened : Hydraulic.World :=
  snd ((@Hydraulic.open_network three_periods ;; @Hydraulic.initialize three_periods)
         (Fixtures.fresh "data/" "Three.inp")).

Definition three_run
  : outcome (list Q * list Q * list Q * list Z) * Hydraulic.World :=
  @Hydraulic.simulate three_periods 5 three_opened.

Definition three_result : list Q * list Q * list Q * list Z :=
  match fst three_run with
  | Ok r => r
  | _ => ([], [], [], [])
  end.

(** A reservoir feeding a junction through two pipes, of lengths 1000.5
    and 304.8 (the doubles nearest to them); the water runs at 3 m/s in
    both, the junction pressure is 50. *)
Definition two_pipes : Hydraulic.Env := {|
  Hydraulic.ENgetcount h c :=
    match c with
    | Hydraulic.EN_NODECOUNT => 2%nat
    | Hydraulic.EN_LINKCOUNT => 2%nat
    end;
  Hydraulic.ENgetnodeid h i := if Nat.eqb i 1 then "R" else "J";
  Hydraulic.ENgetnodetype h i := if Nat.eqb i 1 then 1 else 0;
  Hydraulic.ENgetnodevalue h i p :=
    match p with
    | Hydraulic.EN_PRESSURE => if Nat.eqb i 1 then 0%Q else 50%Q
    | _ => 0%Q
    end;
  Hydraulic.ENgetlinkid h i := if Nat.eqb i 1 then "P1" else "P2";
  Hydraulic.ENgetlinkvalue h i p :=
    match p with
    | Hydraulic.EN_LENGTH =>
        if Nat.eqb i 1 then (2001 # 2)%Q
        else (5362098306337997 # 17592186044416)%Q
    | Hydraulic.EN_VELOCITY => 3%Q
    | _ => 0%Q
    end;
  Hydraulic.ENnextH_tstep h := 0;
  Hydraulic.isfile f := true
|}.

Definition two_opened : Hydraulic.World :=
  snd ((@Hydraulic.open_network two_pipes ;; @Hydraulic.initialize two_pipes)
         (Fixtures.fresh "data/" "TwoPipes.inp")).

(** The diameters 51 and 25 priced on the two-pipe network. *)
Definition two_priced : outcome pynum * Hydraulic.World :=
  @Objfun.network_cost two_pipes 3 [51; 25] Fixtures.two_loop_prices
    Objfun.default_options two_opened.

Definition two_run
  : outcome (list Q * list Q * list Q * list Z) * Hydraulic.World :=
  @Hydraulic.simulate two_pipes 3 (snd (change_diameters [51; 25] two_opened)).

Definition two_result : list Q * list Q * list Q * list Z :=
  match fst two_run with
  | Ok r => r
  | _ => ([], [], [], [])
  end.

(** A penalty step of [2 ^ -60], a [float]. *)
Definition tiny_step : Objfun.Options :=
  Objfun.mkOptions 30 100 (1 # 4) (5 # 2) (PyFloat (Float.Fin (1 # 2 ^ 60))).

(** The cheapest diameter on the one-pipe network whose junction
    pressure, 20, is below [hmin], priced with that step. *)
Definition cheapest_tiny : outcome pynum * Hydraulic.World :=
  @Objfun.network_cost (Fixtures.one_pipe 20) 3 [25] Fixtures.two_loop_prices
    tiny_step (Fixtures.opened 20).

(** A catalog one of whose prices is beyond the range of the doubles. *)
Definition huge_price : gmap Z Z := <[25 := 2 ^ 1024]> ∅.

Definition overflowing : outcome pynum * Hydraulic.World :=
  @Objfun.network_cost two_pipes 3 [25; 26] huge_price
    Objfun.default_options two_opened.

End Fixtures2.

(** ** objfun.py: reading the price table and drawing random diameters *)

Module Prices.

(** What [pipe_price] takes from outside: the rows [csv.reader] yields
    for a file (or the exception of [open]) and the value of [int] on a
    field (or its exception). *)
Class Csv := {
  csv_rows : string -> outcome (list (list string));
  py_int : string -> outcome Z
}.

Definition pipe_price `{Csv} (filename : string) : outcome (gmap Z Z) :=
  obind (csv_rows filename) (fun csvreader =>
    ofold csvreader ∅ (fun row cost =>
      if (length row =? 2)%nat
      then obind (py_getitem row 0) (fun f0 =>
           obind (py_int f0) (fun k =>
           obind (py_getitem row 1) (fun f1 =>
           obind (py_int f1) (fun v =>
           Ok (<[k := v]> cost)))))
      else Raise (AssertionError "Incorrect number of columns in file"))).

(** A row of two fields that [int] accepts, and the pair it denotes. *)
Definition denotes `{Csv} (row : list string) (kv : Z * Z) : Prop :=
  exists a b, row = [a; b] /\ py_int a = Ok kv.1 /\ py_int b = Ok kv.2.

End Prices.

Module Init.

(** [random.randrange(a, b)]: the answer to the [n]-th draw of the
    process. *)
Class Random := {
  randrange : nat -> Z -> Z -> outcome Z
}.

(** The world of [init_diam] is the number of draws made so far. *)
Definition draw `{Random} (a b : Z) : SM nat Z :=
  fun n => (randrange n a b, S n).

(** [init_diam] appends to the list [x] it is given and returns it. *)
Definition init_diam `{Random} (x : list Z) (dimension : nat)
    (prices : gmap Z Z) : SM nat (list Z) :=
  let diameters := Catalog.sorted_keys prices in
  for_fold (range dimension) x (fun i x =>
    r ← draw 0 (Z.of_nat (length diameters));
    d ← lift (py_getitem diameters r);
    mret (x ++ [d])).

(** [randrange(a, b)] answers within [[a, b)] when that interval is not
    empty. *)
Definition in_range `{Random} : Prop :=
  forall n a b, a < b -> exists r, randrange n a b = Ok r /\ a <= r < b.

End Init.

Module Fixtures3.

(** A price file of three rows, the last of which prices the diameter 25
    again. *)
Definition price_file : Prices.Csv := {|
  Prices.csv_rows f :=
    if String.eqb f "prices.csv"
    then Ok [["25"; "2"]; ["51"; "5"]; ["25"; "3"]]
    else if String.eqb f "broken.csv"
    then Ok [["25"; "2"]; ["51"; "5"; "7"]; ["76"; "8"]]
    else Raise TypeError;
  Prices.py_int s :=
    if String.eqb s "25" then Ok 25
    else if String.eqb s "51" then Ok 51
    else if String.eqb s "76" then Ok 76
    else if String.eqb s "2" then Ok 2
    else if String.eqb s "3" then Ok 3
    else if String.eqb s "5" then Ok 5
    else if String.eqb s "8" then Ok 8
    else Raise TypeError
|}.

(** A generator that walks through the interval. *)
Definition round_robin : Init.Random := {|
  Init.randrange n a b := if a <? b then Ok (a + (Z.of_nat n) mod (b - a)) else Raise TypeError
|}.

End Fixtures3.

(** ** plot.py: the convergence data *)

Module Plot.

(** [l[ini:end]] for non-negative bounds. *)
Definition py_slice {A} (l : list A) (ini end_ : nat) : list A :=
  take (end_ - ini) (drop ini l).

(** [l[i] = v] *)
Definition py_setitem {A} (l : list A) (i : nat) (v : A) : outcome (list A) :=
  if (i <? length l)%nat then Ok (<[i := v]> l) else Raise IndexError.

(** The inner loop: [best] is lowered in place to [y] wherever [y] is
    strictly smaller. *)
Definition lower_to (y best : list Q) : outcome (list Q) :=
  ofold (range (length y)) best (fun i best =>
    obind (py_getitem y (Z.of_nat i)) (fun yi =>
    obind (py_getitem best (Z.of_nat i)) (fun bi =>
    if Qlt_bool yi bi then py_setitem best i yi else Ok best))).

(** The loop over the runs; it carries [best], [ini] and [end]. *)
Definition envelope (runs gens : nat) (rmin : list Q) : outcome (list Q) :=
  let ini := 0%nat in
  let end_ := (gens + 1)%nat in
  let best := py_slice rmin ini end_ in
  obind
    (ofold (range runs) (best, ini, end_) (fun r '(best, ini, end_) =>
       let y := py_slice rmin ini end_ in
       obind (lower_to y best) (fun best' =>
       Ok (best', (ini + (gens + 1))%nat, (end_ + (gens + 1))%nat))))
    (fun '(best, _, _) => Ok best).

(** [x <= y] on floats can be decided. *)
Definition Qle_dec (x y : Q) : Decision (x <= y)%Q :=
  match Qlt_le_dec y x with
  | left H => right (Qlt_not_le _ _ H)
  | right H => left H
  end.

#[export] Existing Instance Qle_dec.

(** The tick marks put on the cost axis: of the locations [loc] the
    library chose, those at or above the last point of the curve, in
    ascending order, the lowest of them dropped when it is less than
    50000 above that point, and the point itself put first.
    [IndexError] when no location is at or above the point. *)
Definition new_ticks (loc : list Q) (last : Q) : outcome (list Q) :=
  let nloc := merge_sort Qle (filter (fun i => (last <= i)%Q) loc) in
  obind (py_getitem nloc 0) (fun first =>
  let nloc :=
    if Float.ltb (Float.sub (Float.Fin first) (Float.Fin last)) (Float.Fin 50000)
    then drop 1 nloc else nloc in
  Ok (last :: nloc)).

(** What [plot_convergence] hands to the plotting library: the
    generations [g], the curve [best] and the annotated value
    [best[-1]]. The generation and the seventh column of every row of the
    statistics file are taken from the structured rows; the drawing, the
    tick marks and the saving of the figure are not modelled. *)
Definition convergence (runs gens : nat) (rows : list Driver.StatRow)
  : outcome (list nat * list Q * Q) :=
  let gen := map (fun sr => Driver.gen (Driver.row sr)) rows in
  let rmin := map Driver.bestFit rows in
  obind (envelope runs gens rmin) (fun best =>
  let g := py_slice gen 0 (gens + 1) in
  obind (py_getitem best (-1)) (fun annotated =>
  obind (py_getitem g (-1)) (fun _ =>
  Ok (g, best, annotated)))).

Section chart.
Context `{Driver.GA}.

(** [plot_convergence(runs, gens, file_stats)]: reads the statistics
    file, prints the generation axis, computes the curve, annotates its
    last point, sets the tick marks and saves the figure next to the
    statistics file. The drawing itself leaves no trace but the saved
    figure. *)
Definition plot_convergence (runs gens : nat) (file_stats : string)
  : Driver.M unit :=
  data ← Driver.read_stats file_stats;
  let gen := map fst data in
  let rmin := map snd data in
  let g := py_slice gen 0 (gens + 1) in
  Driver.print (Driver.Generations g) ;;
  best ← lift (envelope runs gens rmin);
  last ← lift (py_getitem best (-1));
  lift (py_getitem g (-1)) ;;
  lift (new_ticks (Driver.yticks g best) last) ;;
  Driver.savefig (Driver.drop_last4 file_stats +:+ ".png").

End chart.
End Plot.

(** ** optinetd_deap.py: the whole of the multi-run driver *)

Module MultiRun.
Import Driver.
Section driver.
Context `{GA}.

Definition optimize_diameters_execs (execs gens : nat) (dir : string)
  : M (option Individual) :=
  let _stats := dir +:+ "ga_dimen_" +:+ now +:+ ".csv" in
  let _sol := drop_last4 _stats +:+ ".txt" in
  '(best, stats) ← for_fold (range execs) (None, []) (exec_body execs);
  print (RunTime execs) ;;
  to_csv _stats stats ;;
  Plot.plot_convergence execs gens _stats ;;
  open_append _sol ;;
  append_line _sol (BestSolution best) ;;
  f ← fitness_of best;
  append_line _sol (BestFitness f) ;;
  append_line _sol ReportRunTime ;;
  mret best.

(** The locations the library chooses reach the last point of the
    curve: one of them is at or above it. *)
Definition ticks_reach : Prop :=
  forall (g : list nat) (best : list Q) (v : Q),
    last best = Some v -> Exists (fun t => (v <= t)%Q) (yticks g best).

End driver.
End MultiRun.

(** ** hydraulic.py: printing the results and the one-call simulation *)

Module Report.
Import Hydraulic.

(** [str.format] with the two format strings of [show_properties]: the
    line printed for an id and its values. *)
Class Formatter := {
  format_node : string -> list Q -> string;
  format_link : string -> list Q -> string
}.

(** The order of [sorted] on byte strings. *)
Definition string_le (a b : string) : Prop := String.leb a b = true.

#[export] Instance string_le_dec : RelDecision string_le :=
  fun a b => decide (String.leb a b = true).

(** [sorted(d.keys())] *)
Definition sorted_ids (d : gmap string (gmap string Q)) : list string :=
  merge_sort string_le (elements (dom d)).

(** [d.get(id)] followed by a method call on the result: [None] has no
    [get]. *)
Definition dict_get (d : gmap string (gmap string Q)) (id : string)
  : outcome (gmap string Q) :=
  match d !! id with
  | Some v => Ok v
  | None => Raise AttributeError
  end.

(** [v.get(k)] for each key in turn, as arguments of a float format:
    a missing key gives [None], which the format rejects. *)
Definition get_values (v : gmap string Q) (keys : list string) : outcome (list Q) :=
  list_comp (fun k => match v !! k with
                      | Some q => Ok q
                      | None => Raise TypeError
                      end) keys.

Definition newline : string := String (Ascii.ascii_of_nat 10) "".

Definition node_keys : list string :=
  ["ELEVATION"; "PRESSURE"; "HEAD"; "BASEDEMAND"; "DEMAND"; "PATTERN"; "QUALITY"].

Definition link_keys : list string := ["DIAMETER"; "LENGTH"; "VELOCITY"].

Section methods.
Context `{Env} `{Formatter}.

Definition show_properties : M unit :=
  n ← get_self;
  let nodes := sorted_ids (node_values n) in
  let links := sorted_ids (link_values n) in
  print (newline +:+ "Network nodes") ;;
  print "Node    Elevation Pressure     Head Base-Dem   Demand  Pattern  Quality " ;;
  for_each nodes (fun id =>
    node ← lift (dict_get (node_values n) id);
    vs ← lift (get_values node node_keys);
    print (format_node id vs)) ;;
  print (newline +:+ "Network junctions") ;;
  print "Link     Diameter   Length Velocity" ;;
  for_each links (fun id =>
    link ← lift (dict_get (link_values n) id);
    vs ← lift (get_values link link_keys);
    print (format_link id vs)).

(** [simulate_network(path, infile, diameters=...)]; the network object
    of the world is the local [network]. *)
Definition simulate_network (fuel : nat) (path infile : string)
    (_diameters : option (list Z)) : M unit :=
  update_self (fun _ => Network_init path infile) ;;
  open_network ;;
  initialize ;;
  match _diameters with
  | Some ds =>
      n ← get_self;
      (if bool_decide (links n = Some (length ds))
       then mret tt
       else raise (AssertionError "Diameters don't match")) ;;
      change_diameters ds
  | None => mret tt
  end ;;
  simulate fuel ;;
  close_network ;;
  show_properties.

(** The world after [Network(path, infile)], [open_network()] and
    [initialize()]. *)
Definition opened (path infile : string) (w : World) : World :=
  snd ((open_network ;; initialize)
         (mkWorld (Network_init path infile) (calls w) (stdout w))).

End methods.

(** Every dict of the object was built by [simulate]. *)
Definition built_by_simulate `{Env} (n : Network) : Prop :=
  (forall id v, node_values n !! id = Some v -> exists h i, v = node_dict h i) /\
  (forall id v, link_values n !! id = Some v -> exists h i, v = link_dict h i).

End Report.

Module Fixtures4.

(** A formatter that prints the id only. *)
Definition id_only : Report.Formatter := {|
  Report.format_node id vs := id;
  Report.format_link id vs := id
|}.

(** An engine that reports 257 links and a single period. *)
Definition many_pipes : Hydraulic.Env := {|
  Hydraulic.ENgetcount h c :=
    match c with
    | Hydraulic.EN_NODECOUNT => 2%nat
    | Hydraulic.EN_LINKCOUNT => 257%nat
    end;
  Hydraulic.ENgetnodeid h i := if Nat.eqb i 1 then "R" else "J";
  Hydraulic.ENgetnodetype h i := if Nat.eqb i 1 then 1 else 0;
  Hydraulic.ENgetnodevalue h i p := 0%Q;
  Hydraulic.ENgetlinkid h i := "P";
  Hydraulic.ENgetlinkvalue h i p := 0%Q;
  Hydraulic.ENnextH_tstep h := 0;
  Hydraulic.isfile f := true
|}.

Definition nothing_yet : Hydraulic.World :=
  Hydraulic.mkWorld (Hydraulic.Network_init "" "") [] [].

Definition one_call : outcome unit * Hydraulic.World :=
  @Report.simulate_network (Fixtures.one_pipe 50) id_only 3 "data/" "OnePipe.inp"
    None nothing_yet.

End Fixtures4.

(** *** Facts about Python indexing *)

Lemma py_getitem_Ok {A} (l : list A) (i : Z) :
  - Z.of_nat (length l) <= i < Z.of_nat (length l) ->
  exists x, py_getitem l i = Ok x /\
            l !! Z.to_nat (if i <? 0 then i + Z.of_nat (length l) else i) = Some x.
Proof.
  intros Hi. unfold py_getitem.
  set (j := if i <? 0 then _ else _).
  assert (Hj : 0 <= j < Z.of_nat (length l)).
  { subst j. destruct (Z.ltb_spec i 0); lia. }
  replace ((0 <=? j) && (j <? Z.of_nat (length l))) with true
    by (symmetry; apply andb_true_iff; split; [apply Z.leb_le | apply Z.ltb_lt]; lia).
  destruct (lookup_lt_is_Some_2 l (Z.to_nat j)) as [x Hx]; [lia|].
  exists x. by rewrite Hx.
Qed.

Lemma py_getitem_Raise {A} (l : list A) (i : Z) :
  i < - Z.of_nat (length l) \/ Z.of_nat (length l) <= i ->
  py_getitem l i = Raise IndexError.
Proof.
  intros Hi. unfold py_getitem.
  set (j := if i <? 0 then _ else _).
  assert (Hj : j < 0 \/ Z.of_nat (length l) <= j).
  { subst j. destruct (Z.ltb_spec i 0); lia. }
  replace ((0 <=? j) && (j <? Z.of_nat (length l))) with false; [done|].
  symmetry. apply andb_false_iff.
  destruct Hj; [left; apply Z.leb_gt | right; apply Z.ltb_ge]; lia.
Qed.

Lemma py_getitem_cases {A} (l : list A) (i : Z) :
  (exists x, py_getitem l i = Ok x) \/ py_getitem l i = Raise IndexError.
Proof.
  destruct (decide (- Z.of_nat (length l) <= i < Z.of_nat (length l))) as [H|H].
  - left. destruct (py_getitem_Ok l i H) as (x & Hx & _). eauto.
  - right. apply py_getitem_Raise. lia.
Qed.

Lemma py_getitem_nat {A} (l : list A) (i : nat) (x : A) :
  l !! i = Some x -> py_getitem l (Z.of_nat i) = Ok x.
Proof.
  intros Hx. pose proof (lookup_lt_Some _ _ _ Hx) as Hlt.
  destruct (py_getitem_Ok l (Z.of_nat i)) as (y & Hy & Hl); [lia|].
  destruct (Z.ltb_spec (Z.of_nat i) 0); [lia|].
  rewrite Nat2Z.id in Hl. congruence.
Qed.

(** *** Facts about the sorted key list *)

Lemma sorted_keys_length (p : gmap Z Z) :
  length (Catalog.sorted_keys p) = size p.
Proof.
  unfold Catalog.sorted_keys.
  rewrite (Permutation_length (merge_sort_Permutation Z.le _)).
  by rewrite <- size_dom.
Qed.

Lemma sorted_keys_elem (p : gmap Z Z) (d : Z) :
  d ∈ Catalog.sorted_keys p <-> is_Some (p !! d).
Proof.
  unfold Catalog.sorted_keys.
  rewrite (merge_sort_Permutation Z.le _), elem_of_elements.
  apply elem_of_dom.
Qed.

Lemma sorted_keys_sorted (p : gmap Z Z) :
  StronglySorted Z.le (Catalog.sorted_keys p).
Proof. apply StronglySorted_merge_sort; apply _. Qed.

Lemma StronglySorted_lookup_le (l : list Z) (i j : nat) (x y : Z) :
  StronglySorted Z.le l -> (i <= j)%nat ->
  l !! i = Some x -> l !! j = Some y -> x <= y.
Proof.
  intros Hs. revert i j x y.
  induction Hs as [|a l Hs IH Hall]; intros i j x y Hij Hi Hj.
  - by rewrite lookup_nil in Hi.
  - destruct i as [|i], j as [|j]; simpl in *; simplify_eq; try lia.
    + rewrite Forall_forall in Hall. apply Hall.
      apply list_elem_of_lookup. eauto.
    + eapply (IH i j); eauto with lia.
Qed.

(** *** Facts about comprehensions *)

Lemma list_comp_Ok {A B} (f : A -> outcome B) (l : list A) (ys : list B) :
  list_comp f l = Ok ys <-> Forall2 (fun x y => f x = Ok y) l ys.
Proof.
  revert ys. induction l as [|x l IH]; intros ys; simpl.
  - split; [intros [= <-]; constructor | by inversion 1].
  - destruct (f x) as [y| |] eqn:Hx; simpl; [|split; [done | inversion 1; congruence]..].
    destruct (list_comp f l) as [zs| |] eqn:Hl; simpl.
    + split.
      * intros [= <-]. constructor; [done | by apply IH].
      * inversion 1 as [|? y' ? zs' Hy Hzs]; subst.
        apply IH in Hzs. congruence.
    + split; [done|]. inversion 1 as [|? y' ? zs' Hy Hzs]; subst.
      apply IH in Hzs. congruence.
    + split; [done|]. inversion 1 as [|? y' ? zs' Hy Hzs]; subst.
      apply IH in Hzs. congruence.
Qed.

Lemma list_comp_total {A B} (f : A -> outcome B) (l : list A) :
  Forall (fun x => exists y, f x = Ok y) l -> exists ys, list_comp f l = Ok ys.
Proof.
  induction 1 as [|x l [y Hy] _ [ys Hys]]; simpl; [by eexists|].
  rewrite Hy, Hys. by eexists.
Qed.

Lemma list_comp_Raise {A B} (f : A -> outcome B) (l : list A) (e : exn) :
  Forall (fun x => (exists y, f x = Ok y) \/ f x = Raise e) l ->
  Exists (fun x => f x = Raise e) l ->
  list_comp f l = Raise e.
Proof.
  induction 1 as [|x l Hx Hl IH]; intros Hex; [by inversion Hex|].
  simpl. destruct Hx as [[y Hy]|Hx]; [|by rewrite Hx].
  rewrite Hy. simpl. rewrite IH; [done|].
  inversion Hex; subst; [congruence | done].
Qed.

(** *** index2diam *)

Lemma index2diam_Ok_Forall2 (idx : list Z) (p : gmap Z Z) (ds : list Z) :
  Catalog.index2diam idx p = Ok ds <->
  Forall2 (fun i d => py_getitem (Catalog.sorted_keys p) i = Ok d) idx ds.
Proof. apply list_comp_Ok. Qed.

Lemma index2diam_in_range (idx : list Z) (p : gmap Z Z) :
  Forall (fun x => - Z.of_nat (size p) <= x < Z.of_nat (size p)) idx ->
  exists ds, Catalog.index2diam idx p = Ok ds.
Proof.
  intros Hall. apply list_comp_total.
  eapply Forall_impl; [exact Hall|]. intros x Hx. simpl in Hx.
  rewrite <- sorted_keys_length in Hx.
  destruct (py_getitem_Ok _ _ Hx) as (d & Hd & _). eauto.
Qed.

Lemma index2diam_keys (idx : list Z) (p : gmap Z Z) (ds : list Z) :
  Catalog.index2diam idx p = Ok ds ->
  Forall (fun d => is_Some (p !! d)) ds.
Proof.
  rewrite index2diam_Ok_Forall2. induction 1 as [|i d idx ds Hd _ IH]; constructor; [|done].
  apply sorted_keys_elem. unfold py_getitem in Hd.
  destruct (_ && _); [|done].
  destruct (_ !! _) as [x|] eqn:Hx; [|done]. simplify_eq.
  apply list_elem_of_lookup. eauto.
Qed.

(** C7. [index2diam] is a function of the catalog and the index list alone
    (it takes no world and returns none), and it is monotonic: whenever
    every index lies in [[0, |catalog|)] the call succeeds with one
    diameter per index, and for any two positions holding indices
    [i <= j] the diameter resolved for [i] is at most the one resolved
    for [j]. *)
Theorem index2diam_monotonic (p : gmap Z Z) (idx : list Z) :
  Forall (fun x => 0 <= x < Z.of_nat (size p)) idx ->
  exists ds, Catalog.index2diam idx p = Ok ds /\
    length ds = length idx /\
    forall (a b : nat) (i j di dj : Z),
      idx !! a = Some i -> idx !! b = Some j ->
      ds !! a = Some di -> ds !! b = Some dj ->
      i <= j -> di <= dj.
Proof.
  intros Hall.
  destruct (index2diam_in_range idx p) as [ds Hds].
  { eapply Forall_impl; [exact Hall|]. simpl. lia. }
  exists ds. split; [done|].
  apply index2diam_Ok_Forall2 in Hds.
  split; [symmetry; eapply Forall2_length; eauto|].
  intros a b i j di dj Ha Hb Hda Hdb Hij.
  rewrite Forall_forall in Hall.
  assert (Hi : 0 <= i < Z.of_nat (size p))
    by (apply Hall, list_elem_of_lookup; eauto).
  assert (Hj : 0 <= j < Z.of_nat (size p))
    by (apply Hall, list_elem_of_lookup; eauto).
  pose proof (Forall2_lookup_lr _ _ _ _ _ _ Hds Ha Hda) as Hgi.
  pose proof (Forall2_lookup_lr _ _ _ _ _ _ Hds Hb Hdb) as Hgj.
  simpl in Hgi, Hgj. rewrite <- sorted_keys_length in Hi, Hj.
  destruct (py_getitem_Ok (Catalog.sorted_keys p) i) as (xi & Hxi & Hli); [lia|].
  destruct (py_getitem_Ok (Catalog.sorted_keys p) j) as (xj & Hxj & Hlj); [lia|].
  destruct (Z.ltb_spec i 0); [lia|]. destruct (Z.ltb_spec j 0); [lia|].
  rewrite Hgi in Hxi. rewrite Hgj in Hxj. simplify_eq.
  eapply (StronglySorted_lookup_le (Catalog.sorted_keys p) (Z.to_nat i) (Z.to_nat j));
    eauto using sorted_keys_sorted with lia.
Qed.

Lemma index2diam_monotonic_witness :
  exists ds, Catalog.index2diam [0; 3; 1] Fixtures.two_loop_prices = Ok ds /\
    length ds = 3%nat /\
    forall (a b : nat) (i j di dj : Z),
      [0; 3; 1] !! a = Some i -> [0; 3; 1] !! b = Some j ->
      ds !! a = Some di -> ds !! b = Some dj ->
      i <= j -> di <= dj.
Proof.
  apply (index2diam_monotonic Fixtures.two_loop_prices [0; 3; 1]).
  repeat constructor; vm_compute; congruence.
Defined.

(** C5 as stated fails: with a two-entry catalog the index [-1] lies
    outside [[0, 2)], yet the call succeeds and yields the largest
    diameter. *)
Lemma index2diam_negative_index_succeeds :
  let p : gmap Z Z := <[25 := 2]> (<[51 := 5]> ∅) in
  Exists (fun x => ~ (0 <= x < Z.of_nat (size p))) [-1] /\
  Catalog.index2diam [-1] p = Ok [51].
Proof.
  split; [|reflexivity].
  apply Exists_cons_hd. vm_compute. intros [H _]. by apply H.
Qed.

Lemma py_getitem_Ok_inv {A} (l : list A) (i : Z) (x : A) :
  py_getitem l i = Ok x ->
  l !! Z.to_nat (if i <? 0 then i + Z.of_nat (length l) else i) = Some x.
Proof.
  unfold py_getitem. destruct (_ && _); [|done].
  destruct (l !! _) as [y|]; [|done]. by intros [= ->].
Qed.

(** C5, amended. [index2diam] raises [IndexError] exactly when some index
    lies outside [[-|catalog|, |catalog|)], and succeeds exactly when all
    indices lie inside it; when it succeeds, an index [i >= 0] resolves to
    the key at position [i] of the ascending-sorted keys and an index [i]
    in [[-|catalog|, -1]] to the key at position [i + |catalog|]: it
    counts from the end. *)
Theorem index2diam_IndexError_iff (p : gmap Z Z) (idx : list Z) :
  (Catalog.index2diam idx p = Raise IndexError <->
     Exists (fun x => x < - Z.of_nat (size p) \/ Z.of_nat (size p) <= x) idx) /\
  ((exists ds, Catalog.index2diam idx p = Ok ds) <->
     Forall (fun x => - Z.of_nat (size p) <= x < Z.of_nat (size p)) idx) /\
  (forall ds, Catalog.index2diam idx p = Ok ds ->
     Forall2 (fun i d =>
       Catalog.sorted_keys p
         !! Z.to_nat (if i <? 0 then i + Z.of_nat (size p) else i) = Some d)
       idx ds).
Proof.
  cut ((Catalog.index2diam idx p = Raise IndexError <->
          Exists (fun x => x < - Z.of_nat (size p) \/ Z.of_nat (size p) <= x) idx) /\
       ((exists ds, Catalog.index2diam idx p = Ok ds) <->
          Forall (fun x => - Z.of_nat (size p) <= x < Z.of_nat (size p)) idx)).
  { intros [H1 H2]. split; [done|]. split; [done|].
    intros ds Hds. apply index2diam_Ok_Forall2 in Hds.
    eapply Forall2_impl; [exact Hds|]. intros i d Hd. cbn beta in Hd.
    apply py_getitem_Ok_inv in Hd. by rewrite sorted_keys_length in Hd. }
  assert (Hcases : Forall (fun x =>
            (exists y, py_getitem (Catalog.sorted_keys p) x = Ok y) \/
            py_getitem (Catalog.sorted_keys p) x = Raise IndexError) idx).
  { apply Forall_forall. intros x _. apply py_getitem_cases. }
  destruct (decide (Forall (fun x => - Z.of_nat (size p) <= x < Z.of_nat (size p)) idx))
    as [Hin|Hout].
  - destruct (index2diam_in_range idx p Hin) as [ds Hds].
    split; split; intros Hx; try done; [congruence| |by eauto].
    exfalso. apply Exists_exists in Hx as (x & Hx & Hr).
    rewrite Forall_forall in Hin. apply Hin in Hx. lia.
  - assert (Hex : Exists (fun x => x < - Z.of_nat (size p) \/ Z.of_nat (size p) <= x) idx).
    { apply not_Forall_Exists in Hout; [|intros x; apply _].
      eapply Exists_impl; [exact Hout|]. simpl. lia. }
    assert (Hr : Catalog.index2diam idx p = Raise IndexError).
    { apply list_comp_Raise; [done|].
      eapply Exists_impl; [exact Hex|]. simpl. intros x Hx.
      apply py_getitem_Raise. by rewrite sorted_keys_length. }
    split; split; intros Hx; try done.
    destruct Hx as [ds Hds]. congruence.
Qed.

(** *** Loops whose body cannot fail *)

Lemma for_fold_seq_lookup {W A T} (xs : list A) (g : T -> A -> T)
    (body : nat -> T -> SM W T) :
  (forall i x acc w, xs !! i = Some x -> body i acc w = (Ok (g acc x), w)) ->
  forall (m k : nat) (acc : T) (w : W),
    (k + m <= length xs)%nat ->
    for_fold (seq k m) acc body w = (Ok (foldl g acc (take m (drop k xs))), w).
Proof.
  intros Hbody. induction m as [|m IH]; intros k acc w Hlen; [done|].
  destruct (lookup_lt_is_Some_2 xs k) as [x Hx]; [lia|].
  rewrite (drop_S _ _ _ Hx). simpl.
  unfold mbind at 1, SM_bind. rewrite (Hbody _ _ _ _ Hx).
  by rewrite IH by lia.
Qed.

Lemma for_fold_range_lookup {W A T} (xs : list A) (g : T -> A -> T)
    (body : nat -> T -> SM W T) (n : nat) (acc : T) (w : W) :
  (forall i x acc w, xs !! i = Some x -> body i acc w = (Ok (g acc x), w)) ->
  (n <= length xs)%nat ->
  for_fold (range n) acc body w = (Ok (foldl g acc (take n xs)), w).
Proof.
  intros Hbody Hn. unfold range.
  rewrite (for_fold_seq_lookup xs g body Hbody) by lia. by rewrite drop_0.
Qed.

(** A loop whose accumulator runs through the values [P k]. *)
Lemma for_fold_seq_image {W A T} (xs : list A) (P : nat -> T)
    (g : nat -> A -> nat) (body : nat -> T -> SM W T) :
  (forall i x k w, xs !! i = Some x -> body i (P k) w = (Ok (P (g k x)), w)) ->
  forall (m j k : nat) (w : W),
    (j + m <= length xs)%nat ->
    for_fold (seq j m) (P k) body w = (Ok (P (foldl g k (take m (drop j xs)))), w).
Proof.
  intros Hbody. induction m as [|m IH]; intros j k w Hlen; [done|].
  destruct (lookup_lt_is_Some_2 xs j) as [x Hx]; [lia|].
  rewrite (drop_S _ _ _ Hx). simpl.
  unfold mbind at 1, SM_bind. rewrite (Hbody _ _ _ _ Hx).
  by rewrite IH by lia.
Qed.

(** A loop whose body does not touch the world. *)
Lemma for_fold_seq_pure {W A T} (xs : list A) (f : A -> T -> outcome T)
    (body : nat -> T -> SM W T) :
  (forall i x acc w, xs !! i = Some x -> body i acc w = (f x acc, w)) ->
  forall (m j : nat) (acc : T) (w : W),
    (j + m <= length xs)%nat ->
    for_fold (seq j m) acc body w = (ofold (take m (drop j xs)) acc f, w).
Proof.
  intros Hbody. induction m as [|m IH]; intros j acc w Hlen; [done|].
  destruct (lookup_lt_is_Some_2 xs j) as [x Hx]; [lia|].
  rewrite (drop_S _ _ _ Hx). simpl.
  unfold mbind at 1, SM_bind. rewrite (Hbody _ _ _ _ Hx).
  destruct (f x acc) as [acc'|e|]; simpl; [|done..].
  by rewrite IH by lia.
Qed.

Lemma bind_eq {W A B} (m : SM W A) (k : A -> SM W B) (w : W) :
  (m ≫= k) w =
  match m w with
  | (Ok a, w') => k a w'
  | (Raise e, w') => (Raise e, w')
  | (OutOfFuel, w') => (OutOfFuel, w')
  end.
Proof. reflexivity. Qed.

Lemma lift_bind {W A B} (o : outcome A) (k : A -> SM W B) (w : W) :
  (lift o ≫= k) w =
  match o with
  | Ok a => k a w
  | Raise e => (Raise e, w)
  | OutOfFuel => (OutOfFuel, w)
  end.
Proof. rewrite bind_eq. unfold lift. by destruct o. Qed.

(** *** Computations that never raise a given exception *)

Lemma never_bind_strong {W A B} (e : exn) (m : SM W A) (k : A -> SM W B) (w : W) :
  fst (m w) <> Raise e ->
  (forall a w', m w = (Ok a, w') -> fst (k a w') <> Raise e) ->
  fst ((m ≫= k) w) <> Raise e.
Proof.
  intros Hm Hk. rewrite bind_eq.
  destruct (m w) as [[a|e'|] w']; simpl in *.
  - by apply Hk.
  - intros [= ->]. by apply Hm.
  - discriminate.
Qed.

Lemma never_bind {W A B} (e : exn) (m : SM W A) (k : A -> SM W B) :
  never e m -> (forall a, never e (k a)) -> never e (m ≫= k).
Proof. intros Hm Hk w. apply never_bind_strong; [apply Hm|]. intros a w' _. apply Hk. Qed.

Lemma never_ret {W A} (e : exn) (a : A) : never (W:=W) e (mret a).
Proof. by intros w. Qed.

Lemma never_raise {W A} (e e' : exn) : e' <> e -> never (W:=W) (A:=A) e (raise e').
Proof. intros Hne w. simpl. congruence. Qed.

Lemma never_lift {W A} (e : exn) (o : outcome A) :
  o <> Raise e -> never (W:=W) e (lift o).
Proof. by intros Ho w. Qed.

Lemma never_for_each {W A} (e : exn) (l : list A) (body : A -> SM W unit) :
  (forall x, x ∈ l -> never e (body x)) -> never e (for_each l body).
Proof.
  induction l as [|x l IH]; intros Hbody; simpl; [apply never_ret|].
  apply never_bind; [apply Hbody, list_elem_of_here|].
  intros _. apply IH. intros y Hy. by apply Hbody, list_elem_of_further.
Qed.

Lemma never_for_fold {W A T} (e : exn) (l : list A) (body : A -> T -> SM W T) :
  (forall x acc, x ∈ l -> never e (body x acc)) ->
  forall acc, never e (for_fold l acc body).
Proof.
  induction l as [|x l IH]; intros Hbody acc; simpl; [apply never_ret|].
  apply never_bind; [apply Hbody, list_elem_of_here|].
  intros acc'. apply IH. intros y a Hy. by apply Hbody, list_elem_of_further.
Qed.

Lemma py_getitem_not_KeyError {A} (l : list A) (i : Z) :
  py_getitem l i <> Raise KeyError.
Proof. destruct (py_getitem_cases l i) as [[x ->]| ->]; done. Qed.

Lemma py_getitem_elem {A} (l : list A) (i : Z) (x : A) :
  py_getitem l i = Ok x -> x ∈ l.
Proof.
  unfold py_getitem. destruct (_ && _); [|done].
  destruct (_ !! _) eqn:Hl; [|done]. intros [= <-].
  apply list_elem_of_lookup. eauto.
Qed.

Module HydraulicFacts.
Import Hydraulic SimSpec.
Section facts.
Context `{Env}.

Lemma for_each_update (f : list ENcall -> nat -> Network -> Network)
    (l : list nat) (w : World) :
  for_each l (fun i => h ← get_calls; update_self (f h i)) w =
  (Ok tt, mkWorld (foldl (fun n i => f (calls w) i n) (self w) l) (calls w) (stdout w)).
Proof.
  revert w. induction l as [|i l IH]; intros [n h out]; [done|].
  simpl. unfold mbind at 1, SM_bind. simpl. by rewrite IH.
Qed.

(** *** change_diameters *)

Lemma set_diameters_loop (ds : list Z) :
  forall (ds2 : list Z) (k : nat) (w : World),
    (forall i d, ds2 !! i = Some d -> ds !! (k + i)%nat = Some d) ->
    for_each (seq k (length ds2)) (fun i =>
      d ← lift (py_getitem ds (Z.of_nat i));
      en_call (ENsetlinkvalue (i + 1) EN_DIAMETER d)) w =
    (Ok tt, mkWorld (self w)
       (calls w ++ imap (fun i d => ENsetlinkvalue (k + i + 1) EN_DIAMETER d) ds2)
       (stdout w)).
Proof.
  induction ds2 as [|d ds2 IH]; intros k [n h out] Hds; simpl.
  - by rewrite app_nil_r.
  - unfold mbind at 1 2, SM_bind, lift. simpl.
    rewrite (py_getitem_nat ds k d) by (rewrite <- (Hds 0%nat d eq_refl); f_equal; lia).
    unfold en_call at 1. simpl. rewrite IH.
    + simpl. rewrite <- app_assoc. simpl. do 4 f_equal.
      * f_equal. lia.
      * apply imap_ext. intros i x _. simpl. f_equal. lia.
    + intros i x Hx. rewrite <- (Hds (S i) x Hx). f_equal. lia.
Qed.

Lemma change_diameters_mismatch (ds : list Z) (w : World) :
  len_is_links (length ds) (links (self w)) = false ->
  change_diameters ds w =
  (Raise (AssertionError "The number of diameters and pipes don't match"), w).
Proof.
  intros Hne. unfold change_diameters, mbind, SM_bind, get_self. simpl.
  by rewrite Hne.
Qed.

Lemma change_diameters_match (ds : list Z) (w : World) :
  len_is_links (length ds) (links (self w)) = true ->
  change_diameters ds w =
  (Ok tt, mkWorld (self w)
     (calls w ++ imap (fun i d => ENsetlinkvalue (i + 1) EN_DIAMETER d) ds)
     (stdout w)).
Proof.
  intros Heq. unfold change_diameters, mbind, SM_bind, get_self. simpl.
  rewrite Heq. simpl. unfold len_is_links in Heq.
  destruct (links (self w)) as [L|]; [|done]. simpl.
  assert (L = length ds) as ->.
  { unfold py_int_is in Heq. apply andb_true_iff in Heq as [Heq _].
    apply andb_true_iff in Heq as [Heq _]. apply Z.eqb_eq in Heq. lia. }
  exact (set_diameters_loop ds ds 0 w (fun i d Hd => Hd)).
Qed.

Lemma len_is_links_true (len L : nat) :
  len_is_links len (Some L) = true <-> len = L /\ (L <= 256)%nat.
Proof.
  unfold len_is_links, py_int_is. rewrite !andb_true_iff.
  rewrite Z.eqb_eq, !Z.leb_le. lia.
Qed.

(** *** simulate *)

Lemma rows_app {B} (f : list ENcall -> nat -> B) (n : nat) (hs1 hs2 : list (list ENcall)) :
  rows f n (hs1 ++ hs2) = rows f n hs1 ++ rows f n hs2.
Proof. unfold rows. by rewrite map_app, concat_app. Qed.

Lemma rows_single {B} (f : list ENcall -> nat -> B) (n : nat) (h : list ENcall) :
  rows f n [h] = map (fun i => f h (i + 1)%nat) (range n).
Proof. unfold rows. simpl. by rewrite app_nil_r. Qed.

Lemma rows_nil {B} (f : list ENcall -> nat -> B) (n : nat) :
  rows f n [] = [].
Proof. done. Qed.

Lemma rows_length {B} (f : list ENcall -> nat -> B) (n : nat) (hs : list (list ENcall)) :
  length (rows f n hs) = (length hs * n)%nat.
Proof.
  induction hs as [|h hs IH]; [done|].
  change (h :: hs) with ([h] ++ hs).
  rewrite rows_app, length_app, IH, rows_single, length_map.
  unfold range. rewrite length_seq. simpl. lia.
Qed.

Lemma appended_refl (N L : nat) (n : Network) : appended N L [] n n.
Proof. split; rewrite ?rows_nil, ?app_nil_r; done. Qed.

Lemma appended_trans (N L : nat) (hs1 hs2 : list (list ENcall)) (n1 n2 n3 : Network) :
  appended N L hs1 n1 n2 -> appended N L hs2 n2 n3 ->
  appended N L (hs1 ++ hs2) n1 n3.
Proof.
  intros [] []. split; rewrite ?rows_app, ?app_assoc; congruence.
Qed.

Lemma nodes_pass_appended (h : list ENcall) (N L : nat) (l : list nat) (n : Network) :
  let n' := foldl (fun n i => node_row h i n) n l in
  path n' = path n /\ inputfile n' = inputfile n /\ outputfile n' = outputfile n /\
  nodes n' = nodes n /\ links n' = links n /\
  nodeids n' = nodeids n ++ map (fun i => ENgetnodeid h (i + 1)%nat) l /\
  sources n' = sources n ++ map (fun i => ENgetnodetype h (i + 1)%nat) l /\
  pressure n' = pressure n ++ map (fun i => ENgetnodevalue h (i + 1)%nat EN_PRESSURE) l /\
  velocity n' = velocity n /\ lengths n' = lengths n /\
  diameters n' = diameters n /\ flowrate n' = flowrate n.
Proof.
  revert n. induction l as [|i l IH]; intros n; simpl.
  - by rewrite !app_nil_r.
  - destruct (IH (node_row h i n)) as (-> & -> & -> & -> & -> & -> & -> & -> & -> & -> & -> & ->).
    simpl. by rewrite <- !app_assoc.
Qed.

Lemma links_pass_appended (h : list ENcall) (l : list nat) (n : Network) :
  let n' := foldl (fun n i => link_row h i n) n l in
  path n' = path n /\ inputfile n' = inputfile n /\ outputfile n' = outputfile n /\
  nodes n' = nodes n /\ links n' = links n /\
  nodeids n' = nodeids n /\ sources n' = sources n /\ pressure n' = pressure n /\
  velocity n' = velocity n ++ map (fun i => ENgetlinkvalue h (i + 1)%nat EN_VELOCITY) l /\
  lengths n' = lengths n ++ map (fun i => ENgetlinkvalue h (i + 1)%nat EN_LENGTH) l /\
  diameters n' = diameters n ++ map (fun i => ENgetlinkvalue h (i + 1)%nat EN_DIAMETER) l /\
  flowrate n' = flowrate n ++ map (fun i => ENgetlinkvalue h (i + 1)%nat EN_FLOW) l.
Proof.
  revert n. induction l as [|i l IH]; intros n; simpl.
  - by rewrite !app_nil_r.
  - destruct (IH (link_row h i n)) as (-> & -> & -> & -> & -> & -> & -> & -> & -> & -> & -> & ->).
    simpl. by rewrite <- !app_assoc.
Qed.

(** The network object after the two inner loops of one period. *)
Lemma period_appended (h : list ENcall) (N L : nat) (n : Network) :
  appended N L [h] n
    (foldl (fun n i => link_row h i n)
       (foldl (fun n i => node_row h i n) n (range N)) (range L)).
Proof.
  destruct (links_pass_appended h (range L)
              (foldl (fun n i => node_row h i n) n (range N)))
    as (? & ? & ? & ? & ? & ? & ? & ? & ? & ? & ? & ?).
  destruct (nodes_pass_appended h N L (range N) n)
    as (? & ? & ? & ? & ? & ? & ? & ? & ? & ? & ? & ?).
  split; rewrite ?rows_single; congruence.
Qed.

Lemma simulate_loop_step (fuel : nat) (w : World) (N L : nat) :
  nodes (self w) = Some N -> links (self w) = Some L ->
  simulate_loop (S fuel) w =
  let h1 := calls w ++ [ENrunH] in
  let n' := foldl (fun n i => link_row h1 i n)
              (foldl (fun n i => node_row h1 i n) (self w) (range N)) (range L) in
  let w' := mkWorld n' (h1 ++ [ENnextH]) (stdout w) in
  if ENnextH_tstep h1 <=? 0 then (Ok tt, w') else simulate_loop fuel w'.
Proof.
  intros HN HL. destruct w as [n h out]. simpl in HN, HL.
  cbn [simulate_loop]. rewrite bind_eq. cbn [en_call self calls stdout].
  rewrite bind_eq. cbn [get_self self]. rewrite HN.
  rewrite bind_eq. cbn [range_of mret SM_ret].
  rewrite bind_eq, for_each_update. cbn [self calls stdout].
  destruct (nodes_pass_appended (h ++ [ENrunH]) N L (range N) n)
    as (_ & _ & _ & _ & HL' & _).
  rewrite bind_eq. cbn [get_self self]. rewrite HL', HL.
  rewrite bind_eq. cbn [range_of mret SM_ret].
  rewrite bind_eq, for_each_update. cbn [self calls stdout].
  rewrite bind_eq. unfold en_nextH. rewrite bind_eq. cbn [get_calls calls].
  rewrite bind_eq. cbn [en_call self calls stdout mret SM_ret].
  by destruct (_ <=? _).
Qed.

(** The loop of [simulate]: when the engine ends the run within [fuel]
    periods, the loop returns, having appended the rows of every period;
    otherwise the fuel runs out. *)
Lemma simulate_loop_spec (fuel : nat) :
  forall (w : World) (N L : nat),
    nodes (self w) = Some N -> links (self w) = Some L ->
    match periods fuel (calls w) with
    | Some hs =>
        hs <> [] /\
        exists w', simulate_loop fuel w = (Ok tt, w') /\
                   appended N L hs (self w) (self w') /\
                   stdout w' = stdout w
    | None => fst (simulate_loop fuel w) = OutOfFuel
    end.
Proof.
  induction fuel as [|fuel IH]; intros w N L HN HL; [done|].
  rewrite (simulate_loop_step fuel w N L HN HL). cbn [periods]. cbv zeta.
  pose proof (period_appended (calls w ++ [ENrunH]) N L (self w)) as Hone.
  destruct (ENnextH_tstep (calls w ++ [ENrunH]) <=? 0).
  - split; [done|]. eexists. split; [done|]. by split.
  - set (w1 := mkWorld _ _ _).
    assert (HN1 : nodes (self w1) = Some N)
      by (subst w1; cbn [self]; by rewrite (app_nodes _ _ _ _ _ Hone)).
    assert (HL1 : links (self w1) = Some L)
      by (subst w1; cbn [self]; by rewrite (app_links _ _ _ _ _ Hone)).
    specialize (IH w1 N L HN1 HL1).
    change (calls w1) with ((calls w ++ [ENrunH]) ++ [ENnextH]) in IH.
    destruct (periods fuel _) as [hs|]; [|done].
    destruct IH as (_ & w' & Hrun & Happ & Hout).
    split; [done|]. exists w'. split; [done|]. split; [|done].
    by apply (appended_trans N L [_] hs _ _ _ Hone).
Qed.

(** [simulate]: the five arrays reset at the head of the method hold the
    rows of this run only; [nodeids] and [flowrate], which are not
    reset, keep what they held and gain the rows of this run. *)
Lemma simulate_spec (fuel : nat) (w : World) (N L : nat) :
  nodes (self w) = Some N -> links (self w) = Some L ->
  match periods fuel (calls w ++ [ENinitH EN_NOSAVE]) with
  | Some hs =>
      hs <> [] /\
      exists w',
        simulate fuel w =
          (Ok (pressure (self w'), velocity (self w'), lengths (self w'),
               sources (self w')), w') /\
        appended N L hs (reset_results (self w)) (self w') /\
        stdout w' = stdout w
  | None => fst (simulate fuel w) = OutOfFuel
  end.
Proof.
  intros HN HL. unfold simulate.
  rewrite bind_eq. cbn [en_call].
  rewrite bind_eq. cbn [update_self self calls stdout].
  rewrite bind_eq.
  pose proof (simulate_loop_spec fuel
    (mkWorld (reset_results (self w)) (calls w ++ [ENinitH EN_NOSAVE]) (stdout w))
    N L HN HL) as Hloop.
  cbn [calls self stdout] in Hloop.
  destruct (periods fuel _) as [hs|].
  - destruct Hloop as (Hne & w' & -> & Happ & Hout).
    split; [done|]. exists w'. by rewrite bind_eq.
  - by destruct (simulate_loop fuel _) as [[] ?].
Qed.

(** Nothing in hydraulic.py looks a key up in a dict. *)
Lemma range_of_never_KeyError (n : option nat) : never KeyError (range_of n).
Proof. destruct n; [apply never_ret | by apply never_raise]. Qed.

Lemma change_diameters_never_KeyError (ds : list Z) :
  never KeyError (change_diameters ds).
Proof.
  intros w. destruct (len_is_links (length ds) (links (self w))) eqn:Hlen.
  - by rewrite change_diameters_match.
  - by rewrite change_diameters_mismatch.
Qed.

Lemma simulate_loop_never_KeyError (fuel : nat) :
  never KeyError (simulate_loop fuel).
Proof.
  induction fuel as [|fuel IH]; [done|]. cbn [simulate_loop].
  repeat first
    [ apply never_bind; [|intros ?]
    | apply never_for_each; intros ? _
    | apply range_of_never_KeyError
    | apply never_ret
    | done ].
  by destruct (_ <=? _).
Qed.

Lemma simulate_never_KeyError (fuel : nat) : never KeyError (simulate fuel).
Proof.
  unfold simulate.
  repeat first
    [ apply never_bind; [|intros ?]
    | apply simulate_loop_never_KeyError
    | apply never_ret
    | done ].
Qed.

End facts.
End HydraulicFacts.

(** ** Rounding: the laws of the floating-point operations *)

Module FloatFacts.
Import Float.
Local Open Scope Q_scope.

Lemma two_neq_0 : ~ 2 == 0.
Proof. intros H. discriminate H. Qed.

Lemma pow2_pos (k : Z) : 0 < pow2 k.
Proof. by apply Qpower_0_lt. Qed.

Lemma pow2_add (a b : Z) : pow2 (a + b) == pow2 a * pow2 b.
Proof. apply Qpower_plus, two_neq_0. Qed.

Lemma pow2_0 : pow2 0 == 1.
Proof. reflexivity. Qed.

Lemma pow2_cancel (e : Z) : pow2 (- e) * pow2 e == 1.
Proof. rewrite <- pow2_add, Z.add_opp_diag_l. reflexivity. Qed.

Lemma pow2_lt (a b : Z) : (a < b)%Z -> pow2 a < pow2 b.
Proof. intros H. by apply Qpower_lt_compat_l. Qed.

Lemma pow2_le (a b : Z) : (a <= b)%Z -> pow2 a <= pow2 b.
Proof. intros H. by apply Qpower_le_compat_l. Qed.

Lemma pow2_lt_inv (a b : Z) : pow2 a < pow2 b -> (a < b)%Z.
Proof. intros H. by apply (Qpower_lt_compat_l_inv 2). Qed.

Lemma pow2_Z (k : Z) : (0 <= k)%Z -> pow2 k == inject_Z (2 ^ k).
Proof. intros H. unfold pow2. by rewrite Zpower_Qpower. Qed.

Lemma inject_Z_lt (a b : Z) : (a < b)%Z -> inject_Z a < inject_Z b.
Proof. by rewrite <- Zlt_Qlt. Qed.

Lemma inject_Z_le (a b : Z) : (a <= b)%Z -> inject_Z a <= inject_Z b.
Proof. by rewrite <- Zle_Qle. Qed.

Lemma log2_bounds (n : Z) :
  (0 < n)%Z -> pow2 (Z.log2 n) <= inject_Z n /\ inject_Z n < pow2 (Z.log2 n + 1).
Proof.
  intros Hn. destruct (Z.log2_spec n Hn) as [H1 H2].
  pose proof (Z.log2_nonneg n) as H0.
  rewrite !pow2_Z by lia. split; [by apply inject_Z_le | by apply inject_Z_lt].
Qed.

Lemma Qmake_mul (n : Z) (d : positive) : (n # d) * inject_Z (Zpos d) == inject_Z n.
Proof. unfold Qeq, Qmult, inject_Z. simpl. lia. Qed.

Lemma ilog2_spec (x : Q) :
  0 < x -> pow2 (ilog2 x) <= x /\ x < pow2 (ilog2 x + 1).
Proof.
  destruct x as [n d]. intros Hx.
  assert (Hn : (0 < n)%Z) by (unfold Qlt in Hx; simpl in Hx; lia).
  destruct (log2_bounds n Hn) as [Hn1 Hn2].
  destruct (log2_bounds (Zpos d) (Pos2Z.is_pos d)) as [Hd1 Hd2].
  pose proof (Qmake_mul n d) as Hnd.
  unfold ilog2. cbn [Qnum Qden].
  set (a := Z.log2 n) in *. set (b := Z.log2 (Z.pos d)) in *.
  set (N := inject_Z n) in *. set (D := inject_Z (Z.pos d)) in *.
  set (x := n # d) in *.
  assert (HD : 0 < D) by (eapply Qlt_le_trans; [apply (pow2_pos b) | done]).
  destruct (Qle_bool (pow2 (a - b)) x) eqn:Hc.
  - apply Qle_bool_iff in Hc. split; [done|].
    apply (Qmult_lt_r _ _ D HD). rewrite Hnd.
    eapply Qlt_le_trans; [exact Hn2|].
    replace (a + 1)%Z with ((a - b + 1) + b)%Z by lia. rewrite pow2_add.
    apply Qmult_le_l; [apply pow2_pos | done].
  - assert (Hlt : x < pow2 (a - b)).
    { apply Qnot_le_lt. intros H. apply Qle_bool_iff in H. congruence. }
    replace (a - b - 1 + 1)%Z with (a - b)%Z by lia. split; [|done].
    apply (Qmult_le_r _ _ D HD). rewrite Hnd.
    eapply Qle_trans; [|exact Hn1].
    replace a with ((a - b - 1) + (b + 1))%Z at 2 by lia. rewrite pow2_add.
    apply Qmult_le_l; [apply pow2_pos | by apply Qlt_le_weak].
Qed.

Lemma ilog2_unique (x : Q) (k : Z) :
  pow2 k <= x -> x < pow2 (k + 1) -> ilog2 x = k.
Proof.
  intros H1 H2.
  assert (Hx : 0 < x) by (eapply Qlt_le_trans; [apply (pow2_pos k) | done]).
  destruct (ilog2_spec x Hx) as [H3 H4].
  assert (ilog2 x < k + 1)%Z by (apply pow2_lt_inv; eapply Qle_lt_trans; eauto).
  assert (k < ilog2 x + 1)%Z by (apply pow2_lt_inv; eapply Qle_lt_trans; eauto).
  lia.
Qed.

Lemma ilog2_comp (x y : Q) : 0 < x -> x == y -> ilog2 x = ilog2 y.
Proof.
  intros Hx Hxy. destruct (ilog2_spec x Hx) as [H1 H2].
  symmetry. apply ilog2_unique; by rewrite <- Hxy.
Qed.


(** *** Rounding to the nearest integer, ties to even *)

Lemma rne_bounds (x : Q) : (Qfloor x <= rne x <= Qfloor x + 1)%Z.
Proof.
  unfold rne. destruct (_ ?= _); [destruct (Z.even _)| |]; lia.
Qed.

Lemma rne_Z (n : Z) : rne (inject_Z n) = n.
Proof.
  unfold rne. rewrite Qfloor_Z.
  destruct (Qcompare_spec (inject_Z n - inject_Z n) (1 # 2)) as [H|H|H];
    [exfalso; lra | done | exfalso; lra].
Qed.

Lemma rne_comp (x y : Q) : x == y -> rne x = rne y.
Proof.
  intros H. unfold rne. rewrite (Qfloor_comp x y H).
  assert (Hc : (x - inject_Z (Qfloor y) ?= 1 # 2) = (y - inject_Z (Qfloor y) ?= 1 # 2))
    by (by rewrite H).
  by rewrite Hc.
Qed.

Lemma rne_mono (x y : Q) : x <= y -> (rne x <= rne y)%Z.
Proof.
  intros Hxy. pose proof (Qfloor_resp_le x y Hxy) as Hf.
  destruct (Z.eq_dec (Qfloor x) (Qfloor y)) as [Heq|Hne].
  - unfold rne. rewrite Heq. set (f := inject_Z (Qfloor y)).
    destruct (Qcompare_spec (x - f) (1 # 2)) as [Hx|Hx|Hx];
      destruct (Qcompare_spec (y - f) (1 # 2)) as [Hy|Hy|Hy];
      try lia; try (exfalso; lra); destruct (Z.even _); lia.
  - pose proof (rne_bounds x). pose proof (rne_bounds y). lia.
Qed.

Lemma rne_le_Z (x : Q) (n : Z) : x <= inject_Z n -> (rne x <= n)%Z.
Proof. intros H. rewrite <- (rne_Z n). by apply rne_mono. Qed.

Lemma rne_ge_Z (x : Q) (n : Z) : inject_Z n <= x -> (n <= rne x)%Z.
Proof. intros H. rewrite <- (rne_Z n). by apply rne_mono. Qed.

(** *** The nearest double of a positive rational *)

Lemma ulp_exp_ge (x : Q) : (-1074 <= ulp_exp x)%Z.
Proof. unfold ulp_exp. lia. Qed.


Lemma ulp_exp_comp (x y : Q) : 0 < x -> x == y -> ulp_exp x = ulp_exp y.
Proof. intros Hx Hxy. unfold ulp_exp. by rewrite (ilog2_comp x y). Qed.

Lemma scaled_lt (x : Q) : 0 < x -> x * pow2 (- ulp_exp x) < pow2 53.
Proof.
  intros Hx. destruct (ilog2_spec x Hx) as [_ H].
  assert (Hle : pow2 (ilog2 x + 1) <= pow2 (53 + ulp_exp x))
    by (apply pow2_le; unfold ulp_exp; lia).
  rewrite (pow2_add 53) in Hle.
  pose proof (pow2_cancel (ulp_exp x)) as Hc.
  apply (Qmult_lt_r _ _ (pow2 (ulp_exp x))); [apply pow2_pos|].
  rewrite <- Qmult_assoc, Hc, Qmult_1_r.
  eapply Qlt_le_trans; [exact H | exact Hle].
Qed.


Lemma mantissa_bounds (x : Q) :
  0 < x -> (0 <= rne (x * pow2 (- ulp_exp x)) <= 2 ^ 53)%Z.
Proof.
  intros Hx. split.
  - apply rne_ge_Z. change (inject_Z 0) with 0.
    apply Qmult_le_0_compat; [by apply Qlt_le_weak | apply Qlt_le_weak, pow2_pos].
  - apply rne_le_Z. rewrite <- (pow2_Z 53) by lia. by apply Qlt_le_weak, scaled_lt.
Qed.

Lemma nearest_nonneg (x : Q) : 0 < x -> 0 <= nearest x.
Proof.
  intros Hx. unfold nearest.
  apply Qmult_le_0_compat; [|apply Qlt_le_weak, pow2_pos].
  change 0 with (inject_Z 0). apply inject_Z_le. by apply mantissa_bounds.
Qed.

Lemma nearest_comp (x y : Q) : 0 < x -> x == y -> nearest x == nearest y.
Proof.
  intros Hx Hxy. unfold nearest. rewrite (ulp_exp_comp x y Hx Hxy).
  rewrite (rne_comp (x * pow2 (- ulp_exp y)) (y * pow2 (- ulp_exp y))); [done|].
  by rewrite Hxy.
Qed.


Lemma nearest_exact (m e : Z) :
  (0 < m < 2 ^ 53)%Z -> (-1074 <= e)%Z ->
  nearest (inject_Z m * pow2 e) == inject_Z m * pow2 e.
Proof.
  intros Hm He. set (v := inject_Z m * pow2 e).
  assert (Hv : 0 < v).
  { apply Qmult_lt_0_compat; [|apply pow2_pos].
    change 0 with (inject_Z 0). apply inject_Z_lt. lia. }
  assert (Hlt : v < pow2 (e + 53)).
  { rewrite pow2_add, (Qmult_comm (pow2 e)).
    apply Qmult_lt_compat_r; [apply pow2_pos|].
    rewrite pow2_Z by lia. apply inject_Z_lt. lia. }
  destruct (ilog2_spec v Hv) as [Hlo _].
  assert (Hk : (ilog2 v < e + 53)%Z)
    by (apply pow2_lt_inv; by eapply Qle_lt_trans).
  assert (HE : (ulp_exp v <= e)%Z) by (unfold ulp_exp; lia).
  unfold nearest. set (E := ulp_exp v) in *.
  assert (Hs : v * pow2 (- E) == inject_Z (m * 2 ^ (e - E))).
  { unfold v. rewrite inject_Z_mult, <- pow2_Z by lia.
    rewrite <- Qmult_assoc, <- pow2_add.
    by replace (e + - E)%Z with (e - E)%Z by lia. }
  rewrite (rne_comp _ _ Hs), rne_Z, inject_Z_mult, <- pow2_Z by lia.
  rewrite <- Qmult_assoc, <- pow2_add.
  by replace (e - E + E)%Z with e by lia.
Qed.

Lemma nearest_repr (x : Q) :
  0 < x ->
  nearest x == 0 \/
  exists m e, (0 < m < 2 ^ 53)%Z /\ (-1074 <= e)%Z /\
              nearest x == inject_Z m * pow2 e.
Proof.
  intros Hx. destruct (mantissa_bounds x Hx) as [H0 H53].
  pose proof (ulp_exp_ge x) as HE.
  unfold nearest. set (E := ulp_exp x) in *. set (m := rne _) in *.
  destruct (Z.eq_dec m 0%Z) as [Hm0|Hm0]; [left; rewrite Hm0; ring|].
  right. destruct (Z.eq_dec m (2 ^ 53)%Z) as [Hm53|Hm53].
  - exists (2 ^ 52)%Z, (E + 1)%Z. split; [lia|]. split; [lia|].
    rewrite Hm53, pow2_add. change (pow2 1) with (inject_Z 2).
    change (2 ^ 53)%Z with (2 ^ 52 * 2)%Z. rewrite inject_Z_mult. ring.
  - exists m, E. split; [lia|]. by split.
Qed.

Lemma nearest_idem (x : Q) : 0 < x -> 0 < nearest x -> nearest (nearest x) == nearest x.
Proof.
  intros Hx Hn. destruct (nearest_repr x Hx) as [H0|(m & e & Hm & He & Hv)].
  - rewrite H0 in Hn. by apply Qlt_irrefl in Hn.
  - rewrite (nearest_comp _ _ Hn Hv), Hv. by apply nearest_exact.
Qed.

(** *** Rounding a rational to a double *)

Lemma round_pos_comp (x y : Q) : 0 < x -> x == y -> round_pos x = round_pos y.
Proof.
  intros Hx Hxy. unfold round_pos. pose proof (nearest_comp x y Hx Hxy) as Hn.
  rewrite (Qred_complete _ _ Hn).
  assert (Hb : Qle_bool (pow2 1024) (nearest x) = Qle_bool (pow2 1024) (nearest y))
    by (by rewrite Hn).
  by rewrite Hb.
Qed.

Lemma round_0 (x : Q) : x == 0 -> round x = Fin 0.
Proof. intros H. unfold round. apply Qeq_alt in H. by rewrite H. Qed.

Lemma round_gt (x : Q) : 0 < x -> round x = round_pos x.
Proof. intros H. unfold round. apply Qgt_alt in H. by rewrite H. Qed.

Lemma round_comp (x y : Q) : 0 <= x -> x == y -> round x = round y.
Proof.
  intros Hx Hxy. destruct (Qle_lt_or_eq _ _ Hx) as [Hpos|Hz].
  - rewrite !round_gt by (by rewrite <- ?Hxy). by apply round_pos_comp.
  - rewrite !round_0; [done | by rewrite <- Hxy, <- Hz | by rewrite <- Hz].
Qed.





Lemma round_idem (x v : Q) : 0 <= x -> round x = Fin v -> round v = Fin v.
Proof.
  intros Hx. destruct (Qle_lt_or_eq _ _ Hx) as [Hpos|Hz].
  - rewrite round_gt by done. unfold round_pos.
    destruct (Qle_bool (pow2 1024) (nearest x)) eqn:Ho; [done|]. intros [= <-].
    destruct (Qle_lt_or_eq _ _ (nearest_nonneg x Hpos)) as [Hn|Hn].
    + assert (Hv : 0 < Qred (nearest x)) by (by rewrite Qred_correct).
      rewrite round_gt by done. unfold round_pos.
      assert (Hnn : nearest (Qred (nearest x)) == nearest x).
      { rewrite (nearest_comp _ (nearest x) Hv) by apply Qred_correct.
        by apply nearest_idem. }
      assert (Hb : Qle_bool (pow2 1024) (nearest (Qred (nearest x))) =
                   Qle_bool (pow2 1024) (nearest x)) by (by rewrite Hnn).
      rewrite Hb, Ho. f_equal. by apply Qred_complete.
    + assert (Hq : Qred (nearest x) = 0)
        by (rewrite (Qred_complete (nearest x) 0); [done | by symmetry]).
      rewrite Hq. by apply round_0.
  - rewrite round_0 by done. intros [= <-]. by apply round_0.
Qed.

Lemma round_canonical (x : Q) : 0 <= x -> canonical (round x).
Proof.
  intros Hx. destruct (round x) as [v| |] eqn:Hr; [|done..].
  by apply (round_idem x).
Qed.

Lemma Qred_inject_Z (n : Z) : Qred (inject_Z n) = inject_Z n.
Proof.
  unfold Qred, inject_Z.
  pose proof (Z.ggcd_correct_divisors n 1) as H. pose proof (Z.ggcd_gcd n 1) as Hg.
  destruct (Z.ggcd n 1) as [g [aa bb]]. cbn [fst snd] in *. destruct H as [H1 H2].
  rewrite Z.gcd_1_r in Hg. subst g.
  assert (bb = 1%Z) as -> by lia. assert (aa = n) as -> by lia. reflexivity.
Qed.

(** A natural number below [2 ^ 53] is a double. *)
Lemma round_small_Z (n : Z) :
  (0 <= n < 2 ^ 53)%Z -> round (inject_Z n) = Fin (inject_Z n).
Proof.
  intros Hn. destruct (Z.eq_dec n 0%Z) as [->|Hn0]; [done|].
  assert (Hpos : 0 < inject_Z n) by (change 0 with (inject_Z 0); apply inject_Z_lt; lia).
  rewrite round_gt by done. unfold round_pos.
  assert (He : nearest (inject_Z n) == inject_Z n).
  { rewrite (nearest_comp _ (inject_Z n * pow2 0) Hpos) by (rewrite pow2_0; ring).
    rewrite nearest_exact by lia. rewrite pow2_0. ring. }
  assert (Hb : Qle_bool (pow2 1024) (nearest (inject_Z n)) = false).
  { apply not_true_is_false. intros H. apply Qle_bool_iff in H. rewrite He in H.
    rewrite (pow2_Z 1024) in H by lia. rewrite <- Zle_Qle in H.
    assert (2 ^ 53 < 2 ^ 1024)%Z by (apply Z.pow_lt_mono_r; lia). lia. }
  rewrite Hb. f_equal. rewrite (Qred_complete _ _ He). apply Qred_inject_Z.
Qed.

(** *** The order on doubles *)

Lemma nonneg_inv (a : float) :
  nonneg a -> (exists x, a = Fin x /\ 0 <= x) \/ a = Inf false.
Proof.
  unfold nonneg. destruct a as [x|[]|]; cbn [leb negb]; try done.
  - intros H. left. exists x. split; [done | by apply Qle_bool_iff].
  - by right.
Qed.


Lemma le_Fin (x y : Q) : le (Fin x) (Fin y) <-> x <= y.
Proof. apply Qle_bool_iff. Qed.

Lemma le_refl (a : float) : a <> NaN -> le a a.
Proof.
  destruct a as [x|[]|]; try done. intros _. apply le_Fin, Qle_refl.
Qed.




Lemma add_canonical (a b : float) : nonneg a -> nonneg b -> canonical (add a b).
Proof.
  intros Ha Hb.
  destruct (nonneg_inv a Ha) as [(x & -> & Hx)| ->];
    destruct (nonneg_inv b Hb) as [(y & -> & Hy)| ->]; try done.
  cbn [add]. apply round_canonical.
  change 0 with (0 + 0). by apply Qplus_le_compat.
Qed.










Lemma add_0_l (a : float) : nonneg a -> canonical a -> add (Fin 0) a = a.
Proof.
  intros Ha Hc. destruct (nonneg_inv a Ha) as [(x & -> & Hx)| ->]; [|done].
  cbn [add canonical] in *. rewrite <- Hc. apply round_comp.
  - by rewrite Qplus_0_l.
  - apply Qplus_0_l.
Qed.

End FloatFacts.

(** *** network_cost *)

Module ObjfunFacts.
Import Hydraulic SimSpec Objfun HydraulicFacts.

Lemma Qlt_bool_iff (x y : Q) : Qlt_bool x y = true <-> (x < y)%Q.
Proof.
  unfold Qlt_bool. rewrite negb_true_iff, <- not_true_iff_false, Qle_bool_iff.
  split; [apply Qnot_le_lt | apply Qlt_not_le].
Qed.

(** [outside lo hi x] reads: [x] is strictly below [lo] or strictly
    above [hi]. *)
Lemma outside_iff (lo hi x : Q) :
  outside lo hi x = true <-> (x < lo)%Q \/ (hi < x)%Q.
Proof. unfold outside. by rewrite orb_true_iff, !Qlt_bool_iff. Qed.

Lemma pressure_violated_iff (o : Options) (s : Z) (p : Q) :
  pressure_violated o (s, p) = true <->
  s = 0 /\ ((p < hmin o)%Q \/ (hmax o < p)%Q).
Proof.
  unfold pressure_violated. simpl.
  by rewrite andb_true_iff, Z.eqb_eq, outside_iff.
Qed.

Lemma velocity_violated_iff (o : Options) (v : Q) :
  velocity_violated o v = true <-> (v < vmin o)%Q \/ (vmax o < v)%Q.
Proof. apply outside_iff. Qed.

Lemma foldl_count {A} (f : A -> bool) (l : list A) (k : nat) :
  foldl (fun k x => if f x then S k else k) k l = (k + count_true f l)%nat.
Proof.
  revert k. induction l as [|x l IH]; intros k; simpl; [lia|].
  rewrite IH. destruct (f x); lia.
Qed.

(** *** Python arithmetic *)

Lemma float_of_int_0 : float_of_int 0 = Ok (Float.Fin 0).
Proof. reflexivity. Qed.

Lemma float_of_int_1 : float_of_int 1 = Ok (Float.Fin 1).
Proof. by vm_compute. Qed.

Lemma float_of_int_cases (z : Z) :
  (exists x, float_of_int z = Ok x) \/ float_of_int z = Raise OverflowError.
Proof. unfold float_of_int. destruct (Float.round _); eauto. Qed.

Lemma to_float_cases (a : pynum) :
  (exists x, to_float a = Ok x) \/ to_float a = Raise OverflowError.
Proof. destruct a; [apply float_of_int_cases | left; by eexists]. Qed.

Lemma py_add_cases (a b : pynum) :
  (exists c, py_add a b = Ok c) \/ py_add a b = Raise OverflowError.
Proof.
  destruct (to_float_cases a) as [[x Ha]|Ha], (to_float_cases b) as [[y Hb]|Hb];
    destruct a, b; cbn [py_add to_float] in *; rewrite ?Ha, ?Hb; cbn [obind]; eauto.
Qed.

Lemma py_mul_cases (a b : pynum) :
  (exists c, py_mul a b = Ok c) \/ py_mul a b = Raise OverflowError.
Proof.
  destruct (to_float_cases a) as [[x Ha]|Ha], (to_float_cases b) as [[y Hb]|Hb];
    destruct a, b; cbn [py_mul to_float] in *; rewrite ?Ha, ?Hb; cbn [obind]; eauto.
Qed.



(** *** The penalty multipliers *)

Lemma penalty_0 (o : Options) : penalty o 0 = PyInt 1.
Proof. unfold penalty. by destruct (penalty_step o). Qed.

Lemma penalty_S (o : Options) (k : nat) :
  py_add (penalty o k) (penalty_step o) = Ok (penalty o (S k)).
Proof.
  unfold penalty. destruct (penalty_step o) as [s|s].
  - cbn [py_add]. do 2 f_equal. rewrite Nat2Z.inj_succ. ring.
  - destruct k as [|k]; cbn [py_add to_float obind].
    + by rewrite float_of_int_1.
    + done.
Qed.

Lemma penalty_int (o : Options) (s : Z) (k : nat) :
  penalty_step o = PyInt s -> penalty o k = PyInt (1 + Z.of_nat k * s).
Proof. intros Hs. unfold penalty. by rewrite Hs. Qed.



(** *** The cost of one pipe and the sum *)

Lemma pipe_cost_cases (u : Z) (l : Q) (pV pH : pynum) :
  (exists c, pipe_cost u l pV pH = Ok c) \/ pipe_cost u l pV pH = Raise OverflowError.
Proof.
  unfold pipe_cost.
  destruct (float_of_int_cases u) as [[fu ->]| ->]; [|by right].
  destruct (to_float_cases pV) as [[fV ->]| ->]; [|by right].
  destruct (to_float_cases pH) as [[fH ->]| ->]; [|by right].
  left. by eexists.
Qed.

Lemma pipe_cost_converts (u : Z) (l : Q) (pV pH : pynum) :
  converts (PyInt u) -> converts pV -> converts pH ->
  exists c, pipe_cost u l pV pH = Ok c.
Proof.
  intros [fu Hu] [fV HV] [fH HH]. unfold pipe_cost. cbn [to_float] in Hu.
  rewrite Hu, HV, HH. by eexists.
Qed.

(** The three products of the source are the product of [pipe_cost]. *)
Lemma cost_step_eq (prices : gmap Z Z) (pV pH : pynum) (dl : Z * Q) (cost : pynum) :
  cost_step prices pV pH dl cost =
  obind (pipe_cost (price_of prices dl.1) dl.2 pV pH) (fun c => py_add cost (PyFloat c)).
Proof.
  unfold cost_step, pipe_cost. cbn [py_mul to_float obind].
  destruct (float_of_int _) as [fu| |]; cbn [obind]; [|done..].
  destruct pV as [zV|xV]; cbn [py_mul to_float obind].
  - destruct (float_of_int zV) as [fV| |]; cbn [obind]; [|done..].
    destruct pH as [zH|xH]; cbn [py_mul to_float obind]; [|done].
    by destruct (float_of_int zH).
  - destruct pH as [zH|xH]; cbn [py_mul to_float obind]; [|done].
    by destruct (float_of_int zH).
Qed.


Lemma cost_loop_float (prices : gmap Z Z) (pV pH : pynum) (dls : list (Z * Q)) :
  forall a : Float.float,
    ofold dls (PyFloat a) (cost_step prices pV pH) =
    obind (list_comp (fun dl : Z * Q => pipe_cost (price_of prices dl.1) dl.2 pV pH) dls)
          (fun cs => Ok (PyFloat (foldl Float.add a cs))).
Proof.
  induction dls as [|dl dls IH]; intros a; [done|].
  cbn [ofold list_comp]. rewrite cost_step_eq.
  destruct (pipe_cost _ _ _ _) as [c| |]; cbn [obind py_add to_float]; [|done..].
  rewrite IH. by destruct (list_comp _ _).
Qed.

Lemma cost_loop (prices : gmap Z Z) (pV pH : pynum) (ds : list Z) (lens : list Q) :
  ofold (zip ds lens) (PyInt 0) (cost_step prices pV pH) =
  cost_formula prices ds lens pV pH.
Proof.
  unfold cost_formula. destruct (zip ds lens) as [|dl dls]; [done|].
  cbn [ofold list_comp]. rewrite cost_step_eq.
  destruct (pipe_cost _ _ _ _) as [c| |]; cbn [obind py_add to_float]; [|done..].
  rewrite float_of_int_0. cbn [obind]. rewrite cost_loop_float.
  by destruct (list_comp _ _).
Qed.

Lemma cost_formula_cases (prices : gmap Z Z) (ds : list Z) (lens : list Q)
    (pV pH : pynum) :
  (exists c, cost_formula prices ds lens pV pH = Ok c) \/
  cost_formula prices ds lens pV pH = Raise OverflowError.
Proof.
  unfold cost_formula. induction (zip ds lens) as [|dl dls IH]; [left; by eexists|].
  cbn [list_comp].
  destruct (pipe_cost_cases (price_of prices dl.1) dl.2 pV pH) as [[c ->]| ->];
    [|by right].
  cbn [obind]. destruct (list_comp _ dls) as [cs| |]; cbn [obind] in *.
  - left. by eexists.
  - destruct IH as [[c' IH]|IH]; [done | by right].
  - destruct IH as [[c' IH]|IH]; done.
Qed.

Lemma cost_formula_converts (prices : gmap Z Z) (ds : list Z) (lens : list Q)
    (pV pH : pynum) :
  Forall (fun d => converts (PyInt (price_of prices d))) ds ->
  converts pV -> converts pH ->
  exists c, cost_formula prices ds lens pV pH = Ok c.
Proof.
  intros Hds HV HH. unfold cost_formula.
  destruct (list_comp_total
              (fun dl : Z * Q => pipe_cost (price_of prices dl.1) dl.2 pV pH)
              (zip ds lens)) as [cs ->]; [|by eexists].
  apply Forall_forall. intros [d l] Hin. cbn [fst snd].
  apply pipe_cost_converts; [|done..].
  rewrite Forall_forall in Hds. apply Hds.
  apply elem_of_zip_l in Hin. done.
Qed.

Section facts.
Context `{Env}.

Lemma simulate_Ok_inv (fuel : nat) (w w2 : World) (N L : nat)
    (r : list Q * list Q * list Q * list Z) :
  nodes (self w) = Some N -> links (self w) = Some L ->
  simulate fuel w = (Ok r, w2) ->
  exists hs, hs <> [] /\
    periods fuel (calls w ++ [ENinitH EN_NOSAVE]) = Some hs /\
    appended N L hs (reset_results (self w)) (self w2) /\
    stdout w2 = stdout w.
Proof.
  intros HN HL Hsim. pose proof (simulate_spec fuel w N L HN HL) as Hspec.
  destruct (periods fuel _) as [hs|].
  - destruct Hspec as (Hne & w' & Hrun & Happ & Hout).
    rewrite Hrun in Hsim. injection Hsim as _ <-. by exists hs.
  - by rewrite Hsim in Hspec.
Qed.

(** After a run that returned, the arrays are long enough for the
    position-indexed reads of [network_cost]. *)
Lemma simulate_Ok_lengths (fuel : nat) (w w2 : World) (N L : nat)
    (r : list Q * list Q * list Q * list Z) :
  nodes (self w) = Some N -> links (self w) = Some L ->
  simulate fuel w = (Ok r, w2) ->
  nodes (self w2) = Some N /\ links (self w2) = Some L /\
  (N <= length (zip (sources (self w2)) (pressure (self w2))))%nat /\
  (L <= length (velocity (self w2)))%nat /\
  (L <= length (lengths (self w2)))%nat.
Proof.
  intros HN HL Hsim.
  destruct (simulate_Ok_inv fuel w w2 N L r HN HL Hsim) as (hs & Hne & _ & Happ & _).
  destruct Happ as [_ _ _ Hn Hl _ Hs Hp Hv Hle _ _]. simpl in *.
  assert (1 <= length hs)%nat by (destruct hs; [done | simpl; lia]).
  repeat split; try congruence.
  - rewrite length_zip_with, Hs, Hp, !rows_length. nia.
  - rewrite Hv, rows_length. nia.
  - rewrite Hle, rows_length. nia.
Qed.

Lemma pH_body (o : Options) (n : Network) (i : nat) (x : Z * Q) (k : nat) (w : World) :
  zip (sources n) (pressure n) !! i = Some x ->
  (s ← lift (py_getitem (sources n) (Z.of_nat i));
   if s =? 0
   then p ← lift (py_getitem (pressure n) (Z.of_nat i));
        if outside (hmin o) (hmax o) p
        then lift (py_add (penalty o k) (penalty_step o))
        else mret (penalty o k)
   else mret (penalty o k)) w = (Ok (penalty o (pH_step o k x)), w).
Proof.
  intros Hx. apply lookup_zip_with_Some in Hx as (s & p & -> & Hs & Hp).
  rewrite bind_eq. unfold lift at 1. rewrite (py_getitem_nat _ _ _ Hs).
  unfold pH_step, pressure_violated. simpl.
  destruct (s =? 0); [|done].
  rewrite bind_eq. unfold lift at 1. rewrite (py_getitem_nat _ _ _ Hp). simpl.
  destruct (outside _ _ _); [|done]. unfold lift. by rewrite penalty_S.
Qed.

Lemma pV_body (o : Options) (n : Network) (i : nat) (v : Q) (k : nat) (w : World) :
  velocity n !! i = Some v ->
  (v ← lift (py_getitem (velocity n) (Z.of_nat i));
   if outside (vmin o) (vmax o) v
   then lift (py_add (penalty o k) (penalty_step o))
   else mret (penalty o k)) w = (Ok (penalty o (pV_step o k v)), w).
Proof.
  intros Hv. rewrite bind_eq. unfold lift at 1. rewrite (py_getitem_nat _ _ _ Hv).
  unfold pV_step, velocity_violated. destruct (outside _ _ _); [|done].
  unfold lift. by rewrite penalty_S.
Qed.

Lemma cost_body (prices : gmap Z Z) (ds : list Z) (n : Network) (pV pH : pynum)
    (i : nat) (x : Z * Q) (acc : pynum) (w : World) :
  Forall (fun d => is_Some (prices !! d)) ds ->
  zip ds (lengths n) !! i = Some x ->
  (d ← lift (py_getitem ds (Z.of_nat i));
   u ← lift (dict_getitem prices d);
   l ← lift (py_getitem (lengths n) (Z.of_nat i));
   ul ← lift (py_mul (PyInt u) (PyFloat (Float.Fin l)));
   ulV ← lift (py_mul ul pV);
   c ← lift (py_mul ulV pH);
   lift (py_add acc c)) w = (cost_step prices pV pH x acc, w).
Proof.
  intros Hkeys Hx. apply lookup_zip_with_Some in Hx as (d & l & -> & Hd & Hl).
  rewrite Forall_forall in Hkeys.
  destruct (Hkeys d) as [u Hu]; [apply list_elem_of_lookup; eauto|].
  rewrite lift_bind, (py_getitem_nat _ _ _ Hd).
  rewrite lift_bind. unfold dict_getitem. rewrite Hu.
  rewrite lift_bind, (py_getitem_nat _ _ _ Hl).
  unfold cost_step, price_of. cbn [fst snd]. rewrite Hu. cbn [default id from_option].
  rewrite lift_bind. destruct (py_mul (PyInt u) _) as [ul| |]; cbn [obind]; [|done..].
  rewrite lift_bind. destruct (py_mul ul pV) as [ulV| |]; cbn [obind]; [|done..].
  rewrite lift_bind. by destruct (py_mul ulV pH) as [c| |].
Qed.

(** What [network_cost] returns, or how it fails, once the simulation
    has returned. *)
Lemma network_cost_eval (fuel : nat) (ds : list Z) (prices : gmap Z Z)
    (o : Options) (w w2 : World) (N L : nat)
    (r : list Q * list Q * list Q * list Z) :
  nodes (self w) = Some N -> links (self w) = Some L ->
  len_is_links (length ds) (Some L) = true ->
  Forall (fun d => is_Some (prices !! d)) ds ->
  simulate fuel (snd (change_diameters ds w)) = (Ok r, w2) ->
  network_cost fuel ds prices o w =
  (cost_formula prices ds (lengths (self w2))
     (penalty o (velocity_violations o L (self w2)))
     (penalty o (pressure_violations o N (self w2))), w2).
Proof.
  intros HN HL Hlen Hkeys Hsim.
  rewrite <- HL in Hlen.
  rewrite (change_diameters_match ds w Hlen) in Hsim. cbn [snd] in Hsim.
  destruct (simulate_Ok_lengths fuel (mkWorld (self w) _ (stdout w)) w2 N L r
              HN HL Hsim) as (HN2 & HL2 & HlenP & HlenV & HlenL).
  unfold network_cost.
  rewrite bind_eq, (change_diameters_match ds w Hlen).
  rewrite bind_eq, Hsim.
  rewrite bind_eq. cbn [get_self].
  rewrite bind_eq. rewrite HN2. cbn [range_of mret SM_ret].
  rewrite bind_eq. rewrite <- (penalty_0 o). unfold range.
  rewrite (for_fold_seq_image (zip (sources (self w2)) (pressure (self w2)))
             (penalty o) (pH_step o)) by (auto using pH_body || (cbn; lia)).
  rewrite bind_eq, HL2. cbn [range_of mret SM_ret].
  rewrite bind_eq. unfold range.
  rewrite (for_fold_seq_image (velocity (self w2)) (penalty o) (pV_step o))
    by (auto using pV_body || (cbn; lia)).
  rewrite !drop_0. unfold pH_step, pV_step. rewrite !foldl_count. cbn [Nat.add].
  fold (pressure_violations o N (self w2)). fold (velocity_violations o L (self w2)).
  rewrite HL in Hlen. apply len_is_links_true in Hlen as [Hlen _].
  rewrite (for_fold_seq_pure (zip ds (lengths (self w2)))
             (cost_step prices (penalty o (velocity_violations o L (self w2)))
                (penalty o (pressure_violations o N (self w2))))).
  - rewrite drop_0, take_ge by (rewrite length_zip_with; lia).
    by rewrite cost_loop.
  - intros i x acc w' Hx. by apply cost_body.
  - rewrite length_zip_with. lia.
Qed.

End facts.

Section claim.
Context `{Env}.

(** C1, amended. When the network is initialised, the number of
    diameters passes the dimension check, every diameter is a key of the
    price table and the simulation returns, [network_cost] ends in the
    state the simulation left and its result is [cost_formula]: the sum,
    accumulated from [0] from left to right, of the products
    [unitPrice[d_i] * length_i * pV * pH] over the arrays the simulation
    produced, every product and every addition being rounded to the
    nearest double. It is a number unless an [int] among the unit
    prices and the multipliers is beyond the range of the doubles, in
    which case it is [OverflowError]. [pH] and [pV] start at the [int]
    [1] and the penalty step is added to them once for each non-source
    node with pressure [< hmin] or [> hmax], respectively each pipe with
    velocity [< vmin] or [> vmax]. The defaults are hmin = 30,
    hmax = 100, vmin = 0.25, vmax = 2.5 and penalty_step = 1. *)
Theorem network_cost_formula (fuel : nat) (ds : list Z) (prices : gmap Z Z)
    (o : Options) (w w2 : World) (N L : nat)
    (r : list Q * list Q * list Q * list Z) :
  nodes (self w) = Some N -> links (self w) = Some L ->
  len_is_links (length ds) (Some L) = true ->
  Forall (fun d => is_Some (prices !! d)) ds ->
  simulate fuel (snd (change_diameters ds w)) = (Ok r, w2) ->
  let pV := penalty o (velocity_violations o L (self w2)) in
  let pH := penalty o (pressure_violations o N (self w2)) in
  network_cost fuel ds prices o w =
    (cost_formula prices ds (lengths (self w2)) pV pH, w2) /\
  ((exists c, cost_formula prices ds (lengths (self w2)) pV pH = Ok c) \/
   cost_formula prices ds (lengths (self w2)) pV pH = Raise OverflowError) /\
  (Forall (fun d => converts (PyInt (price_of prices d))) ds ->
   converts pV -> converts pH ->
   exists c, cost_formula prices ds (lengths (self w2)) pV pH = Ok c) /\
  penalty o 0 = PyInt 1 /\
  (forall k, py_add (penalty o k) (penalty_step o) = Ok (penalty o (S k))) /\
  default_options = mkOptions 30 100 (1 # 4) (5 # 2) (PyInt 1).
Proof.
  intros HN HL Hlen Hkeys Hsim pV pH.
  split; [by eapply network_cost_eval|].
  split; [apply cost_formula_cases|].
  split; [apply cost_formula_converts|].
  split; [apply penalty_0|].
  split; [apply penalty_S | done].
Qed.

End claim.

(** *** The lower bound on the cost *)










Section bound.
Context `{Env}.


End bound.

Lemma network_cost_formula_witness :
  let w2 := snd Fixtures2.two_run in
  let pV := penalty default_options (velocity_violations default_options 2 (self w2)) in
  let pH := penalty default_options (pressure_violations default_options 2 (self w2)) in
  Fixtures2.two_priced =
    (cost_formula Fixtures.two_loop_prices [51; 25] (lengths (self w2)) pV pH, w2) /\
  ((exists c, cost_formula Fixtures.two_loop_prices [51; 25] (lengths (self w2)) pV pH
              = Ok c) \/
   cost_formula Fixtures.two_loop_prices [51; 25] (lengths (self w2)) pV pH
   = Raise OverflowError) /\
  (Forall (fun d => converts (PyInt (price_of Fixtures.two_loop_prices d))) [51; 25] ->
   converts pV -> converts pH ->
   exists c, cost_formula Fixtures.two_loop_prices [51; 25] (lengths (self w2)) pV pH
             = Ok c) /\
  penalty default_options 0 = PyInt 1 /\
  (forall k, py_add (penalty default_options k) (penalty_step default_options)
             = Ok (penalty default_options (S k))) /\
  default_options = mkOptions 30 100 (1 # 4) (5 # 2) (PyInt 1).
Proof.
  apply (@network_cost_formula Fixtures2.two_pipes 3 [51; 25]
           Fixtures.two_loop_prices default_options Fixtures2.two_opened
           (snd Fixtures2.two_run) 2 2 Fixtures2.two_result).
  - reflexivity.
  - reflexivity.
  - reflexivity.
  - repeat constructor; vm_compute; eauto.
  - vm_compute. reflexivity.
Defined.

(** C1 as stated fails. On the two-pipe network, with the default
    options, both pipes run too fast, so [pV = 3] and [pH = 1]; the cost
    returned, 16836.3, is below [(Σ_i unitPrice[d_i] * length_i) * pV * pH]
    both when the latter is evaluated in floating point
    (16836.300000000003) and when it is evaluated exactly. *)
Lemma network_cost_not_factored :
  exists (c f : Q) (w2 : World),
    Fixtures2.two_priced = (Ok (PyFloat (Float.Fin c)), w2) /\
    penalty default_options (velocity_violations default_options 2 (self w2)) = PyInt 3 /\
    penalty default_options (pressure_violations default_options 2 (self w2)) = PyInt 1 /\
    factored_cost Fixtures.two_loop_prices [51; 25] (lengths (self w2))
      (Float.Fin 3) (Float.Fin 1) = Float.Fin f /\
    (c < f)%Q /\
    (c < material_cost Fixtures.two_loop_prices [51%Z; 25%Z] (lengths (self w2)) * 3 * 1)%Q.
Proof.
  eexists _, _, _. split; [vm_compute; reflexivity|].
  split; [by vm_compute|]. split; [by vm_compute|].
  split; [vm_compute; reflexivity|]. split; by vm_compute.
Qed.

(** *** The price lookup *)

Lemma py_add_not_KeyError (a b : pynum) : py_add a b <> Raise KeyError.
Proof. destruct (py_add_cases a b) as [[c ->]| ->]; done. Qed.

Lemma py_mul_not_KeyError (a b : pynum) : py_mul a b <> Raise KeyError.
Proof. destruct (py_mul_cases a b) as [[c ->]| ->]; done. Qed.

Section lookup.
Context `{Env}.

Lemma network_cost_never_KeyError (fuel : nat) (ds : list Z)
    (prices : gmap Z Z) (o : Options) :
  Forall (fun d => is_Some (prices !! d)) ds ->
  never KeyError (network_cost fuel ds prices o).
Proof.
  intros Hkeys. unfold network_cost.
  apply never_bind; [apply change_diameters_never_KeyError|intros _].
  apply never_bind; [apply simulate_never_KeyError|intros _].
  apply never_bind; [done|intros network].
  apply never_bind; [apply range_of_never_KeyError|intros rn].
  apply never_bind.
  { apply never_for_fold. intros i acc _.
    apply never_bind; [apply never_lift, py_getitem_not_KeyError|intros s].
    destruct (s =? 0); [|apply never_ret].
    apply never_bind; [apply never_lift, py_getitem_not_KeyError|intros p].
    destruct (outside _ _ _); [apply never_lift, py_add_not_KeyError | apply never_ret]. }
  intros pH.
  apply never_bind; [apply range_of_never_KeyError|intros rl].
  apply never_bind.
  { apply never_for_fold. intros i acc _.
    apply never_bind; [apply never_lift, py_getitem_not_KeyError|intros v].
    destruct (outside _ _ _); [apply never_lift, py_add_not_KeyError | apply never_ret]. }
  intros pV.
  apply never_for_fold. intros i acc _ w.
  apply never_bind_strong; [apply never_lift, py_getitem_not_KeyError|].
  intros d w' Hd. unfold lift in Hd. injection Hd as Hd _.
  apply py_getitem_elem in Hd. rewrite Forall_forall in Hkeys.
  destruct (Hkeys d Hd) as [u Hu].
  apply never_bind; [|intros u'].
  - apply never_lift. unfold dict_getitem. by rewrite Hu.
  - apply never_bind; [apply never_lift, py_getitem_not_KeyError|intros l].
    apply never_bind; [apply never_lift, py_mul_not_KeyError|intros ul].
    apply never_bind; [apply never_lift, py_mul_not_KeyError|intros ulV].
    apply never_bind; [apply never_lift, py_mul_not_KeyError|intros c].
    apply never_lift, py_add_not_KeyError.
Qed.

End lookup.

(** C10. When every index lies in [[0, |catalog|)], [index2diam] returns
    a list of diameters each of which is a key of the catalog; hence
    neither [network_cost] on that list nor [network_diameters] on the
    index list ever raises [KeyError], whatever the engine, the options
    and the state of the network object. *)
Theorem index2diam_keys_of_catalog (prices : gmap Z Z) (idx : list Z) :
  Forall (fun x => 0 <= x < Z.of_nat (size prices)) idx ->
  exists ds, Catalog.index2diam idx prices = Ok ds /\
    Forall (fun d => is_Some (prices !! d)) ds /\
    forall (E : Env) (fuel : nat) (w : World),
      (forall o, fst (network_cost fuel ds prices o w) <> Raise KeyError) /\
      fst (network_diameters fuel idx prices w) <> Raise KeyError.
Proof.
  intros Hidx. destruct (index2diam_in_range idx prices) as [ds Hds].
  { eapply Forall_impl; [exact Hidx|]. simpl. lia. }
  pose proof (index2diam_keys idx prices ds Hds) as Hkeys.
  exists ds. split; [done|]. split; [done|].
  intros E fuel w. split.
  - intros o. by apply network_cost_never_KeyError.
  - unfold network_diameters. rewrite bind_eq. unfold lift. rewrite Hds.
    by apply network_cost_never_KeyError.
Qed.

Lemma index2diam_keys_of_catalog_witness :
  exists ds, Catalog.index2diam [3; 0; 1] Fixtures.two_loop_prices = Ok ds /\
    Forall (fun d => is_Some (Fixtures.two_loop_prices !! d)) ds /\
    forall (E : Env) (fuel : nat) (w : World),
      (forall o, fst (network_cost fuel ds Fixtures.two_loop_prices o w)
                 <> Raise KeyError) /\
      fst (network_diameters fuel [3; 0; 1] Fixtures.two_loop_prices w)
      <> Raise KeyError.
Proof.
  apply (index2diam_keys_of_catalog Fixtures.two_loop_prices [3; 0; 1]).
  repeat constructor; vm_compute; congruence.
Defined.




(** Nor does equality show that no constraint is violated: with a
    penalty step of [2 ^ -60] the multiplier [1 + 2 ^ -60] rounds to
    [1], and the cheapest diameter costs exactly the bound although the
    pressure constraint is violated. *)
Example violation_at_the_bound :
  exists (c : pynum) (w2 : World),
    Fixtures2.cheapest_tiny = (Ok c, w2) /\
    pressure_violations Fixtures2.tiny_step 2 (self w2) = 1%nat /\
    value c = lower_bound 2 1 (lengths (self w2)).
Proof.
  eexists _, _. split; [vm_compute; reflexivity|]. split; by vm_compute.
Qed.

End ObjfunFacts.

(** ** The network object: what its methods do to the world *)

Module NetworkFacts.
Import Hydraulic SimSpec HydraulicFacts.

Section facts.
Context `{Env}.

(** C2 (the code departs from it). After a call of [simulate] that
    returns, [pressure], [sources], [velocity], [lengths] and [diameters]
    hold exactly the rows of this call, whereas [nodeids] and [flowrate]
    hold everything they held before the call followed by the rows of
    this call: these two arrays are appended to but never reset. *)
Theorem simulate_resets_five_of_seven (fuel : nat) (w w2 : World) (N L : nat)
    (r : list Q * list Q * list Q * list Z) :
  nodes (self w) = Some N -> links (self w) = Some L ->
  simulate fuel w = (Ok r, w2) ->
  exists hs, hs <> [] /\
    periods fuel (calls w ++ [ENinitH EN_NOSAVE]) = Some hs /\
    pressure (self w2) = rows (fun h i => ENgetnodevalue h i EN_PRESSURE) N hs /\
    sources (self w2) = rows ENgetnodetype N hs /\
    velocity (self w2) = rows (fun h i => ENgetlinkvalue h i EN_VELOCITY) L hs /\
    lengths (self w2) = rows (fun h i => ENgetlinkvalue h i EN_LENGTH) L hs /\
    diameters (self w2) = rows (fun h i => ENgetlinkvalue h i EN_DIAMETER) L hs /\
    nodeids (self w2) = nodeids (self w) ++ rows ENgetnodeid N hs /\
    flowrate (self w2) =
      flowrate (self w) ++ rows (fun h i => ENgetlinkvalue h i EN_FLOW) L hs.
Proof.
  intros HN HL Hsim.
  destruct (ObjfunFacts.simulate_Ok_inv fuel w w2 N L r HN HL Hsim)
    as (hs & Hne & Hper & [] & _).
  exists hs. by repeat split.
Qed.

(** C4, the part the code keeps: a list whose length differs from the
    link count is rejected before anything is written to the engine. *)
Lemma change_diameters_wrong_length (ds : list Z) (w : World) (L : nat) :
  links (self w) = Some L -> length ds <> L ->
  change_diameters ds w =
  (Raise (AssertionError "The number of diameters and pipes don't match"), w).
Proof.
  intros HL Hne. apply change_diameters_mismatch. rewrite HL.
  apply not_true_is_false. rewrite len_is_links_true. lia.
Qed.

(** C4, up to 256 links: one [ENsetlinkvalue] per link, in order. *)
Lemma change_diameters_right_length (ds : list Z) (w : World) (L : nat) :
  links (self w) = Some L -> length ds = L -> (L <= 256)%nat ->
  change_diameters ds w =
  (Ok tt, mkWorld (self w)
     (calls w ++ imap (fun i d => ENsetlinkvalue (i + 1) EN_DIAMETER d) ds)
     (stdout w)).
Proof.
  intros HL Hlen Hsmall. apply change_diameters_match. rewrite HL.
  by apply len_is_links_true.
Qed.

(** C4 (the code departs from it). On a network of more than 256 links
    a list with exactly one diameter per link is rejected as well, and
    nothing is written: the dimension check compares the two integers by
    identity. *)
Theorem change_diameters_rejects_large_networks (ds : list Z) (w : World) (L : nat) :
  links (self w) = Some L -> length ds = L -> (256 < L)%nat ->
  change_diameters ds w =
  (Raise (AssertionError "The number of diameters and pipes don't match"), w).
Proof.
  intros HL Hlen Hbig. apply change_diameters_mismatch. rewrite HL.
  apply not_true_is_false. rewrite len_is_links_true. lia.
Qed.

(** C6, amended. [open_network] never fails on account of the file: when
    the input file exists it opens the toolkit and the hydraulic solver
    ([ENopen], [ENopenH]); when it does not, it makes no toolkit call,
    prints a message, and returns [True] all the same. *)
Theorem open_network_returns_True (w : World) :
  let fi := path (self w) +:+ inputfile (self w) in
  let fo := path (self w) +:+ outputfile (self w) in
  open_network w =
  (Ok true,
   if isfile fi
   then mkWorld (self w) (calls w ++ [ENopen fi fo; ENopenH]) (stdout w)
   else mkWorld (self w) (calls w)
          (stdout w ++ ["File: " +:+ fi +:+ " does not exist"])).
Proof.
  destruct w as [n h out]. unfold open_network, check_file.
  rewrite !bind_eq. cbn [get_self self mret SM_ret].
  rewrite !bind_eq. cbn [get_self self mret SM_ret calls stdout].
  destruct (isfile _).
  - rewrite !bind_eq. cbn [en_call self calls stdout mret SM_ret].
    by rewrite <- app_assoc.
  - by rewrite bind_eq.
Qed.

End facts.

Lemma simulate_resets_five_of_seven_witness :
  exists hs, hs <> [] /\
    @periods (Fixtures.one_pipe 50) 3
      (calls Fixtures.simulated_once ++ [ENinitH EN_NOSAVE]) = Some hs /\
    pressure (self Fixtures.simulated_twice) =
      rows (fun h i => @ENgetnodevalue (Fixtures.one_pipe 50) h i EN_PRESSURE) 2 hs /\
    sources (self Fixtures.simulated_twice) =
      rows (@ENgetnodetype (Fixtures.one_pipe 50)) 2 hs /\
    velocity (self Fixtures.simulated_twice) =
      rows (fun h i => @ENgetlinkvalue (Fixtures.one_pipe 50) h i EN_VELOCITY) 1 hs /\
    lengths (self Fixtures.simulated_twice) =
      rows (fun h i => @ENgetlinkvalue (Fixtures.one_pipe 50) h i EN_LENGTH) 1 hs /\
    diameters (self Fixtures.simulated_twice) =
      rows (fun h i => @ENgetlinkvalue (Fixtures.one_pipe 50) h i EN_DIAMETER) 1 hs /\
    nodeids (self Fixtures.simulated_twice) =
      nodeids (self Fixtures.simulated_once) ++
      rows (@ENgetnodeid (Fixtures.one_pipe 50)) 2 hs /\
    flowrate (self Fixtures.simulated_twice) =
      flowrate (self Fixtures.simulated_once) ++
      rows (fun h i => @ENgetlinkvalue (Fixtures.one_pipe 50) h i EN_FLOW) 1 hs.
Proof.
  apply (@simulate_resets_five_of_seven (Fixtures.one_pipe 50) 3
           Fixtures.simulated_once Fixtures.simulated_twice 2 1
           Fixtures.second_result).
  - reflexivity.
  - reflexivity.
  - vm_compute. reflexivity.
Defined.

(** The same on the one-pipe network, spelled out: after the second call
    the node ids and the flow rates of the first call are still there,
    while the pressures are those of the second call alone. *)
Example simulate_twice_accumulates :
  nodeids (self Fixtures.simulated_once) = ["R"; "J"] /\
  nodeids (self Fixtures.simulated_twice) = ["R"; "J"; "R"; "J"] /\
  flowrate (self Fixtures.simulated_once) = [0%Q] /\
  flowrate (self Fixtures.simulated_twice) = [0%Q; 0%Q] /\
  pressure (self Fixtures.simulated_once) = [0%Q; 50%Q] /\
  pressure (self Fixtures.simulated_twice) = [0%Q; 50%Q].
Proof. by vm_compute. Qed.

Lemma change_diameters_rejects_large_networks_witness :
  change_diameters (replicate 257 100) (Fixtures.with_links 257) =
  (Raise (AssertionError "The number of diameters and pipes don't match"),
   Fixtures.with_links 257).
Proof.
  apply (change_diameters_rejects_large_networks
           (replicate 257 100) (Fixtures.with_links 257) 257).
  - reflexivity.
  - by vm_compute.
  - lia.
Defined.

(** C6 as stated fails: the file is absent and the call returns [True],
    having printed a message and made no toolkit call. *)
Lemma open_network_missing_file_returns :
  @isfile (Fixtures.one_pipe 50) "data/Missing.inp" = false /\
  @open_network (Fixtures.one_pipe 50) (Fixtures.fresh "data/" "Missing.inp") =
  (Ok true,
   mkWorld (Network_init "data/" "Missing.inp") []
     ["File: data/Missing.inp does not exist"]).
Proof. split; reflexivity. Qed.

End NetworkFacts.

(** ** The multi-run driver *)

Module DriverFacts.
Import Driver MultiRun.

Section facts.
Context `{GA}.

Lemma exec_body_Ok (execs i : nat) (acc : option Individual * list StatRow)
    (w : World) (b : Individual) (r : list LogRow) :
  optimize_diameters i = Ok (b, r) ->
  exists acc' w', exec_body execs i acc w = (Ok acc', w') /\ files w' = files w.
Proof.
  intros Hrun. destruct acc as [best stats]. unfold exec_body.
  rewrite bind_eq. cbn [print]. rewrite bind_eq. unfold lift. rewrite Hrun.
  rewrite bind_eq. cbn [print files]. by eexists _, _.
Qed.

Lemma exec_body_Raise (execs i : nat) (acc : option Individual * list StatRow)
    (w : World) (e : exn) :
  optimize_diameters i = Raise e ->
  exec_body execs i acc w =
  (Raise e, mkWorld (files w) (stdout w ++ [Execution (i + 1) execs])).
Proof.
  intros Hrun. destruct acc as [best stats]. unfold exec_body.
  rewrite bind_eq. cbn [print]. rewrite bind_eq. unfold lift. by rewrite Hrun.
Qed.

(** The loop over the executions stops at the first one that raises, and
    up to there it has written no file. *)
Lemma exec_loop_Raise (execs k : nat) (e : exn) :
  optimize_diameters k = Raise e ->
  forall (n j : nat) (acc : option Individual * list StatRow) (w : World),
    (j <= k < j + n)%nat ->
    (forall i, (j <= i < k)%nat -> exists br, optimize_diameters i = Ok br) ->
    exists w', for_fold (seq j n) acc (exec_body execs) w = (Raise e, w') /\
               files w' = files w.
Proof.
  intros Hk. induction n as [|n IH]; intros j acc w Hjk Hbefore; [lia|].
  cbn [seq for_fold]. rewrite bind_eq.
  destruct (decide (j = k)) as [->|Hne].
  - rewrite (exec_body_Raise execs k acc w e Hk). by eexists.
  - destruct (Hbefore j) as [[b r] Hj]; [lia|].
    destruct (exec_body_Ok execs j acc w b r Hj) as (acc' & w1 & -> & Hfiles).
    destruct (IH (S j) acc' w1) as (w' & -> & Hfiles'); [lia| |].
    + intros i Hi. apply Hbefore. lia.
    + exists w'. split; [done|]. congruence.
Qed.

(** C8, amended. When execution [k] of the [execs] runs raises, the
    executions before it having completed, the driver ends in that same
    exception and the files are as they were before the call: the
    statistics rows of the completed executions are not written. *)
Theorem failing_execution_discards_statistics (execs gens k : nat) (dir : string)
    (w : World) (e : exn) :
  (k < execs)%nat ->
  optimize_diameters k = Raise e ->
  (forall i, (i < k)%nat -> exists br, optimize_diameters i = Ok br) ->
  exists w', optimize_diameters_execs execs gens dir w = (Raise e, w') /\
             files w' = files w.
Proof.
  intros Hlt Hk Hbefore. unfold optimize_diameters_execs. rewrite bind_eq.
  destruct (exec_loop_Raise execs k e Hk execs 0 (None, []) w)
    as (w' & Hloop & Hfiles); [lia| |].
  - intros i Hi. apply Hbefore. lia.
  - unfold range. rewrite Hloop. by exists w'.
Qed.

End facts.

Lemma failing_execution_discards_statistics_witness :
  exists w',
    @optimize_diameters_execs Fixtures.second_run_fails 2 10 "results/"
      Fixtures.no_files = (Raise ENtoolkitError, w') /\
    files w' = files Fixtures.no_files.
Proof.
  apply (@failing_execution_discards_statistics Fixtures.second_run_fails
           2 10 1 "results/" Fixtures.no_files ENtoolkitError).
  - lia.
  - reflexivity.
  - intros i Hi. assert (i = 0%nat) as -> by lia. by eexists.
Defined.

(** C8 as stated fails: the first of two executions completes with a
    two-row logbook, the second one fails, and no statistics file
    exists afterwards. *)
Lemma completed_rows_not_persisted :
  @optimize_diameters Fixtures.second_run_fails 0 =
    Ok (Fixtures.first_best, Fixtures.first_log) /\
  fst (@optimize_diameters_execs Fixtures.second_run_fails 2 10 "results/"
         Fixtures.no_files) = Raise ENtoolkitError /\
  files (snd (@optimize_diameters_execs Fixtures.second_run_fails 2 10 "results/"
                Fixtures.no_files))
    !! "results/ga_dimen_2020_01_01-00_00_00.csv" = None.
Proof. by vm_compute. Qed.

(** When both executions complete, the statistics file holds the rows of
    both, each tagged with the best fitness so far. *)
Example completed_runs_are_persisted :
  files (snd (@optimize_diameters_execs Fixtures.all_runs_succeed 2 10 "results/"
                Fixtures.no_files))
    !! "results/ga_dimen_2020_01_01-00_00_00.csv" =
  Some (Csv (map (fun lr => mkStatRow lr 5000)
               (Fixtures.first_log ++ Fixtures.first_log))).
Proof. by vm_compute. Qed.

End DriverFacts.

(** ** Further properties of the catalog *)

Module CatalogExtras.

Lemma list_comp_seq {A} (l : list A) (n k : nat) :
  (k + n <= length l)%nat ->
  list_comp (fun x => py_getitem l x) (Z.of_nat <$> seq k n) = Ok (take n (drop k l)).
Proof.
  revert k. induction n as [|n IH]; intros k Hlen; [done|].
  destruct (lookup_lt_is_Some_2 l k) as [x Hx]; [lia|].
  rewrite (drop_S _ _ _ Hx). cbn [seq fmap list_fmap list_comp take].
  rewrite (py_getitem_nat _ _ _ Hx). cbn [obind].
  rewrite IH by lia. done.
Qed.

Lemma StronglySorted_le_lt (l : list Z) :
  StronglySorted Z.le l -> NoDup l -> StronglySorted Z.lt l.
Proof.
  induction 1 as [|x l Hs IH Hall]; intros Hnd; [constructor|].
  apply NoDup_cons in Hnd as [Hx Hnd]. constructor; [by apply IH|].
  rewrite Forall_forall in Hall |- *. intros y Hy.
  specialize (Hall y Hy). assert (x <> y) by (intros ->; done). lia.
Qed.

Lemma sorted_keys_NoDup (p : gmap Z Z) : NoDup (Catalog.sorted_keys p).
Proof.
  unfold Catalog.sorted_keys. rewrite (merge_sort_Permutation Z.le _).
  apply NoDup_elements.
Qed.

(** Resolving the indices [0, 1, ..., |catalog| - 1] in this order
    enumerates the catalog: every key occurs, nothing else does, and the
    diameters come out in strictly ascending order. *)
Theorem index2diam_enumerates_catalog (p : gmap Z Z) :
  exists ds, Catalog.index2diam (Z.of_nat <$> seq 0 (size p)) p = Ok ds /\
    length ds = size p /\
    (forall d, d ∈ ds <-> is_Some (p !! d)) /\
    StronglySorted Z.lt ds.
Proof.
  exists (Catalog.sorted_keys p). split; [|split; [|split]].
  - unfold Catalog.index2diam.
    rewrite list_comp_seq by (rewrite sorted_keys_length; lia).
    rewrite drop_0, take_ge; [done|]. by rewrite sorted_keys_length.
  - apply sorted_keys_length.
  - apply sorted_keys_elem.
  - apply StronglySorted_le_lt; [apply sorted_keys_sorted | apply sorted_keys_NoDup].
Qed.

(** A negative index [i] in [[-|catalog|, -1]] resolves to the same
    diameter as the index [i + |catalog|]: it counts from the largest
    diameter downwards. *)
Theorem index2diam_negative_mirror (p : gmap Z Z) (i : Z) :
  - Z.of_nat (size p) <= i < 0 ->
  Catalog.index2diam [i] p = Catalog.index2diam [i + Z.of_nat (size p)] p /\
  exists d, Catalog.index2diam [i] p = Ok [d].
Proof.
  intros Hi. unfold Catalog.index2diam. cbn [list_comp].
  pose proof (sorted_keys_length p) as Hlen.
  destruct (py_getitem_Ok (Catalog.sorted_keys p) i) as (d & Hd & Hld); [lia|].
  destruct (py_getitem_Ok (Catalog.sorted_keys p) (i + Z.of_nat (size p)))
    as (d' & Hd' & Hld'); [lia|].
  destruct (Z.ltb_spec i 0); [|lia].
  destruct (Z.ltb_spec (i + Z.of_nat (size p)) 0); [lia|].
  rewrite Hlen in Hld. rewrite Hld in Hld'. simplify_eq.
  rewrite Hd, Hd'. eauto.
Qed.

Lemma index2diam_negative_mirror_witness :
  Catalog.index2diam [-1] Fixtures.two_loop_prices =
  Catalog.index2diam [-1 + Z.of_nat (size Fixtures.two_loop_prices)]
    Fixtures.two_loop_prices /\
  exists d, Catalog.index2diam [-1] Fixtures.two_loop_prices = Ok [d].
Proof.
  apply (index2diam_negative_mirror Fixtures.two_loop_prices (-1)).
  vm_compute. split; congruence.
Defined.

(** On an empty catalog every non-empty index list is rejected, and the
    empty list resolves to the empty assignment. *)
Theorem index2diam_empty_catalog (idx : list Z) :
  Catalog.index2diam idx ∅ = match idx with [] => Ok [] | _ => Raise IndexError end.
Proof.
  destruct idx as [|i idx]; [done|].
  unfold Catalog.index2diam. cbn [list_comp].
  rewrite py_getitem_Raise; [done|].
  rewrite sorted_keys_length, map_size_empty. lia.
Qed.

End CatalogExtras.

(** ** Further properties of the network object *)

Module HydraulicExtras.
Import Hydraulic SimSpec HydraulicFacts.

Lemma period_calls_S (k : nat) :
  period_calls (S k) = [ENrunH; ENnextH] ++ period_calls k.
Proof. done. Qed.

Lemma substring_all (s : string) : substring 0 (String.length s) s = s.
Proof. induction s as [|c s IH]; simpl; [done|]. by rewrite IH. Qed.

Lemma substring_suffix (base ext : string) :
  substring (String.length base) (String.length ext) (base +:+ ext) = ext.
Proof. induction base as [|c base IH]; simpl; [apply substring_all | done]. Qed.

Lemma substring_prefix (base ext : string) :
  substring 0 (String.length base) (base +:+ ext) = base.
Proof.
  induction base as [|c base IH]; simpl; [by destruct ext|]. by rewrite IH.
Qed.

Lemma length_append (s1 s2 : string) :
  String.length (s1 +:+ s2) = (String.length s1 + String.length s2)%nat.
Proof. induction s1 as [|c s1 IH]; simpl; [done|]. by rewrite IH. Qed.

(** The report file is named after the last four characters of the input
    file name only: whatever precedes them is lost, so that all input
    files with the same extension share one report file name. *)
Theorem outputfile_ignores_base_name (basepath base ext : string) :
  String.length ext = 4%nat ->
  outputfile (Network_init basepath (base +:+ ext)) = ext +:+ ".rpt".
Proof.
  intros Hext. cbn [Network_init outputfile]. unfold last4.
  rewrite length_append, Hext, Nat.add_sub, <- Hext.
  by rewrite substring_suffix.
Qed.

Lemma outputfile_ignores_base_name_witness :
  outputfile (Network_init "data/" ("TwoLoop" +:+ ".inp")) = ".inp" +:+ ".rpt".
Proof.
  apply (outputfile_ignores_base_name "data/" "TwoLoop" ".inp"). reflexivity.
Defined.

Section facts.
Context `{Env}.

Lemma links_pass_node_values (h : list ENcall) (l : list nat) (n : Network) :
  node_values (foldl (fun n i => link_row h i n) n l) = node_values n.
Proof. revert n. induction l as [|i l IH]; intros n; [done|]. simpl. by rewrite IH. Qed.

Lemma nodes_pass_values (h : list ENcall) (l : list nat) (n : Network) :
  NoDup (map (fun i => ENgetnodeid h (i + 1)%nat) l) ->
  forall i, i ∈ l ->
    node_values (foldl (fun n i => node_row h i n) n l)
      !! ENgetnodeid h (i + 1)%nat = Some (node_dict h (i + 1)%nat).
Proof.
  induction l as [|j l IH] using rev_ind; intros Hnd i Hi; [by inversion Hi|].
  rewrite foldl_app. cbn [foldl node_row node_values].
  rewrite map_app in Hnd. apply NoDup_app in Hnd as (Hnd & Hdisj & _).
  apply elem_of_app in Hi as [Hi|Hi].
  - rewrite lookup_insert_ne; [by apply IH|].
    intros Heq. apply (Hdisj (ENgetnodeid h (i + 1)%nat)).
    + apply list_elem_of_fmap. by exists i.
    + rewrite <- Heq. cbn. apply list_elem_of_here.
  - apply list_elem_of_singleton in Hi as ->. apply lookup_insert_eq.
Qed.

Lemma links_pass_values (h : list ENcall) (l : list nat) (n : Network) :
  NoDup (map (fun i => ENgetlinkid h (i + 1)%nat) l) ->
  forall i, i ∈ l ->
    link_values (foldl (fun n i => link_row h i n) n l)
      !! ENgetlinkid h (i + 1)%nat = Some (link_dict h (i + 1)%nat).
Proof.
  induction l as [|j l IH] using rev_ind; intros Hnd i Hi; [by inversion Hi|].
  rewrite foldl_app. cbn [foldl link_row link_values].
  rewrite map_app in Hnd. apply NoDup_app in Hnd as (Hnd & Hdisj & _).
  apply elem_of_app in Hi as [Hi|Hi].
  - rewrite lookup_insert_ne; [by apply IH|].
    intros Heq. apply (Hdisj (ENgetlinkid h (i + 1)%nat)).
    + apply list_elem_of_fmap. by exists i.
    + rewrite <- Heq. cbn. apply list_elem_of_here.
  - apply list_elem_of_singleton in Hi as ->. apply lookup_insert_eq.
Qed.

(** The loop of [simulate], seen from the engine and from the last
    period. *)
Lemma simulate_loop_trace (fuel : nat) :
  forall (w : World) (N L : nat) (hs : list (list ENcall)),
    nodes (self w) = Some N -> links (self w) = Some L ->
    periods fuel (calls w) = Some hs ->
    exists w' h n0,
      simulate_loop fuel w = (Ok tt, w') /\
      calls w' = calls w ++ period_calls (length hs) /\
      last hs = Some h /\
      self w' = foldl (fun n i => link_row h i n)
                  (foldl (fun n i => node_row h i n) n0 (range N)) (range L).
Proof.
  induction fuel as [|fuel IH]; intros w N L hs HN HL Hper; [done|].
  rewrite (simulate_loop_step fuel w N L HN HL). cbn [periods] in Hper.
  cbv zeta in *.
  pose proof (period_appended (calls w ++ [ENrunH]) N L (self w)) as Hone.
  destruct (ENnextH_tstep (calls w ++ [ENrunH]) <=? 0).
  - injection Hper as <-. eexists _, _, (self w). split; [done|].
    cbn [calls self length]. rewrite period_calls_S, <- app_assoc. by repeat split.
  - set (w1 := mkWorld _ _ _).
    assert (HN1 : nodes (self w1) = Some N)
      by (subst w1; cbn [self]; by rewrite (app_nodes _ _ _ _ _ Hone)).
    assert (HL1 : links (self w1) = Some L)
      by (subst w1; cbn [self]; by rewrite (app_links _ _ _ _ _ Hone)).
    destruct (periods fuel _) as [hs'|] eqn:Hper'; [|done].
    injection Hper as <-.
    destruct (IH w1 N L hs' HN1 HL1 Hper') as (w' & h & n0 & Hrun & Hcalls & Hlast & Hself).
    exists w', h, n0. split; [done|]. split; [|split; [|done]].
    + rewrite Hcalls. subst w1. cbn [calls length].
      rewrite period_calls_S, <- !app_assoc. done.
    + destruct hs'; [done|]. done.
Qed.

(** One call of [simulate] that returns has issued [ENinitH] once and
    then [ENrunH] and [ENnextH] alternately, once per hydraulic period,
    and nothing else; it has printed nothing; and each of the five
    arrays it resets holds one row per entity and period. *)
Theorem simulate_trace_and_sizes (fuel : nat) (w w2 : World) (N L : nat)
    (r : list Q * list Q * list Q * list Z) :
  nodes (self w) = Some N -> links (self w) = Some L ->
  simulate fuel w = (Ok r, w2) ->
  exists k, (1 <= k)%nat /\
    calls w2 = calls w ++ ENinitH EN_NOSAVE :: period_calls k /\
    stdout w2 = stdout w /\
    length (pressure (self w2)) = (k * N)%nat /\
    length (sources (self w2)) = (k * N)%nat /\
    length (velocity (self w2)) = (k * L)%nat /\
    length (lengths (self w2)) = (k * L)%nat /\
    length (diameters (self w2)) = (k * L)%nat.
Proof.
  intros HN HL Hsim.
  destruct (ObjfunFacts.simulate_Ok_inv fuel w w2 N L r HN HL Hsim)
    as (hs & Hne & Hper & Happ & Hout).
  destruct (simulate_loop_trace fuel
              (mkWorld (reset_results (self w)) (calls w ++ [ENinitH EN_NOSAVE]) (stdout w))
              N L hs HN HL Hper) as (w' & h & n0 & Hrun & Hcalls & _ & _).
  assert (w' = w2) as ->.
  { unfold simulate in Hsim. rewrite bind_eq in Hsim. cbn [en_call] in Hsim.
    rewrite bind_eq in Hsim. cbn [update_self self calls stdout] in Hsim.
    rewrite bind_eq, Hrun, bind_eq in Hsim. cbn [get_self] in Hsim.
    by injection Hsim. }
  exists (length hs). split; [destruct hs; [done | simpl; lia]|].
  cbn [calls] in Hcalls. rewrite <- app_assoc in Hcalls.
  destruct Happ as [_ _ _ _ _ _ Hs Hp Hv Hle Hd _].
  simpl in Hs, Hp, Hv, Hle, Hd.
  repeat split; try done.
  - by rewrite Hp, rows_length.
  - by rewrite Hs, rows_length.
  - by rewrite Hv, rows_length.
  - by rewrite Hle, rows_length.
  - by rewrite Hd, rows_length.
Qed.

Lemma rows_first_period {B} (f : list ENcall -> nat -> B) (n : nat)
    (h : list ENcall) (hs : list (list ENcall)) (i : nat) :
  (i < n)%nat -> rows f n (h :: hs) !! i = Some (f h (i + 1)%nat).
Proof.
  intros Hi. change (h :: hs) with ([h] ++ hs).
  rewrite rows_app, rows_single, lookup_app_l
    by (unfold range; rewrite length_map, length_seq; lia).
  rewrite list_lookup_fmap. unfold range. by rewrite lookup_seq_lt.
Qed.

(** The entries at the positions [0 .. N-1] and [0 .. L-1], which are
    the ones [network_cost] reads, are those of the first hydraulic
    period, whatever the number of periods. *)
Theorem simulate_first_period (fuel : nat) (w w2 : World) (N L : nat)
    (r : list Q * list Q * list Q * list Z) :
  nodes (self w) = Some N -> links (self w) = Some L ->
  simulate fuel w = (Ok r, w2) ->
  let h1 := calls w ++ [ENinitH EN_NOSAVE; ENrunH] in
  (forall i, (i < N)%nat ->
     pressure (self w2) !! i = Some (ENgetnodevalue h1 (i + 1)%nat EN_PRESSURE) /\
     sources (self w2) !! i = Some (ENgetnodetype h1 (i + 1)%nat)) /\
  (forall j, (j < L)%nat ->
     velocity (self w2) !! j = Some (ENgetlinkvalue h1 (j + 1)%nat EN_VELOCITY) /\
     lengths (self w2) !! j = Some (ENgetlinkvalue h1 (j + 1)%nat EN_LENGTH)).
Proof.
  intros HN HL Hsim h1.
  destruct (ObjfunFacts.simulate_Ok_inv fuel w w2 N L r HN HL Hsim)
    as (hs & Hne & Hper & Happ & Hout).
  assert (exists hs', hs = h1 :: hs') as [hs' ->].
  { destruct fuel as [|fuel]; [done|]. cbn [periods] in Hper. cbv zeta in Hper.
    rewrite <- app_assoc in Hper. cbn [app] in Hper. fold h1 in Hper.
    destruct (_ <=? _); [injection Hper as <-; by eexists|].
    destruct (periods fuel _); [|done]. injection Hper as <-. by eexists. }
  destruct Happ as [_ _ _ _ _ _ Hs Hp Hv Hle _ _].
  simpl in Hs, Hp, Hv, Hle. rewrite Hs, Hp, Hv, Hle.
  split; intros i Hi; split; by apply rows_first_period.
Qed.

(** The two dicts, which [show_properties] prints, hold the values of
    the last hydraulic period: when the ids of that period are pairwise
    distinct, each id maps to the values read in that period. *)
Theorem simulate_dicts_last_period (fuel : nat) (w w2 : World) (N L : nat)
    (r : list Q * list Q * list Q * list Z) :
  nodes (self w) = Some N -> links (self w) = Some L ->
  simulate fuel w = (Ok r, w2) ->
  exists hs h,
    periods fuel (calls w ++ [ENinitH EN_NOSAVE]) = Some hs /\
    last hs = Some h /\
    (NoDup (map (fun i => ENgetnodeid h (i + 1)%nat) (range N)) ->
     forall i, (i < N)%nat ->
       node_values (self w2) !! ENgetnodeid h (i + 1)%nat =
       Some (node_dict h (i + 1)%nat)) /\
    (NoDup (map (fun i => ENgetlinkid h (i + 1)%nat) (range L)) ->
     forall j, (j < L)%nat ->
       link_values (self w2) !! ENgetlinkid h (j + 1)%nat =
       Some (link_dict h (j + 1)%nat)).
Proof.
  intros HN HL Hsim.
  destruct (ObjfunFacts.simulate_Ok_inv fuel w w2 N L r HN HL Hsim)
    as (hs & Hne & Hper & Happ & Hout).
  destruct (simulate_loop_trace fuel
              (mkWorld (reset_results (self w)) (calls w ++ [ENinitH EN_NOSAVE]) (stdout w))
              N L hs HN HL Hper) as (w' & h & n0 & Hrun & _ & Hlast & Hself).
  assert (w' = w2) as ->.
  { unfold simulate in Hsim. rewrite bind_eq in Hsim. cbn [en_call] in Hsim.
    rewrite bind_eq in Hsim. cbn [update_self self calls stdout] in Hsim.
    rewrite bind_eq, Hrun, bind_eq in Hsim. cbn [get_self] in Hsim.
    by injection Hsim. }
  exists hs, h. split; [done|]. split; [done|]. rewrite Hself. split.
  - intros Hnd i Hi. rewrite links_pass_node_values.
    apply nodes_pass_values; [done|]. apply elem_of_seq. lia.
  - intros Hnd j Hj. apply links_pass_values; [done|]. apply elem_of_seq. lia.
Qed.

(** On a network object that was never initialised, [simulate] fails
    with [TypeError] at the first [range(self.nodes)], by which time the
    solver has been initialised and advanced once and the five arrays
    have been emptied. *)
Theorem simulate_uninitialised (fuel : nat) (w : World) :
  nodes (self w) = None ->
  simulate (S fuel) w =
  (Raise TypeError,
   mkWorld (reset_results (self w))
     (calls w ++ [ENinitH EN_NOSAVE; ENrunH]) (stdout w)).
Proof.
  intros HN. destruct w as [n h out]. cbn [self] in HN.
  unfold simulate. rewrite bind_eq. cbn [en_call self calls stdout].
  rewrite bind_eq. cbn [update_self self calls stdout].
  rewrite bind_eq. cbn [simulate_loop].
  rewrite bind_eq. cbn [en_call self calls stdout].
  rewrite bind_eq. cbn [get_self self reset_results nodes]. rewrite HN.
  rewrite bind_eq. cbn [range_of raise]. by rewrite <- app_assoc.
Qed.

End facts.

Lemma simulate_trace_and_sizes_witness :
  exists k, (1 <= k)%nat /\
    calls (snd Fixtures2.three_run) =
      calls Fixtures2.three_opened ++ ENinitH EN_NOSAVE :: period_calls k /\
    stdout (snd Fixtures2.three_run) = stdout Fixtures2.three_opened /\
    length (pressure (self (snd Fixtures2.three_run))) = (k * 2)%nat /\
    length (sources (self (snd Fixtures2.three_run))) = (k * 2)%nat /\
    length (velocity (self (snd Fixtures2.three_run))) = (k * 1)%nat /\
    length (lengths (self (snd Fixtures2.three_run))) = (k * 1)%nat /\
    length (diameters (self (snd Fixtures2.three_run))) = (k * 1)%nat.
Proof.
  apply (@simulate_trace_and_sizes Fixtures2.three_periods 5
           Fixtures2.three_opened (snd Fixtures2.three_run) 2 1
           Fixtures2.three_result).
  - reflexivity.
  - reflexivity.
  - vm_compute. reflexivity.
Defined.

Lemma simulate_first_period_witness :
  let h1 := calls Fixtures2.three_opened ++ [ENinitH EN_NOSAVE; ENrunH] in
  (forall i, (i < 2)%nat ->
     pressure (self (snd Fixtures2.three_run)) !! i =
       Some (@ENgetnodevalue Fixtures2.three_periods h1 (i + 1)%nat EN_PRESSURE) /\
     sources (self (snd Fixtures2.three_run)) !! i =
       Some (@ENgetnodetype Fixtures2.three_periods h1 (i + 1)%nat)) /\
  (forall j, (j < 1)%nat ->
     velocity (self (snd Fixtures2.three_run)) !! j =
       Some (@ENgetlinkvalue Fixtures2.three_periods h1 (j + 1)%nat EN_VELOCITY) /\
     lengths (self (snd Fixtures2.three_run)) !! j =
       Some (@ENgetlinkvalue Fixtures2.three_periods h1 (j + 1)%nat EN_LENGTH)).
Proof.
  apply (@simulate_first_period Fixtures2.three_periods 5
           Fixtures2.three_opened (snd Fixtures2.three_run) 2 1
           Fixtures2.three_result).
  - reflexivity.
  - reflexivity.
  - vm_compute. reflexivity.
Defined.

Lemma simulate_dicts_last_period_witness :
  exists hs h,
    @periods Fixtures2.three_periods 5
      (calls Fixtures2.three_opened ++ [ENinitH EN_NOSAVE]) = Some hs /\
    last hs = Some h /\
    (NoDup (map (fun i => @ENgetnodeid Fixtures2.three_periods h (i + 1)%nat) (range 2)) ->
     forall i, (i < 2)%nat ->
       node_values (self (snd Fixtures2.three_run))
         !! @ENgetnodeid Fixtures2.three_periods h (i + 1)%nat =
       Some (@node_dict Fixtures2.three_periods h (i + 1)%nat)) /\
    (NoDup (map (fun i => @ENgetlinkid Fixtures2.three_periods h (i + 1)%nat) (range 1)) ->
     forall j, (j < 1)%nat ->
       link_values (self (snd Fixtures2.three_run))
         !! @ENgetlinkid Fixtures2.three_periods h (j + 1)%nat =
       Some (@link_dict Fixtures2.three_periods h (j + 1)%nat)).
Proof.
  apply (@simulate_dicts_last_period Fixtures2.three_periods 5
           Fixtures2.three_opened (snd Fixtures2.three_run) 2 1
           Fixtures2.three_result).
  - reflexivity.
  - reflexivity.
  - vm_compute. reflexivity.
Defined.

(** On the three-period engine the junction pressure read by
    [network_cost] is the one of the first period, 10, while the dict
    holds the one of the last period, 30. *)
Example three_periods_first_and_last :
  pressure (self (snd Fixtures2.three_run)) =
    [0%Q; inject_Z 10; 0%Q; inject_Z 20; 0%Q; inject_Z 30] /\
  (node_values (self (snd Fixtures2.three_run)) !! "J") ≫= (.!! "PRESSURE") =
    Some (inject_Z 30).
Proof. by vm_compute. Qed.

Lemma simulate_uninitialised_witness :
  @simulate (Fixtures.one_pipe 50) 1 (Fixtures.fresh "data/" "OnePipe.inp") =
  (Raise TypeError,
   mkWorld (reset_results (self (Fixtures.fresh "data/" "OnePipe.inp")))
     (calls (Fixtures.fresh "data/" "OnePipe.inp") ++ [ENinitH EN_NOSAVE; ENrunH])
     (stdout (Fixtures.fresh "data/" "OnePipe.inp"))).
Proof.
  apply (@simulate_uninitialised (Fixtures.one_pipe 50) 0
           (Fixtures.fresh "data/" "OnePipe.inp")).
  reflexivity.
Defined.

End HydraulicExtras.

(** ** Further properties of the objective function *)

Module ObjfunExtras.
Import Hydraulic SimSpec Objfun HydraulicFacts ObjfunFacts.

Lemma for_fold_first_raise {W A T} (e : exn) (body : A -> T -> SM W T)
    (l1 l2 : list A) (x : A) (w : W) :
  (forall y acc, y ∈ l1 -> exists acc', body y acc w = (Ok acc', w)) ->
  (forall acc, body x acc w = (Raise e, w)) ->
  forall acc, for_fold (l1 ++ x :: l2) acc body w = (Raise e, w).
Proof.
  intros Hgood Hbad. induction l1 as [|y l1 IH]; intros acc; cbn [app for_fold].
  - by rewrite bind_eq, Hbad.
  - destruct (Hgood y acc (list_elem_of_here _ _)) as [acc' Hy].
    rewrite bind_eq, Hy. apply IH. intros z a Hz.
    apply Hgood. by apply list_elem_of_further.
Qed.

Lemma for_fold_first_raise_inv {W A T} (I : T -> Prop) (e : exn)
    (body : A -> T -> SM W T) (l1 l2 : list A) (x : A) (w : W) :
  (forall y acc, y ∈ l1 -> I acc -> exists acc', body y acc w = (Ok acc', w) /\ I acc') ->
  (forall acc, body x acc w = (Raise e, w)) ->
  forall acc, I acc -> for_fold (l1 ++ x :: l2) acc body w = (Raise e, w).
Proof.
  intros Hgood Hbad. induction l1 as [|y l1 IH]; intros acc Hacc; cbn [app for_fold].
  - by rewrite bind_eq, Hbad.
  - destruct (Hgood y acc (list_elem_of_here _ _) Hacc) as (acc' & Hy & Hacc').
    rewrite bind_eq, Hy. apply IH; [|done]. intros z a Hz.
    apply Hgood. by apply list_elem_of_further.
Qed.

Lemma py_mul_int_float (u : Z) (y : Float.float) :
  converts (PyInt u) -> exists z, py_mul (PyInt u) (PyFloat y) = Ok (PyFloat z).
Proof. intros [x Hx]. cbn [py_mul]. rewrite Hx. by eexists. Qed.

Lemma py_mul_float_l (x : Float.float) (b : pynum) :
  converts b -> exists z, py_mul (PyFloat x) b = Ok (PyFloat z).
Proof. intros [y Hy]. destruct b; cbn [py_mul to_float obind] in *; rewrite ?Hy; by eexists. Qed.

Lemma py_add_float_r (a : pynum) (y : Float.float) :
  converts a -> exists z, py_add a (PyFloat y) = Ok (PyFloat z).
Proof. intros [x Hx]. destruct a; cbn [py_add to_float obind] in *; rewrite ?Hx; by eexists. Qed.

Lemma first_unlisted (prices : gmap Z Z) (ds : list Z) :
  Exists (fun d => prices !! d = None) ds ->
  exists good bad rest, ds = good ++ bad :: rest /\
    Forall (fun d => is_Some (prices !! d)) good /\ prices !! bad = None.
Proof.
  induction ds as [|d ds IH]; intros Hex; [by inversion Hex|].
  destruct (prices !! d) as [u|] eqn:Hd.
  - destruct IH as (good & bad & rest & -> & Hgood & Hbad).
    { inversion Hex; subst; [congruence | done]. }
    exists (d :: good), bad, rest. split; [done|]. split; [|done].
    constructor; [by eexists | done].
  - exists [], d, ds. by repeat split.
Qed.

Section facts.
Context `{Env}.

(** A list of diameters that does not pass the dimension check of
    [change_diameters], or a network object that was never initialised,
    makes [network_cost] fail on the spot: the engine is not called, the
    arrays of the object are not touched. *)
Theorem network_cost_dimension_error (fuel : nat) (ds : list Z)
    (prices : gmap Z Z) (o : Options) (w : World) :
  links (self w) <> Some (length ds) ->
  network_cost fuel ds prices o w =
  (Raise (AssertionError "The number of diameters and pipes don't match"), w).
Proof.
  intros Hne. unfold network_cost. rewrite bind_eq.
  rewrite change_diameters_mismatch; [done|].
  destruct (links (self w)) as [L|] eqn:HL; [|done].
  apply not_true_is_false. rewrite len_is_links_true. intros [Heq _].
  by rewrite Heq in Hne.
Qed.

(** An index outside [[-|catalog|, |catalog|)] makes [network_diameters]
    fail with [IndexError] before the network is touched. *)
Theorem network_diameters_bad_index (fuel : nat) (idx : list Z)
    (prices : gmap Z Z) (w : World) :
  Exists (fun x => x < - Z.of_nat (size prices) \/ Z.of_nat (size prices) <= x) idx ->
  network_diameters fuel idx prices w = (Raise IndexError, w).
Proof.
  intros Hex. unfold network_diameters. rewrite bind_eq. unfold lift.
  assert (Catalog.index2diam idx prices = Raise IndexError) as ->; [|done].
  apply list_comp_Raise.
  - apply Forall_forall. intros x _. apply py_getitem_cases.
  - eapply Exists_impl; [exact Hex|]. simpl. intros x Hx.
    apply py_getitem_Raise. by rewrite sorted_keys_length.
Qed.

(** A diameter that is not a key of the price table is only noticed in
    the last loop: [network_cost] ends in [KeyError] after the diameters
    have been written to the engine and the whole simulation has run,
    provided the unit prices of the catalog and the two multipliers are
    within the range of the doubles (otherwise a pipe before the
    unlisted one may fail first, with [OverflowError]). *)
Theorem network_cost_unlisted_diameter (fuel : nat) (ds : list Z)
    (prices : gmap Z Z) (o : Options) (w w2 : World) (N L : nat)
    (r : list Q * list Q * list Q * list Z) :
  nodes (self w) = Some N -> links (self w) = Some L ->
  len_is_links (length ds) (Some L) = true ->
  Exists (fun d => prices !! d = None) ds ->
  simulate fuel (snd (change_diameters ds w)) = (Ok r, w2) ->
  (forall d u, prices !! d = Some u -> converts (PyInt u)) ->
  converts (penalty o (velocity_violations o L (self w2))) ->
  converts (penalty o (pressure_violations o N (self w2))) ->
  network_cost fuel ds prices o w = (Raise KeyError, w2).
Proof.
  intros HN HL Hlen Hex Hsim Hprices HcV HcH.
  rewrite <- HL in Hlen.
  rewrite (change_diameters_match ds w Hlen) in Hsim. cbn [snd] in Hsim.
  destruct (simulate_Ok_lengths fuel (mkWorld (self w) _ (stdout w)) w2 N L r
              HN HL Hsim) as (HN2 & HL2 & HlenP & HlenV & HlenL).
  unfold network_cost.
  rewrite bind_eq, (change_diameters_match ds w Hlen).
  rewrite bind_eq, Hsim.
  rewrite bind_eq. cbn [get_self].
  rewrite bind_eq, HN2. cbn [range_of mret SM_ret].
  rewrite bind_eq. rewrite <- (penalty_0 o). unfold range.
  rewrite (for_fold_seq_image (zip (sources (self w2)) (pressure (self w2)))
             (penalty o) (pH_step o)) by (auto using pH_body || (cbn; lia)).
  rewrite bind_eq, HL2. cbn [range_of mret SM_ret].
  rewrite bind_eq. unfold range.
  rewrite (for_fold_seq_image (velocity (self w2)) (penalty o) (pV_step o))
    by (auto using pV_body || (cbn; lia)).
  rewrite !drop_0. unfold pH_step, pV_step. rewrite !foldl_count. cbn [Nat.add].
  fold (pressure_violations o N (self w2)). fold (velocity_violations o L (self w2)).
  rewrite HL in Hlen. apply len_is_links_true in Hlen as [Hlen _].
  destruct (first_unlisted prices ds Hex) as (good & bad & rest & -> & Hgood & Hbad).
  rewrite length_app in *. cbn [length] in *.
  rewrite seq_app. cbn [seq].
  apply (for_fold_first_raise_inv converts).
  - intros i acc Hi Hacc. apply elem_of_seq in Hi.
    destruct (lookup_lt_is_Some_2 good i) as [d Hd]; [lia|].
    destruct (lookup_lt_is_Some_2 (lengths (self w2)) i) as [l Hl]; [lia|].
    rewrite Forall_forall in Hgood.
    destruct (Hgood d) as [u Hu]; [apply list_elem_of_lookup; eauto|].
    rewrite lift_bind, (py_getitem_nat _ i d) by (by apply lookup_app_l_Some).
    rewrite lift_bind. unfold dict_getitem. rewrite Hu.
    rewrite lift_bind, (py_getitem_nat _ _ _ Hl).
    destruct (py_mul_int_float u (Float.Fin l) (Hprices d u Hu)) as [x1 H1].
    rewrite lift_bind, H1.
    destruct (py_mul_float_l x1 _ HcV) as [x2 H2]. rewrite lift_bind, H2.
    destruct (py_mul_float_l x2 _ HcH) as [x3 H3]. rewrite lift_bind, H3.
    destruct (py_add_float_r acc x3 Hacc) as [x4 H4]. unfold lift. rewrite H4.
    eexists. split; [done|]. by eexists.
  - intros acc. rewrite lift_bind.
    rewrite (py_getitem_nat _ (0 + length good) bad)
      by (by rewrite lookup_app_r, Nat.sub_diag by lia).
    rewrite lift_bind. unfold dict_getitem. by rewrite Hbad.
  - by eexists.
Qed.

End facts.

Lemma network_cost_dimension_error_witness :
  @network_cost (Fixtures.one_pipe 50) 3 [51; 25] Fixtures.two_loop_prices
    default_options (Fixtures.opened 50) =
  (Raise (AssertionError "The number of diameters and pipes don't match"),
   Fixtures.opened 50).
Proof.
  apply (@network_cost_dimension_error (Fixtures.one_pipe 50) 3 [51; 25]
           Fixtures.two_loop_prices default_options (Fixtures.opened 50)).
  vm_compute. congruence.
Defined.

Lemma network_diameters_bad_index_witness :
  @network_diameters (Fixtures.one_pipe 50) 3 [4] Fixtures.two_loop_prices
    (Fixtures.opened 50) = (Raise IndexError, Fixtures.opened 50).
Proof.
  apply (@network_diameters_bad_index (Fixtures.one_pipe 50) 3 [4]
           Fixtures.two_loop_prices (Fixtures.opened 50)).
  apply Exists_cons_hd. right. vm_compute. congruence.
Defined.

Lemma two_loop_prices_convert (d u : Z) :
  Fixtures.two_loop_prices !! d = Some u -> converts (PyInt u).
Proof.
  revert d u. change (map_Forall (fun _ u => converts (PyInt u)) Fixtures.two_loop_prices).
  unfold Fixtures.two_loop_prices.
  repeat (apply map_Forall_insert_2; [eexists; vm_compute; reflexivity|]).
  apply map_Forall_empty.
Qed.

Lemma network_cost_unlisted_diameter_witness :
  Fixtures2.unlisted = (Raise KeyError, snd Fixtures2.unlisted_run).
Proof.
  apply (@network_cost_unlisted_diameter (Fixtures.one_pipe 50) 3 [52]
           Fixtures.two_loop_prices default_options (Fixtures.opened 50)
           (snd Fixtures2.unlisted_run) 2 1 Fixtures2.unlisted_result).
  - reflexivity.
  - reflexivity.
  - reflexivity.
  - apply Exists_cons_hd. reflexivity.
  - vm_compute. reflexivity.
  - exact two_loop_prices_convert.
  - eexists. vm_compute. reflexivity.
  - eexists. vm_compute. reflexivity.
Defined.

(** With a unit price beyond the range of the doubles the pipe before
    the unlisted diameter fails first. *)
Example overflow_before_KeyError :
  Exists (fun d => Fixtures2.huge_price !! d = None) [25; 26] /\
  fst Fixtures2.overflowing = Raise OverflowError.
Proof. split; [apply Exists_cons_tl, Exists_cons_hd; reflexivity | by vm_compute]. Qed.

End ObjfunExtras.

(** ** Further properties of the multi-run driver *)

Module DriverExtras.
Import Driver MultiRun.

Lemma append_inj_r (base a b : string) : base +:+ a = base +:+ b -> a = b.
Proof.
  induction base as [|c base IH]; [done|].
  change (String c (base +:+ a) = String c (base +:+ b) -> a = b).
  intros [= Heq]. auto.
Qed.

Lemma append_assoc (a b c : string) : (a +:+ b) +:+ c = a +:+ (b +:+ c).
Proof.
  induction a as [|x a IH]; [done|].
  change (String x ((a +:+ b) +:+ c) = String x (a +:+ (b +:+ c))). by f_equal.
Qed.

Lemma drop_last4_ext (base ext : string) :
  String.length ext = 4%nat -> drop_last4 (base +:+ ext) = base.
Proof.
  intros Hext. unfold drop_last4.
  rewrite HydraulicExtras.length_append, Hext, Nat.add_sub.
  apply HydraulicExtras.substring_prefix.
Qed.

Lemma Qlt_bool_false_le (x y : Q) : Qlt_bool x y = false -> (y <= x)%Q.
Proof.
  unfold Qlt_bool. rewrite negb_false_iff. apply Qle_bool_iff.
Qed.

Section facts.
Context `{GA}.

(** One completed execution: the carried best is replaced only by a
    strictly fitter one, and the rows of the run are appended, tagged
    with the fitness of the carried best. *)
Lemma exec_body_step (execs i : nat) (best : option Individual)
    (stats : list StatRow) (w : World) (b : Individual) (r : list LogRow) :
  optimize_diameters i = Ok (b, r) ->
  exists b' w',
    exec_body execs i (best, stats) w =
      (Ok (Some b', stats ++ map (fun lr => mkStatRow lr (fitness b')) r), w') /\
    files w' = files w /\
    (b' = b \/ best = Some b') /\
    (fitness b' <= fitness b)%Q /\
    (forall cur, best = Some cur -> (fitness b' <= fitness cur)%Q).
Proof.
  intros Hrun. unfold exec_body.
  rewrite bind_eq. cbn [print]. rewrite bind_eq. unfold lift. rewrite Hrun.
  rewrite bind_eq. cbn [print files].
  eexists _, _. split; [reflexivity|]. split; [done|].
  destruct best as [cur|].
  - destruct (Qlt_bool (fitness b) (fitness cur)) eqn:Hlt.
    + split; [by left|]. split; [apply Qle_refl|].
      intros ? [= <-]. apply Qlt_le_weak. by apply ObjfunFacts.Qlt_bool_iff.
    + split; [by right|]. split; [by apply Qlt_bool_false_le|].
      intros ? [= <-]. apply Qle_refl.
  - split; [by left|]. split; [apply Qle_refl|]. done.
Qed.

(** The loop over completed executions. *)
Lemma exec_loop_Ok (execs : nat) (bests : nat -> Individual)
    (logs : nat -> list LogRow) :
  forall (n j : nat) (best : option Individual) (stats : list StatRow) (w : World),
    (forall i, (j <= i < j + n)%nat -> optimize_diameters i = Ok (bests i, logs i)) ->
    exists best' stats' w',
      for_fold (seq j n) (best, stats) (exec_body execs) w =
        (Ok (best', stats'), w') /\
      files w' = files w /\
      (n = 0%nat -> best' = best) /\
      ((1 <= n)%nat ->
       exists b', best' = Some b' /\
         (best = Some b' \/ exists i, (j <= i < j + n)%nat /\ b' = bests i) /\
         (forall cur, best = Some cur -> (fitness b' <= fitness cur)%Q) /\
         (forall i, (j <= i < j + n)%nat -> (fitness b' <= fitness (bests i))%Q)) /\
      map row stats' = map row stats ++ concat (map logs (seq j n)).
Proof.
  induction n as [|n IH]; intros j best stats w Hruns.
  - exists best, stats, w. cbn [seq for_fold map concat].
    rewrite app_nil_r. split; [done|]. split; [done|]. split; [done|].
    split; [lia | done].
  - cbn [seq for_fold]. rewrite bind_eq.
    destruct (exec_body_step execs j best stats w (bests j) (logs j))
      as (b1 & w1 & -> & Hf1 & Hpick & Hle_b & Hle_cur); [apply Hruns; lia|].
    destruct (IH (S j) (Some b1)
                (stats ++ map (fun lr => mkStatRow lr (fitness b1)) (logs j)) w1)
      as (best' & stats' & w' & -> & Hf' & Hzero & Hpos & Hrows).
    { intros i Hi. apply Hruns. lia. }
    exists best', stats', w'. split; [done|]. split; [congruence|].
    split; [lia|]. split.
    + intros _. destruct n as [|n].
      * rewrite (Hzero eq_refl). exists b1. split; [done|]. split.
        { destruct Hpick as [-> | ->]; [right; exists j; split; [lia|done] | by left]. }
        split; [done|]. intros i Hi. assert (i = j) as -> by lia. done.
      * destruct Hpos as (b' & -> & Hfrom & Hle1 & Hlei); [lia|].
        specialize (Hle1 b1 eq_refl).
        exists b'. split; [done|]. split.
        { destruct Hfrom as [[= <-]|(i & Hi & ->)].
          - destruct Hpick as [-> | ->]; [right; exists j; split; [lia|done] | by left].
          - right. exists i. split; [lia|done]. }
        split.
        { intros cur Hcur. eapply Qle_trans; [exact Hle1|]. by apply Hle_cur. }
        intros i Hi. destruct (decide (i = j)) as [->|Hne].
        { eapply Qle_trans; [exact Hle1 | exact Hle_b]. }
        apply Hlei. lia.
    + rewrite Hrows, map_app, map_map. cbn [map concat row].
      rewrite map_id, <- app_assoc. done.
Qed.

End facts.

End DriverExtras.

(** ** Properties of the price table reader and of the random initialiser *)

Module PricesFacts.
Import Prices.

Lemma ofold_app {A T} (l1 l2 : list A) (acc : T) (body : A -> T -> outcome T) :
  ofold (l1 ++ l2) acc body = obind (ofold l1 acc body) (fun acc' => ofold l2 acc' body).
Proof.
  revert acc. induction l1 as [|x l1 IH]; intros acc; simpl; [done|].
  destruct (body x acc); simpl; [apply IH | done..].
Qed.

Lemma foldl_insert_last (l1 l2 : list (Z * Z)) (k v : Z) (m : gmap Z Z) :
  k ∉ l2.*1 ->
  foldl (fun m kv => <[kv.1 := kv.2]> m) m (l1 ++ (k, v) :: l2) !! k = Some v.
Proof.
  intros Hk. rewrite foldl_app. cbn [foldl fst snd].
  generalize (foldl (fun m kv => <[kv.1 := kv.2]> m) m l1). intros m'.
  assert (Hm : <[k := v]> m' !! k = Some v) by apply lookup_insert_eq.
  revert Hm. generalize (<[k := v]> m'). clear m'.
  induction l2 as [|[k' v'] l2 IH]; intros m' Hm; [done|].
  cbn [foldl fst snd]. cbn in Hk. apply not_elem_of_cons in Hk as [Hne Hk].
  apply IH; [done|]. by rewrite lookup_insert_ne.
Qed.

Lemma foldl_insert_dom (l : list (Z * Z)) (m : gmap Z Z) (k : Z) :
  is_Some (foldl (fun m kv => <[kv.1 := kv.2]> m) m l !! k) <->
  is_Some (m !! k) \/ k ∈ l.*1.
Proof.
  revert m. induction l as [|[k' v'] l IH]; intros m; cbn [foldl fmap list_fmap fst snd].
  - rewrite elem_of_nil. tauto.
  - rewrite IH, elem_of_cons, lookup_insert_is_Some.
    destruct (decide (k' = k)) as [->|Hne]; [tauto|].
    split; [intros [[|[]]|]; auto | intros [|[|]]; auto; congruence].
Qed.

Section facts.
Context `{Csv}.

Lemma row_step (row : list string) (kv : Z * Z) (cost : gmap Z Z) :
  denotes row kv ->
  (if (length row =? 2)%nat
   then obind (py_getitem row 0) (fun f0 =>
        obind (py_int f0) (fun k =>
        obind (py_getitem row 1) (fun f1 =>
        obind (py_int f1) (fun v =>
        Ok (<[k := v]> cost)))))
   else Raise (AssertionError "Incorrect number of columns in file"))
  = Ok (<[kv.1 := kv.2]> cost).
Proof.
  intros (a & b & -> & Ha & Hb).
  change (obind (py_int a) (fun k => obind (py_int b) (fun v => Ok (<[k := v]> cost)))
          = Ok (<[kv.1 := kv.2]> cost)).
  rewrite Ha. cbn [obind]. by rewrite Hb.
Qed.

Lemma rows_fold (rows : list (list string)) (pairs : list (Z * Z)) (cost : gmap Z Z) :
  Forall2 denotes rows pairs ->
  ofold rows cost (fun row cost =>
    if (length row =? 2)%nat
    then obind (py_getitem row 0) (fun f0 =>
         obind (py_int f0) (fun k =>
         obind (py_getitem row 1) (fun f1 =>
         obind (py_int f1) (fun v =>
         Ok (<[k := v]> cost)))))
    else Raise (AssertionError "Incorrect number of columns in file"))
  = Ok (foldl (fun m kv => <[kv.1 := kv.2]> m) cost pairs).
Proof.
  intros Hall. revert cost.
  induction Hall as [|row kv rows pairs Hrow _ IH]; intros cost; [done|].
  cbn [ofold foldl]. rewrite (row_step row kv cost Hrow). cbn [obind]. apply IH.
Qed.

(** When every row has two fields that [int] accepts, the table holds
    exactly the diameters that occur in the first column, and each of
    them is priced by the last row that mentions it: a later row
    overrides an earlier one silently. *)
Theorem pipe_price_last_row_wins (filename : string)
    (rows : list (list string)) (pairs : list (Z * Z)) :
  csv_rows filename = Ok rows ->
  Forall2 denotes rows pairs ->
  exists cost, pipe_price filename = Ok cost /\
    (forall k, is_Some (cost !! k) <-> k ∈ pairs.*1) /\
    (forall l1 k v l2, pairs = l1 ++ (k, v) :: l2 -> k ∉ l2.*1 ->
                       cost !! k = Some v).
Proof.
  intros Hrows Hall. unfold pipe_price. rewrite Hrows. cbn [obind].
  rewrite (rows_fold rows pairs ∅ Hall). eexists. split; [done|]. split.
  - intros k. rewrite foldl_insert_dom, lookup_empty.
    split; [intros [[? [=]]|]; done | by right].
  - intros l1 k v l2 -> Hk. by apply foldl_insert_last.
Qed.

(** The first row that does not have exactly two fields aborts the
    reading with the assertion error, provided the rows before it were
    accepted; nothing of the table read so far is returned. *)
Theorem pipe_price_bad_row (filename : string)
    (good : list (list string)) (bad : list string) (rest : list (list string))
    (pairs : list (Z * Z)) :
  csv_rows filename = Ok (good ++ bad :: rest) ->
  Forall2 denotes good pairs ->
  length bad <> 2%nat ->
  pipe_price filename =
  Raise (AssertionError "Incorrect number of columns in file").
Proof.
  intros Hrows Hall Hbad. unfold pipe_price. rewrite Hrows. cbn [obind].
  rewrite ofold_app, (rows_fold good pairs ∅ Hall). cbn [obind ofold].
  by apply Nat.eqb_neq in Hbad as ->.
Qed.

End facts.

Lemma pipe_price_last_row_wins_witness :
  exists cost, @pipe_price Fixtures3.price_file "prices.csv" = Ok cost /\
    (forall k, is_Some (cost !! k) <-> k ∈ [(25, 2); (51, 5); (25, 3)].*1) /\
    (forall l1 k v l2, [(25, 2); (51, 5); (25, 3)] = l1 ++ (k, v) :: l2 ->
                       k ∉ l2.*1 -> cost !! k = Some v).
Proof.
  apply (@pipe_price_last_row_wins Fixtures3.price_file "prices.csv"
           [["25"; "2"]; ["51"; "5"]; ["25"; "3"]]).
  - reflexivity.
  - repeat constructor; by eexists _, _.
Defined.

Lemma pipe_price_bad_row_witness :
  @pipe_price Fixtures3.price_file "broken.csv" =
  Raise (AssertionError "Incorrect number of columns in file").
Proof.
  apply (@pipe_price_bad_row Fixtures3.price_file "broken.csv"
           [["25"; "2"]] ["51"; "5"; "7"] [["76"; "8"]] [(25, 2)]).
  - reflexivity.
  - repeat constructor; by eexists _, _.
  - cbn. lia.
Defined.

End PricesFacts.

Module InitFacts.
Import Init.

Section facts.
Context `{Random}.

(** With a generator that answers within the interval asked for and a
    catalog that is not empty, [init_diam] returns the list it was given
    followed by exactly [dimension] diameters, each of them a key of the
    catalog, having drawn once per diameter. *)
Theorem init_diam_appends_catalog_diameters (x : list Z) (dimension : nat)
    (prices : gmap Z Z) (n : nat) :
  in_range -> prices <> ∅ ->
  exists ys, init_diam x dimension prices n = (Ok (x ++ ys), (n + dimension)%nat) /\
    length ys = dimension /\
    Forall (fun d => is_Some (prices !! d)) ys.
Proof.
  intros Hrand Hne. unfold init_diam, range.
  assert (Hpos : 0 < Z.of_nat (length (Catalog.sorted_keys prices))).
  { rewrite sorted_keys_length. apply map_size_non_empty_iff in Hne. lia. }
  generalize 0%nat at 1. revert x n.
  induction dimension as [|dimension IH]; intros x n k.
  - exists []. rewrite app_nil_r, Nat.add_0_r. by repeat split.
  - cbn [seq for_fold]. rewrite bind_eq, bind_eq. unfold draw at 1.
    destruct (Hrand n 0 (Z.of_nat (length (Catalog.sorted_keys prices))) Hpos)
      as (r & -> & Hr).
    rewrite bind_eq. unfold lift at 1.
    destruct (py_getitem_Ok (Catalog.sorted_keys prices) r) as (d & Hd & _); [lia|].
    rewrite Hd. cbn [mret SM_ret].
    destruct (IH (x ++ [d]) (S n) (S k)) as (ys & -> & Hlen & Hkeys).
    exists (d :: ys). rewrite <- app_assoc. split; [f_equal; lia|].
    split; [simpl; lia|]. constructor; [|done].
    apply sorted_keys_elem. by eapply py_getitem_elem.
Qed.

End facts.

Lemma round_robin_in_range : @in_range Fixtures3.round_robin.
Proof.
  intros n a b Hab. cbn. destruct (Z.ltb_spec a b); [|lia].
  eexists. split; [done|].
  pose proof (Z.mod_pos_bound (Z.of_nat n) (b - a)). lia.
Qed.

Lemma init_diam_appends_catalog_diameters_witness :
  exists ys,
    @init_diam Fixtures3.round_robin [102] 3 Fixtures.two_loop_prices 0%nat =
      (Ok ([102] ++ ys), (0 + 3)%nat) /\
    length ys = 3%nat /\
    Forall (fun d => is_Some (Fixtures.two_loop_prices !! d)) ys.
Proof.
  apply (@init_diam_appends_catalog_diameters Fixtures3.round_robin [102] 3
           Fixtures.two_loop_prices 0).
  - exact round_robin_in_range.
  - vm_compute. congruence.
Defined.

End InitFacts.

(** ** Properties of the convergence data *)

Module PlotFacts.
Import Plot.

Lemma py_slice_lookup {A} (l : list A) (ini end_ i : nat) :
  (i < end_ - ini)%nat -> py_slice l ini end_ !! i = l !! (ini + i)%nat.
Proof. intros Hi. unfold py_slice. by rewrite lookup_take_lt, lookup_drop. Qed.

Lemma py_slice_lookup_Some {A} (l : list A) (ini end_ i : nat) (x : A) :
  py_slice l ini end_ !! i = Some x -> (i < end_ - ini)%nat /\ l !! (ini + i)%nat = Some x.
Proof.
  unfold py_slice. intros Hx. apply lookup_take_Some in Hx as [Hx Hi].
  by rewrite lookup_drop in Hx.
Qed.

Lemma py_slice_length {A} (l : list A) (ini end_ : nat) :
  length (py_slice l ini end_) = ((end_ - ini) `min` (length l - ini))%nat.
Proof. unfold py_slice. by rewrite length_take, length_drop. Qed.

(** The choice made at one position. *)
Lemma lower_to_spec (y best : list Q) :
  (length y <= length best)%nat ->
  exists best', lower_to y best = Ok best' /\
    length best' = length best /\
    forall i b, best !! i = Some b ->
      best' !! i = Some (match y !! i with
                         | Some yi => if Qlt_bool yi b then yi else b
                         | None => b
                         end).
Proof.
  intros Hlen. unfold lower_to, range.
  assert (Hgen : forall n, (n <= length y)%nat ->
    exists best', ofold (seq 0 n) best (fun i best =>
        obind (py_getitem y (Z.of_nat i)) (fun yi =>
        obind (py_getitem best (Z.of_nat i)) (fun bi =>
        if Qlt_bool yi bi then py_setitem best i yi else Ok best))) = Ok best' /\
      length best' = length best /\
      forall i b, best !! i = Some b ->
        best' !! i = Some (if (i <? n)%nat
                           then match y !! i with
                                | Some yi => if Qlt_bool yi b then yi else b
                                | None => b
                                end
                           else b)).
  { induction n as [|n IH]; intros Hn.
    - exists best. by repeat split.
    - destruct IH as (bestn & Hrun & Hlenn & Hlook); [lia|].
      rewrite seq_S, PricesFacts.ofold_app, Hrun. cbn [obind ofold "+"%nat].
      destruct (lookup_lt_is_Some_2 y n) as [yn Hyn]; [lia|].
      destruct (lookup_lt_is_Some_2 best n) as [bn Hbn]; [lia|].
      pose proof (Hlook n bn Hbn) as Hbn'. rewrite Nat.ltb_irrefl in Hbn'.
      rewrite (py_getitem_nat _ _ _ Hyn). cbn [obind].
      rewrite (py_getitem_nat _ _ _ Hbn'). cbn [obind].
      destruct (Qlt_bool yn bn) eqn:Hlt.
      + unfold py_setitem. destruct (Nat.ltb_spec n (length bestn)); [|lia].
        eexists. split; [done|]. split; [by rewrite length_insert|].
        intros i b Hb. destruct (decide (i = n)) as [->|Hne].
        * rewrite list_lookup_insert_eq by lia.
          destruct (Nat.ltb_spec n (S n)); [|lia].
          rewrite Hyn. simplify_eq. by rewrite Hlt.
        * rewrite list_lookup_insert_ne by done. rewrite (Hlook i b Hb).
          destruct (Nat.ltb_spec i n), (Nat.ltb_spec i (S n)); try lia; done.
      + exists bestn. split; [done|]. split; [done|].
        intros i b Hb. rewrite (Hlook i b Hb).
        destruct (decide (i = n)) as [->|Hne].
        * rewrite Nat.ltb_irrefl. destruct (Nat.ltb_spec n (S n)); [|lia].
          rewrite Hyn. simplify_eq. by rewrite Hlt.
        * destruct (Nat.ltb_spec i n), (Nat.ltb_spec i (S n)); try lia; done. }
  destruct (Hgen (length y)) as (best' & Hrun & Hlen' & Hlook); [lia|].
  exists best'. split; [done|]. split; [done|].
  intros i b Hb. rewrite (Hlook i b Hb).
  destruct (Nat.ltb_spec i (length y)) as [Hi|Hi]; [done|].
  by rewrite (lookup_ge_None_2 y i).
Qed.

Lemma envelope_spec (runs gens : nat) (rmin : list Q) :
  exists best, envelope runs gens rmin = Ok best /\
    length best = ((gens + 1) `min` length rmin)%nat /\
    forall i b, best !! i = Some b ->
      (exists r, (r = 0 \/ r < runs)%nat /\
                 rmin !! (r * (gens + 1) + i)%nat = Some b) /\
      (forall r v, (r < runs)%nat ->
                   rmin !! (r * (gens + 1) + i)%nat = Some v -> (b <= v)%Q).
Proof.
  unfold envelope, range. cbv zeta.
  set (best0 := py_slice rmin 0 (gens + 1)).
  assert (Hlen0 : length best0 = ((gens + 1) `min` length rmin)%nat)
    by (subst best0; rewrite py_slice_length; lia).
  assert (Hgen : forall n,
    exists best, ofold (seq 0 n) (best0, 0%nat, (gens + 1)%nat)
        (fun r '(best, ini, end_) =>
           obind (lower_to (py_slice rmin ini end_) best) (fun best' =>
           Ok (best', (ini + (gens + 1))%nat, (end_ + (gens + 1))%nat)))
      = Ok (best, (n * (gens + 1))%nat, (n * (gens + 1) + (gens + 1))%nat) /\
      length best = length best0 /\
      forall i b, best !! i = Some b ->
        (exists r, (r = 0 \/ r < n)%nat /\
                   rmin !! (r * (gens + 1) + i)%nat = Some b) /\
        (forall r v, (r < n)%nat ->
                     rmin !! (r * (gens + 1) + i)%nat = Some v -> (b <= v)%Q)).
  { induction n as [|n IH].
    - exists best0. split; [done|]. split; [done|]. intros i b Hb. split; [|lia].
      exists 0%nat. split; [by left|].
      subst best0. by apply py_slice_lookup_Some in Hb as [_ Hb].
    - destruct IH as (bestn & Hrun & Hlenn & Hinv).
      rewrite seq_S, PricesFacts.ofold_app, Hrun. cbn [obind ofold "+"%nat].
      set (y := py_slice rmin (n * (gens + 1)) (n * (gens + 1) + (gens + 1))).
      assert (Hy : (length y <= length bestn)%nat).
      { subst y. rewrite py_slice_length, Hlenn, Hlen0. lia. }
      destruct (lower_to_spec y bestn Hy) as (best' & -> & Hlen' & Hlook).
      cbn [obind]. exists best'. split; [f_equal; f_equal; [f_equal|]; lia|].
      split; [congruence|].
      intros i b' Hb'.
      destruct (lookup_lt_is_Some_2 bestn i) as [b Hb].
      { rewrite <- Hlen'. by eapply lookup_lt_Some. }
      rewrite (Hlook i b Hb) in Hb'. injection Hb' as <-.
      destruct (Hinv i b Hb) as [(r & Hr & Hrb) Hmin].
      assert (Hi : (i < gens + 1)%nat).
      { apply lookup_lt_Some in Hb. lia. }
      assert (Hyi : y !! i = rmin !! (n * (gens + 1) + i)%nat)
        by (subst y; apply py_slice_lookup; lia).
      destruct (y !! i) as [yi|] eqn:Hyi'.
      + destruct (Qlt_bool yi b) eqn:Hlt.
        * split; [exists n; split; [right; lia | done]|].
          intros r' v Hr' Hv. destruct (decide (r' = n)) as [->|Hne].
          { rewrite <- Hyi in Hv. injection Hv as <-. apply Qle_refl. }
          apply Qle_trans with b.
          { apply Qlt_le_weak. by apply ObjfunFacts.Qlt_bool_iff. }
          apply (Hmin r'); [lia | done].
        * split; [exists r; split; [lia | done]|].
          intros r' v Hr' Hv. destruct (decide (r' = n)) as [->|Hne].
          { rewrite <- Hyi in Hv. injection Hv as <-.
            by apply DriverExtras.Qlt_bool_false_le. }
          apply (Hmin r'); [lia | done].
      + split; [exists r; split; [lia | done]|].
        intros r' v Hr' Hv. destruct (decide (r' = n)) as [->|Hne].
        { rewrite <- Hyi in Hv. done. }
        apply (Hmin r'); [lia | done]. }
  destruct (Hgen runs) as (best & -> & Hlen & Hinv).
  exists best. split; [done|]. split; [congruence | done].
Qed.

(** The curve after the loop over the runs never fails to be computed;
    it has one point per generation of the first run; each point is a
    value of the column at that generation in some run, and no run has a
    smaller value at that generation. *)
Theorem envelope_is_minimum_over_runs (runs gens : nat) (rmin : list Q) :
  exists best, envelope runs gens rmin = Ok best /\
    length best = ((gens + 1) `min` length rmin)%nat /\
    forall i b, best !! i = Some b ->
      (exists r, (r = 0 \/ r < runs)%nat /\
                 rmin !! (r * (gens + 1) + i)%nat = Some b) /\
      (forall r v, (r < runs)%nat ->
                   rmin !! (r * (gens + 1) + i)%nat = Some v -> (b <= v)%Q).
Proof. apply envelope_spec. Qed.

Lemma convergence_spec_no_rows (runs gens : nat) :
  convergence runs gens [] = Raise IndexError.
Proof.
  unfold convergence. cbn [map].
  destruct (envelope_spec runs gens []) as (best & -> & Hlen & _).
  cbn [obind]. destruct best; [done|]. simpl in Hlen. lia.
Qed.

(** On a statistics file without a single row, as the driver writes it
    when asked for no execution, [plot_convergence] fails with
    [IndexError] at [best[-1]]. *)
Theorem convergence_no_rows (runs gens : nat) :
  convergence runs gens [] = Raise IndexError.
Proof. apply convergence_spec_no_rows. Qed.

Lemma py_getitem_last {A} (l : list A) (x : A) :
  last l = Some x -> py_getitem l (-1) = Ok x.
Proof.
  intros Hlast. rewrite last_lookup in Hlast.
  pose proof (lookup_lt_Some _ _ _ Hlast) as Hlt.
  destruct (py_getitem_Ok l (-1)) as (y & Hy & Hl); [lia|].
  destruct (Z.ltb_spec (-1) 0); [|lia].
  replace (Z.to_nat (-1 + Z.of_nat (length l))) with (pred (length l)) in Hl by lia.
  congruence.
Qed.

(** On a statistics file with at least one row the data are computed:
    the curve has as many points as there are generations on the axis,
    and the value annotated on the chart is the last point of the
    curve. *)
Theorem convergence_annotates_last_point (runs gens : nat)
    (rows : list Driver.StatRow) :
  rows <> [] ->
  exists g best a, convergence runs gens rows = Ok (g, best, a) /\
    length g = length best /\ last best = Some a.
Proof.
  intros Hne. unfold convergence.
  destruct (envelope_spec runs gens (map Driver.bestFit rows))
    as (best & -> & Hlen & _).
  cbn [obind]. rewrite length_map in Hlen.
  assert (Hrows : (1 <= length rows)%nat) by (destruct rows; [done | simpl; lia]).
  set (g := py_slice (map (fun sr => Driver.gen (Driver.row sr)) rows) 0 (gens + 1)).
  assert (Hg : length g = length best).
  { subst g. rewrite py_slice_length, length_map. lia. }
  destruct (last best) as [a|] eqn:Ha.
  2: { apply last_None in Ha. subst best. simpl in Hlen. lia. }
  destruct (last g) as [gl|] eqn:Hgl.
  2: { apply last_None in Hgl. rewrite Hgl in Hg. simpl in Hg. lia. }
  rewrite (py_getitem_last best a Ha). cbn [obind].
  rewrite (py_getitem_last g gl Hgl). cbn [obind].
  by exists g, best, a.
Qed.

Lemma convergence_annotates_last_point_witness :
  exists g best a,
    convergence 2 1 (map (fun lr => Driver.mkStatRow lr 5000)
                       (Fixtures.first_log ++ Fixtures.first_log))
      = Ok (g, best, a) /\
    length g = length best /\ last best = Some a.
Proof.
  apply (convergence_annotates_last_point 2 1).
  vm_compute. congruence.
Defined.

End PlotFacts.

(** ** Properties of the report and of the one-call simulation *)

Module ReportFacts.
Import Hydraulic SimSpec HydraulicFacts Report.

Lemma sorted_ids_elem (d : gmap string (gmap string Q)) (id : string) :
  id ∈ sorted_ids d <-> is_Some (d !! id).
Proof.
  unfold sorted_ids. rewrite (merge_sort_Permutation string_le _), elem_of_elements.
  apply elem_of_dom.
Qed.

Lemma sorted_ids_length (d : gmap string (gmap string Q)) :
  length (sorted_ids d) = size d.
Proof.
  unfold sorted_ids. rewrite (Permutation_length (merge_sort_Permutation string_le _)).
  by rewrite <- size_dom.
Qed.

Lemma for_each_print (f : string -> string) (body : string -> M unit) (l : list string) :
  (forall id w, id ∈ l ->
     body id w = (Ok tt, mkWorld (self w) (calls w) (stdout w ++ [f id]))) ->
  forall w, for_each l body w =
            (Ok tt, mkWorld (self w) (calls w) (stdout w ++ map f l)).
Proof.
  induction l as [|id l IH]; intros Hbody [n h out].
  - cbn. by rewrite app_nil_r.
  - cbn [for_each]. rewrite bind_eq, Hbody by apply list_elem_of_here.
    rewrite IH by (intros; apply Hbody; by apply list_elem_of_further).
    cbn. by rewrite <- app_assoc.
Qed.

Section facts.
Context `{Env} `{Formatter}.

Lemma node_dict_complete (h : list ENcall) (i : nat) :
  exists vs, get_values (node_dict h i) node_keys = Ok vs.
Proof. eexists. by vm_compute. Qed.

Lemma link_dict_complete (h : list ENcall) (i : nat) :
  exists vs, get_values (link_dict h i) link_keys = Ok vs.
Proof. eexists. by vm_compute. Qed.

Lemma nodes_pass_built (h : list ENcall) (l : list nat) (n : Network) :
  built_by_simulate n ->
  built_by_simulate (foldl (fun n i => node_row h i n) n l).
Proof.
  revert n. induction l as [|i l IH]; intros n Hn; [done|].
  cbn [foldl]. apply IH. destruct Hn as [Hnodes Hlinks]. split; [|done].
  intros id v. cbn [node_row node_values]. rewrite lookup_insert.
  case_decide; [intros [= <-]; eauto | apply Hnodes].
Qed.

Lemma links_pass_built (h : list ENcall) (l : list nat) (n : Network) :
  built_by_simulate n ->
  built_by_simulate (foldl (fun n i => link_row h i n) n l).
Proof.
  revert n. induction l as [|i l IH]; intros n Hn; [done|].
  cbn [foldl]. apply IH. destruct Hn as [Hnodes Hlinks]. split; [done|].
  intros id v. cbn [link_row link_values]. rewrite lookup_insert.
  case_decide; [intros [= <-]; eauto | apply Hlinks].
Qed.

Lemma simulate_loop_built (fuel : nat) :
  forall (w w' : World) (N L : nat),
    nodes (self w) = Some N -> links (self w) = Some L ->
    built_by_simulate (self w) ->
    simulate_loop fuel w = (Ok tt, w') ->
    built_by_simulate (self w').
Proof.
  induction fuel as [|fuel IH]; intros w w' N L HN HL Hb Hrun; [done|].
  rewrite (simulate_loop_step fuel w N L HN HL) in Hrun. cbv zeta in Hrun.
  pose proof (period_appended (calls w ++ [ENrunH]) N L (self w)) as Hone.
  pose proof (links_pass_built (calls w ++ [ENrunH]) (range L) _
                (nodes_pass_built (calls w ++ [ENrunH]) (range N) _ Hb)) as Hb1.
  destruct (ENnextH_tstep (calls w ++ [ENrunH]) <=? 0).
  - by injection Hrun as <-.
  - eapply (IH _ w' N L); [| | |exact Hrun]; cbn [self].
    + by rewrite (app_nodes _ _ _ _ _ Hone).
    + by rewrite (app_links _ _ _ _ _ Hone).
    + done.
Qed.

(** What [show_properties] does on an object whose dicts were filled by
    [simulate]: it prints two header lines and one line per distinct
    node id, then two header lines and one line per distinct link id; it
    calls no toolkit function and leaves the object as it is. *)
Lemma show_properties_spec (w : World) :
  built_by_simulate (self w) ->
  exists node_lines link_lines,
    show_properties w =
      (Ok tt, mkWorld (self w) (calls w)
         (stdout w ++
          [newline +:+ "Network nodes";
           "Node    Elevation Pressure     Head Base-Dem   Demand  Pattern  Quality "]
          ++ node_lines ++
          [newline +:+ "Network junctions";
           "Link     Diameter   Length Velocity"]
          ++ link_lines)) /\
    length node_lines = size (node_values (self w)) /\
    length link_lines = size (link_values (self w)).
Proof.
  intros [Hnodes Hlinks]. destruct w as [n h out]. cbn [self] in *.
  set (fnode := fun id =>
    match n.(node_values) !! id with
    | Some v => match get_values v node_keys with
                | Ok vs => format_node id vs
                | _ => ""
                end
    | None => ""
    end).
  set (flink := fun id =>
    match n.(link_values) !! id with
    | Some v => match get_values v link_keys with
                | Ok vs => format_link id vs
                | _ => ""
                end
    | None => ""
    end).
  exists (map fnode (sorted_ids (node_values n))),
         (map flink (sorted_ids (link_values n))).
  split; [|by rewrite !length_map, !sorted_ids_length].
  unfold show_properties.
  rewrite bind_eq. cbn [get_self self].
  rewrite bind_eq. cbn [print self calls stdout].
  rewrite bind_eq. cbn [print self calls stdout].
  rewrite bind_eq.
  rewrite (for_each_print fnode).
  2: { intros id w Hid. apply sorted_ids_elem in Hid as [v Hv].
       destruct (Hnodes id v Hv) as (h' & i & ->).
       destruct (node_dict_complete h' i) as [vs Hvs].
       rewrite bind_eq. unfold lift at 1, dict_get. rewrite Hv.
       rewrite bind_eq. unfold lift. rewrite Hvs.
       subst fnode. cbn beta. by rewrite Hv, Hvs. }
  cbn [self calls stdout].
  rewrite bind_eq. cbn [print self calls stdout].
  rewrite bind_eq. cbn [print self calls stdout].
  rewrite (for_each_print flink).
  2: { intros id w Hid. apply sorted_ids_elem in Hid as [v Hv].
       destruct (Hlinks id v Hv) as (h' & i & ->).
       destruct (link_dict_complete h' i) as [vs Hvs].
       rewrite bind_eq. unfold lift at 1, dict_get. rewrite Hv.
       rewrite bind_eq. unfold lift. rewrite Hvs.
       subst flink. cbn beta. by rewrite Hv, Hvs. }
  cbn [self calls stdout]. by rewrite <- !app_assoc.
Qed.

Theorem show_properties_prints_one_line_per_id (w : World) :
  built_by_simulate (self w) ->
  exists node_lines link_lines,
    show_properties w =
      (Ok tt, mkWorld (self w) (calls w)
         (stdout w ++
          [newline +:+ "Network nodes";
           "Node    Elevation Pressure     Head Base-Dem   Demand  Pattern  Quality "]
          ++ node_lines ++
          [newline +:+ "Network junctions";
           "Link     Diameter   Length Velocity"]
          ++ link_lines)) /\
    length node_lines = size (node_values (self w)) /\
    length link_lines = size (link_values (self w)).
Proof. apply show_properties_spec. Qed.

(** The world after the first three statements of [simulate_network]. *)
Lemma opened_eq (dir infile : string) (w : World) :
  let n0 := Network_init dir infile in
  let fi := dir +:+ inputfile n0 in
  let fo := dir +:+ outputfile n0 in
  let h1 := calls w ++ (if isfile fi then [ENopen fi fo; ENopenH] else []) in
  let out1 := stdout w ++
              (if isfile fi then [] else ["File: " +:+ fi +:+ " does not exist"]) in
  (open_network ;; initialize)
    (mkWorld n0 (calls w) (stdout w)) =
  (Ok tt, mkWorld (set_counts (ENgetcount h1 EN_NODECOUNT)
                     (ENgetcount h1 EN_LINKCOUNT) n0) h1 out1).
Proof.
  cbv zeta. rewrite bind_eq. unfold open_network, check_file.
  rewrite !bind_eq. cbn [get_self self mret SM_ret].
  rewrite !bind_eq. cbn [get_self self mret SM_ret calls stdout Network_init path inputfile].
  destruct (isfile _).
  - rewrite !bind_eq. cbn [en_call self calls stdout mret SM_ret].
    unfold initialize. rewrite bind_eq. cbn [get_calls calls update_self self stdout].
    by rewrite <- !app_assoc, app_nil_r.
  - cbn [mret SM_ret].
    unfold initialize. rewrite bind_eq. cbn [get_calls calls update_self self stdout].
    by rewrite app_nil_r.
Qed.

Lemma simulate_network_start (fuel : nat) (dir infile : string)
    (d : option (list Z)) (w : World) (k : M unit) :
  (update_self (fun _ => Network_init dir infile) ;;
   open_network ;; initialize ;; k) w = k (opened dir infile w).
Proof.
  rewrite bind_eq. cbn [update_self].
  change (open_network ;; initialize ;; k)
    with (open_network ≫= (fun _ => initialize ≫= fun _ => k)).
  unfold opened. pose proof (opened_eq dir infile w) as Heq. cbv zeta in Heq.
  rewrite Heq. cbn [snd].
  rewrite bind_eq in Heq. rewrite bind_eq.
  destruct (open_network _) as [[b| |] w1]; [|done..].
  rewrite bind_eq, Heq. done.
Qed.

(** A list of diameters whose length differs from the link count makes
    [simulate_network] fail at its own check, after the toolkit has been
    opened and before any diameter is written; the toolkit is left
    open. *)
Theorem simulate_network_wrong_length (fuel : nat) (dir infile : string)
    (ds : list Z) (w : World) :
  links (self (opened dir infile w)) <> Some (length ds) ->
  simulate_network fuel dir infile (Some ds) w =
  (Raise (AssertionError "Diameters don't match"), opened dir infile w).
Proof.
  intros Hne. unfold simulate_network.
  rewrite (simulate_network_start fuel dir infile (Some ds)).
  rewrite bind_eq, bind_eq. cbn [get_self].
  rewrite bind_eq. by rewrite bool_decide_eq_false_2.
Qed.

(** On a network of more than 256 links, a list with one diameter per
    link passes the check of [simulate_network], which compares by
    value, and is then rejected by the check of [change_diameters],
    which compares by identity; the toolkit is left open. *)
Theorem simulate_network_large_network (fuel : nat) (dir infile : string)
    (ds : list Z) (w : World) :
  links (self (opened dir infile w)) = Some (length ds) ->
  (256 < length ds)%nat ->
  simulate_network fuel dir infile (Some ds) w =
  (Raise (AssertionError "The number of diameters and pipes don't match"),
   opened dir infile w).
Proof.
  intros Heq Hbig. unfold simulate_network.
  rewrite (simulate_network_start fuel dir infile (Some ds)).
  rewrite bind_eq, bind_eq. cbn [get_self].
  rewrite bind_eq. rewrite bool_decide_eq_true_2 by done. cbn [mret SM_ret].
  rewrite change_diameters_mismatch; [done|].
  rewrite Heq. apply not_true_is_false. rewrite len_is_links_true. lia.
Qed.

(** Without diameters, and when the engine ends the run within the
    fuel, [simulate_network] opens the toolkit (when the file exists),
    initialises the solver once, advances it once per period, closes
    solver and toolkit, and only then prints: one line per distinct
    node id and link id besides the four header lines. *)
Theorem simulate_network_session (fuel : nat) (dir infile : string)
    (w : World) (hs : list (list ENcall)) :
  periods fuel (calls (opened dir infile w) ++ [ENinitH EN_NOSAVE]) = Some hs ->
  exists w', simulate_network fuel dir infile None w = (Ok tt, w') /\
    calls w' = calls (opened dir infile w) ++ [ENinitH EN_NOSAVE]
                 ++ period_calls (length hs) ++ [ENcloseH; ENclose] /\
    length (stdout w') =
      (length (stdout (opened dir infile w)) + 4
       + size (node_values (self w')) + size (link_values (self w')))%nat.
Proof.
  intros Hper. unfold simulate_network.
  rewrite (simulate_network_start fuel dir infile None).
  pose proof (opened_eq dir infile w) as Hopen. cbv zeta in Hopen.
  unfold opened in *. rewrite Hopen in *. cbn [snd] in *.
  set (w1 := mkWorld _ _ _) in *.
  assert (HN : nodes (self w1) = Some (ENgetcount (calls w1) EN_NODECOUNT)) by done.
  assert (HL : links (self w1) = Some (ENgetcount (calls w1) EN_LINKCOUNT)) by done.
  pose proof (simulate_spec fuel w1 _ _ HN HL) as Hspec. rewrite Hper in Hspec.
  destruct Hspec as (Hne & w2 & Hsim & Happ & Hout).
  destruct (HydraulicExtras.simulate_loop_trace fuel
              (mkWorld (reset_results (self w1)) (calls w1 ++ [ENinitH EN_NOSAVE])
                 (stdout w1)) _ _ hs HN HL Hper)
    as (w2' & h & n0 & Hrun & Hcalls & _ & _).
  assert (w2' = w2) as ->.
  { unfold simulate in Hsim. rewrite bind_eq in Hsim. cbn [en_call] in Hsim.
    rewrite bind_eq in Hsim. cbn [update_self self calls stdout] in Hsim.
    rewrite bind_eq, Hrun, bind_eq in Hsim. cbn [get_self] in Hsim.
    by injection Hsim. }
  assert (Hbuilt : built_by_simulate (self w2)).
  { apply (simulate_loop_built fuel
             (mkWorld (reset_results (self w1)) (calls w1 ++ [ENinitH EN_NOSAVE])
                (stdout w1)) w2 _ _ HN HL); [|exact Hrun].
    split; intros id v; cbn; by rewrite lookup_empty. }
  rewrite bind_eq. cbn [mret SM_ret]. rewrite bind_eq, Hsim.
  rewrite bind_eq. unfold close_network. rewrite bind_eq.
  cbn [en_call self calls stdout].
  destruct (show_properties_spec
              (mkWorld (self w2) ((calls w2 ++ [ENcloseH]) ++ [ENclose]) (stdout w2)))
    as (nl & ll & -> & Hnl & Hll); [done|].
  eexists. split; [reflexivity|]. cbn [calls stdout self] in *. split.
  - rewrite Hcalls, <- !app_assoc. done.
  - rewrite !length_app, Hout, Hnl, Hll. cbn [length]. lia.
Qed.

End facts.

Lemma simulated_once_built :
  @built_by_simulate (Fixtures.one_pipe 50) (self Fixtures.simulated_once).
Proof.
  assert (Hrun : @simulate_loop (Fixtures.one_pipe 50) 3
            (mkWorld (reset_results (self (Fixtures.opened 50)))
               (calls (Fixtures.opened 50) ++ [ENinitH EN_NOSAVE])
               (stdout (Fixtures.opened 50)))
          = (Ok tt, Fixtures.simulated_once)) by (vm_compute; reflexivity).
  apply (@simulate_loop_built (Fixtures.one_pipe 50) 3
           (mkWorld (reset_results (self (Fixtures.opened 50)))
              (calls (Fixtures.opened 50) ++ [ENinitH EN_NOSAVE])
              (stdout (Fixtures.opened 50)))
           Fixtures.simulated_once 2 1); [reflexivity | reflexivity | | exact Hrun].
  split; intros id v Hv;
    change ((∅ : gmap string (gmap string Q)) !! id = Some v) in Hv;
    by rewrite lookup_empty in Hv.
Qed.

Lemma show_properties_prints_one_line_per_id_witness :
  exists node_lines link_lines,
    @show_properties Fixtures4.id_only Fixtures.simulated_once =
      (Ok tt, mkWorld (self Fixtures.simulated_once) (calls Fixtures.simulated_once)
         (stdout Fixtures.simulated_once ++
          [newline +:+ "Network nodes";
           "Node    Elevation Pressure     Head Base-Dem   Demand  Pattern  Quality "]
          ++ node_lines ++
          [newline +:+ "Network junctions";
           "Link     Diameter   Length Velocity"]
          ++ link_lines)) /\
    length node_lines = size (node_values (self Fixtures.simulated_once)) /\
    length link_lines = size (link_values (self Fixtures.simulated_once)).
Proof.
  apply (@show_properties_prints_one_line_per_id (Fixtures.one_pipe 50)
           Fixtures4.id_only Fixtures.simulated_once).
  exact simulated_once_built.
Defined.

Lemma simulate_network_wrong_length_witness :
  @simulate_network (Fixtures.one_pipe 50) Fixtures4.id_only 3 "data/" "OnePipe.inp"
    (Some [51; 25]) Fixtures4.nothing_yet =
  (Raise (AssertionError "Diameters don't match"),
   @opened (Fixtures.one_pipe 50) "data/" "OnePipe.inp" Fixtures4.nothing_yet).
Proof.
  apply (@simulate_network_wrong_length (Fixtures.one_pipe 50) Fixtures4.id_only
           3 "data/" "OnePipe.inp" [51; 25] Fixtures4.nothing_yet).
  vm_compute. congruence.
Defined.

Lemma simulate_network_large_network_witness :
  @simulate_network Fixtures4.many_pipes Fixtures4.id_only 3 "data/" "Big.inp"
    (Some (replicate 257 100)) Fixtures4.nothing_yet =
  (Raise (AssertionError "The number of diameters and pipes don't match"),
   @opened Fixtures4.many_pipes "data/" "Big.inp" Fixtures4.nothing_yet).
Proof.
  apply (@simulate_network_large_network Fixtures4.many_pipes Fixtures4.id_only
           3 "data/" "Big.inp" (replicate 257 100) Fixtures4.nothing_yet).
  - by vm_compute.
  - rewrite length_replicate. lia.
Defined.

Lemma simulate_network_session_witness :
  exists w', Fixtures4.one_call = (Ok tt, w') /\
    calls w' =
      calls (@opened (Fixtures.one_pipe 50) "data/" "OnePipe.inp" Fixtures4.nothing_yet)
        ++ [ENinitH EN_NOSAVE] ++ period_calls 1 ++ [ENcloseH; ENclose] /\
    length (stdout w') =
      (length (stdout (@opened (Fixtures.one_pipe 50) "data/" "OnePipe.inp"
                         Fixtures4.nothing_yet)) + 4
       + size (node_values (self w')) + size (link_values (self w')))%nat.
Proof.
  apply (@simulate_network_session (Fixtures.one_pipe 50) Fixtures4.id_only 3
           "data/" "OnePipe.inp" Fixtures4.nothing_yet
           [[ENopen "data/OnePipe.inp" "data/.inp.rpt"; ENopenH;
             ENinitH EN_NOSAVE; ENrunH]]).
  reflexivity.
Defined.

End ReportFacts.


(** ** The driver with the convergence data of plot.py *)

Module DriverPlot.
Import Driver Plot MultiRun.

Lemma ext_ne (base a b : string) : a <> b -> base +:+ a <> base +:+ b.
Proof. intros Hne Heq. by apply DriverExtras.append_inj_r in Heq. Qed.

Lemma concat_nonempty {A} (ls : list (list A)) (l : list A) :
  l ∈ ls -> l <> [] -> concat ls <> [].
Proof.
  induction 1 as [l ls|l l' ls _ IH]; intros Hne; cbn [concat].
  - destruct l; [done|]. discriminate.
  - intros Happ. apply app_eq_nil in Happ as [_ Hnil]. by apply IH.
Qed.

Lemma py_getitem_head {A} (x : A) (l : list A) : py_getitem (x :: l) 0 = Ok x.
Proof. apply (py_getitem_nat (x :: l) 0 x). reflexivity. Qed.

(** When one of the locations reaches the last point, the tick marks
    are computed. *)
Lemma new_ticks_Ok (loc : list Q) (v : Q) :
  Exists (fun t => (v <= t)%Q) loc -> exists ts, new_ticks loc v = Ok ts.
Proof.
  intros Hex. unfold new_ticks.
  set (nloc := merge_sort Qle (filter (fun i => (v <= i)%Q) loc)).
  assert (Hin : exists t, t ∈ nloc).
  { apply Exists_exists in Hex as (t & Ht & Hvt). exists t.
    subst nloc. rewrite merge_sort_Permutation.
    by apply list_elem_of_filter. }
  destruct nloc as [|first rest]; [destruct Hin as [t Ht]; by apply elem_of_nil in Ht|].
  rewrite py_getitem_head. cbn [obind]. by eexists.
Qed.

Section facts.
Context `{GA}.

(** [plot_convergence] on a table without rows: the empty generation
    axis is printed, then [best[-1]] fails. *)
Lemma plot_convergence_no_rows (runs gens : nat) (name : string) (w : World) :
  files w !! name = Some (Csv []) ->
  plot_convergence runs gens name w =
  (Raise IndexError, mkWorld (files w) (stdout w ++ [Generations []])).
Proof.
  intros Hfile. unfold plot_convergence.
  rewrite bind_eq. unfold read_stats at 1. rewrite Hfile. cbn [map].
  rewrite bind_eq. cbn [print].
  destruct (PlotFacts.envelope_spec runs gens []) as (best & Henv & Hlen & _).
  rewrite lift_bind, Henv.
  destruct best; [|simpl in Hlen; lia].
  unfold py_slice. rewrite drop_nil, take_nil. by rewrite lift_bind.
Qed.

(** [plot_convergence] on a table with rows, when the figure can be
    saved and the tick locations reach the last point of the curve. *)
Lemma plot_convergence_rows (runs gens : nat) (name : string)
    (rows : list StatRow) (w : World) :
  files w !! name = Some (Csv rows) -> rows <> [] -> ticks_reach ->
  writable (drop_last4 name +:+ ".png") = true ->
  plot_convergence runs gens name w =
  (Ok tt,
   mkWorld (<[drop_last4 name +:+ ".png" := Figure]> (files w))
     (stdout w ++
      [Generations (py_slice (map (fun sr => gen (row sr)) rows) 0 (gens + 1))])).
Proof.
  intros Hfile Hne Hticks Hw. unfold plot_convergence.
  rewrite bind_eq. unfold read_stats at 1. rewrite Hfile.
  rewrite !map_map. cbn [fst snd].
  rewrite bind_eq. cbn [print].
  destruct (PlotFacts.envelope_spec runs gens (map bestFit rows))
    as (best & Henv & Hlen & _).
  change (fun x : StatRow => bestFit x) with bestFit.
  rewrite lift_bind, Henv. rewrite length_map in Hlen.
  assert (Hrows : (1 <= length rows)%nat) by (destruct rows; [done | simpl; lia]).
  set (g := py_slice (map (fun sr => gen (row sr)) rows) 0 (gens + 1)).
  assert (Hg : length g = length best).
  { subst g. rewrite PlotFacts.py_slice_length, length_map. lia. }
  destruct (last best) as [a|] eqn:Ha.
  2: { apply last_None in Ha. subst best. simpl in Hlen. lia. }
  destruct (last g) as [gl|] eqn:Hgl.
  2: { apply last_None in Hgl. rewrite Hgl in Hg. simpl in Hg. lia. }
  rewrite lift_bind, (PlotFacts.py_getitem_last best a Ha).
  rewrite lift_bind, (PlotFacts.py_getitem_last g gl Hgl).
  destruct (new_ticks_Ok (yticks g best) a (Hticks g best a Ha)) as [ts Hts].
  rewrite lift_bind, Hts.
  unfold savefig. cbn [files stdout]. by rewrite Hw.
Qed.

(** The driver when no execution is asked for. *)
Lemma zero_executions (gens : nat) (dir : string) (w : World) :
  optimize_diameters_execs 0 gens dir w =
  if writable (dir +:+ "ga_dimen_" +:+ now +:+ ".csv")
  then (Raise IndexError,
        mkWorld (<[dir +:+ "ga_dimen_" +:+ now +:+ ".csv" := Csv []]> (files w))
          (stdout w ++ [RunTime 0; Generations []]))
  else (Raise OSError, mkWorld (files w) (stdout w ++ [RunTime 0])).
Proof.
  unfold optimize_diameters_execs. cbv zeta.
  rewrite bind_eq. cbn [range seq for_fold mret SM_ret].
  rewrite bind_eq. cbn [print].
  rewrite bind_eq. unfold to_csv at 1. cbn [files stdout].
  destruct (writable _); [|done].
  rewrite bind_eq, plot_convergence_no_rows by apply lookup_insert_eq.
  cbn [files stdout]. by rewrite <- app_assoc.
Qed.

(** The driver when every execution completes, the three files can be
    written and the chart can be drawn. *)
Lemma driver_completes (execs gens : nat) (dir : string) (w : World)
    (bests : nat -> Individual) (logs : nat -> list LogRow) :
  (1 <= execs)%nat ->
  (forall i, (i < execs)%nat -> optimize_diameters i = Ok (bests i, logs i)) ->
  (exists i, (i < execs)%nat /\ logs i <> []) ->
  let base := dir +:+ "ga_dimen_" +:+ now in
  writable (base +:+ ".csv") = true ->
  writable (base +:+ ".png") = true ->
  writable (base +:+ ".txt") = true ->
  ticks_reach ->
  exists b w' rows,
    optimize_diameters_execs execs gens dir w = (Ok (Some b), w') /\
    (exists i, (i < execs)%nat /\ b = bests i) /\
    (forall i, (i < execs)%nat -> (fitness b <= fitness (bests i))%Q) /\
    files w' !! (base +:+ ".csv") = Some (Csv rows) /\
    map row rows = concat (map logs (seq 0 execs)) /\
    files w' !! (base +:+ ".png") = Some Figure /\
    files w' !! (base +:+ ".txt") =
      Some (appended (Some (appended (Some (appended (files w !! (base +:+ ".txt"))
                                              (BestSolution (Some b))))
                                     (BestFitness (fitness b))))
                     ReportRunTime) /\
    (forall name, name <> base +:+ ".csv" -> name <> base +:+ ".png" ->
                  name <> base +:+ ".txt" -> files w' !! name = files w !! name).
Proof.
  intros Hexecs Hruns (i0 & Hi0 & Hlog) base Hcsv Hpng Htxt Hticks.
  destruct (DriverExtras.exec_loop_Ok execs bests logs execs 0 None [] w)
    as (best' & stats' & w1 & Hloop & Hfiles & _ & Hpos & Hrows).
  { intros i Hi. apply Hruns. lia. }
  destruct (Hpos Hexecs) as (b & -> & Hfrom & _ & Hmin).
  cbn [map app] in Hrows.
  assert (Hne : stats' <> []).
  { intros ->. cbn [map] in Hrows. symmetry in Hrows. revert Hrows.
    apply (concat_nonempty _ (logs i0)); [|done].
    apply list_elem_of_fmap. exists i0. split; [done|]. apply elem_of_seq. lia. }
  assert (Hcp : base +:+ ".csv" <> base +:+ ".png") by (by apply ext_ne).
  assert (Hct : base +:+ ".csv" <> base +:+ ".txt") by (by apply ext_ne).
  assert (Hpt : base +:+ ".png" <> base +:+ ".txt") by (by apply ext_ne).
  unfold optimize_diameters_execs. cbv zeta.
  assert (Hstats : dir +:+ "ga_dimen_" +:+ now +:+ ".csv" = base +:+ ".csv")
    by (subst base; by rewrite !DriverExtras.append_assoc).
  rewrite Hstats, (DriverExtras.drop_last4_ext base ".csv") by done.
  rewrite bind_eq. unfold range. rewrite Hloop.
  rewrite bind_eq. cbn [print].
  rewrite bind_eq. unfold to_csv at 1. cbn [files stdout]. rewrite Hcsv.
  rewrite bind_eq.
  rewrite (plot_convergence_rows execs gens (base +:+ ".csv") stats')
    by (cbn [files]; rewrite ?(DriverExtras.drop_last4_ext base ".csv") by done;
        first [apply lookup_insert_eq | done]).
  rewrite (DriverExtras.drop_last4_ext base ".csv") by done.
  rewrite bind_eq. unfold open_append at 1. cbn [files stdout]. rewrite Htxt.
  rewrite !(lookup_insert_ne _ _ (base +:+ ".txt")) by done.
  rewrite Hfiles.
  exists b.
  destruct (files w !! (base +:+ ".txt")) as [old|] eqn:Hold.
  - rewrite bind_eq. unfold append_line at 1. cbn [files stdout].
    rewrite !(lookup_insert_ne _ _ (base +:+ ".txt")) by done. rewrite Hold.
    rewrite bind_eq. cbn [fitness_of mret SM_ret].
    rewrite bind_eq. unfold append_line at 1. cbn [files stdout].
    rewrite lookup_insert_eq.
    rewrite bind_eq. unfold append_line at 1. cbn [files stdout mret SM_ret].
    rewrite lookup_insert_eq.
    eexists _, stats'. split; [reflexivity|]. cbn [files].
    split. { destruct Hfrom as [|(i & Hi & ->)]; [done|]. exists i. split; [lia|done]. }
    split. { intros i Hi. apply Hmin. lia. }
    split. { rewrite !(lookup_insert_ne _ (base +:+ ".txt")) by (by apply not_eq_sym).
             rewrite (lookup_insert_ne _ (base +:+ ".png")) by (by apply not_eq_sym).
             apply lookup_insert_eq. }
    split; [done|].
    split. { rewrite !(lookup_insert_ne _ (base +:+ ".txt")) by (by apply not_eq_sym).
             apply lookup_insert_eq. }
    split. { apply lookup_insert_eq. }
    intros name H1 H2 H3. by rewrite !lookup_insert_ne by (by apply not_eq_sym).
  - rewrite bind_eq. unfold append_line at 1. cbn [files stdout].
    rewrite lookup_insert_eq.
    rewrite bind_eq. cbn [fitness_of mret SM_ret].
    rewrite bind_eq. unfold append_line at 1. cbn [files stdout].
    rewrite lookup_insert_eq.
    rewrite bind_eq. unfold append_line at 1. cbn [files stdout mret SM_ret].
    rewrite lookup_insert_eq.
    eexists _, stats'. split; [reflexivity|]. cbn [files].
    split. { destruct Hfrom as [|(i & Hi & ->)]; [done|]. exists i. split; [lia|done]. }
    split. { intros i Hi. apply Hmin. lia. }
    split. { rewrite !(lookup_insert_ne _ (base +:+ ".txt")) by (by apply not_eq_sym).
             rewrite (lookup_insert_ne _ (base +:+ ".png")) by (by apply not_eq_sym).
             apply lookup_insert_eq. }
    split; [done|].
    split. { rewrite !(lookup_insert_ne _ (base +:+ ".txt")) by (by apply not_eq_sym).
             apply lookup_insert_eq. }
    split. { apply lookup_insert_eq. }
    intros name H1 H2 H3. by rewrite !lookup_insert_ne by (by apply not_eq_sym).
Qed.

(** With no execution at all the driver cannot return normally. When
    the statistics file cannot be written it fails with [OSError] and no
    file is touched; otherwise the statistics file is written without a
    single row and the driver fails inside [plot_convergence]. *)
Theorem driver_zero_executions (gens : nat) (dir : string) (w : World) :
  exists o w', optimize_diameters_execs 0 gens dir w = (o, w') /\
    (forall b, o <> Ok b) /\
    (writable (dir +:+ "ga_dimen_" +:+ now +:+ ".csv") = true ->
     o = Raise IndexError /\
     files w' = <[dir +:+ "ga_dimen_" +:+ now +:+ ".csv" := Csv []]> (files w)) /\
    (writable (dir +:+ "ga_dimen_" +:+ now +:+ ".csv") = false ->
     o = Raise OSError /\ files w' = files w).
Proof.
  rewrite zero_executions. destruct (writable _).
  - eexists _, _. split; [reflexivity|]. by repeat split.
  - eexists _, _. split; [reflexivity|]. by repeat split.
Qed.

(** When no execution is asked for and the statistics file can be
    written, the driver prints the run time, writes a statistics file
    without rows, prints the empty generation axis from within
    [plot_convergence] and fails there with [IndexError]; neither the
    figure nor the report is written. *)
Theorem driver_zero_executions_IndexError (gens : nat) (dir : string) (w : World) :
  writable (dir +:+ "ga_dimen_" +:+ now +:+ ".csv") = true ->
  optimize_diameters_execs 0 gens dir w =
  (Raise IndexError,
   mkWorld (<[dir +:+ "ga_dimen_" +:+ now +:+ ".csv" := Csv []]> (files w))
           (stdout w ++ [RunTime 0; Generations []])).
Proof. intros Hw. by rewrite zero_executions, Hw. Qed.

(** When every execution completes but the statistics file cannot be
    written (the directory of the results is not there), the driver
    fails with [OSError] after the last execution and leaves no file:
    the results of all executions are lost. *)
Theorem unwritable_statistics_lose_all_runs (execs gens : nat) (dir : string)
    (w : World) (bests : nat -> Individual) (logs : nat -> list LogRow) :
  (forall i, (i < execs)%nat -> optimize_diameters i = Ok (bests i, logs i)) ->
  writable (dir +:+ "ga_dimen_" +:+ now +:+ ".csv") = false ->
  exists w', optimize_diameters_execs execs gens dir w = (Raise OSError, w') /\
    files w' = files w.
Proof.
  intros Hruns Hw.
  destruct (DriverExtras.exec_loop_Ok execs bests logs execs 0 None [] w)
    as (best' & stats' & w1 & Hloop & Hfiles & _).
  { intros i Hi. apply Hruns. lia. }
  unfold optimize_diameters_execs. cbv zeta.
  rewrite bind_eq. unfold range. rewrite Hloop.
  rewrite bind_eq. cbn [print].
  rewrite bind_eq. unfold to_csv at 1. cbn [files stdout]. rewrite Hw.
  by eexists.
Qed.

(** When every execution completes, the three files can be written and
    the chart can be drawn, the driver returns the hall-of-fame
    individual of one of the executions, and no execution produced a
    strictly fitter one. *)
Theorem driver_returns_best_of_best (execs gens : nat) (dir : string) (w : World)
    (bests : nat -> Individual) (logs : nat -> list LogRow) :
  (1 <= execs)%nat ->
  (forall i, (i < execs)%nat -> optimize_diameters i = Ok (bests i, logs i)) ->
  (exists i, (i < execs)%nat /\ logs i <> []) ->
  let base := dir +:+ "ga_dimen_" +:+ now in
  writable (base +:+ ".csv") = true ->
  writable (base +:+ ".png") = true ->
  writable (base +:+ ".txt") = true ->
  ticks_reach ->
  exists b w', optimize_diameters_execs execs gens dir w = (Ok (Some b), w') /\
    (exists i, (i < execs)%nat /\ b = bests i) /\
    (forall i, (i < execs)%nat -> (fitness b <= fitness (bests i))%Q).
Proof.
  intros Hexecs Hruns Hlog base Hcsv Hpng Htxt Hticks.
  destruct (driver_completes execs gens dir w bests logs Hexecs Hruns Hlog
              Hcsv Hpng Htxt Hticks) as (b & w' & rows & Hrun & Hfrom & Hmin & _).
  by exists b, w'.
Qed.

(** Under the same conditions the statistics file holds the logbook rows
    of all executions, in order and unchanged, the figure is saved next
    to it, the report, named like the statistics file but for its
    extension, is what it was with the three lines best solution, best
    fitness and run time appended, and no other file is touched. *)
Theorem driver_persists_all_rows (execs gens : nat) (dir : string) (w : World)
    (bests : nat -> Individual) (logs : nat -> list LogRow) :
  (1 <= execs)%nat ->
  (forall i, (i < execs)%nat -> optimize_diameters i = Ok (bests i, logs i)) ->
  (exists i, (i < execs)%nat /\ logs i <> []) ->
  let base := dir +:+ "ga_dimen_" +:+ now in
  writable (base +:+ ".csv") = true ->
  writable (base +:+ ".png") = true ->
  writable (base +:+ ".txt") = true ->
  ticks_reach ->
  exists b w' rows,
    optimize_diameters_execs execs gens dir w = (Ok (Some b), w') /\
    files w' !! (base +:+ ".csv") = Some (Csv rows) /\
    map row rows = concat (map logs (seq 0 execs)) /\
    files w' !! (base +:+ ".png") = Some Figure /\
    files w' !! (base +:+ ".txt") =
      Some (appended (Some (appended (Some (appended (files w !! (base +:+ ".txt"))
                                              (BestSolution (Some b))))
                                     (BestFitness (fitness b))))
                     ReportRunTime) /\
    (forall old, files w !! (base +:+ ".txt") = Some (Text old) ->
       files w' !! (base +:+ ".txt") =
       Some (Text (old ++ [BestSolution (Some b); BestFitness (fitness b);
                           ReportRunTime]))) /\
    (forall name, name <> base +:+ ".csv" -> name <> base +:+ ".png" ->
                  name <> base +:+ ".txt" -> files w' !! name = files w !! name).
Proof.
  intros Hexecs Hruns Hlog base Hcsv Hpng Htxt Hticks.
  destruct (driver_completes execs gens dir w bests logs Hexecs Hruns Hlog
              Hcsv Hpng Htxt Hticks)
    as (b & w' & rows & Hrun & _ & _ & Hc & Hrows & Hp & Ht & Hother).
  subst base. exists b, w', rows. repeat (split; [done|]). split; [|done].
  intros old Hold. rewrite Ht, Hold. cbn [appended]. by rewrite <- !app_assoc.
Qed.

End facts.

Lemma improving_runs (i : nat) :
  (i < 2)%nat ->
  @optimize_diameters Fixtures.improving i =
  Ok ((fun i => if Nat.eqb i 0 then Fixtures.first_best else Fixtures.second_best) i,
      (fun i => if Nat.eqb i 0 then Fixtures.first_log else Fixtures.second_log) i).
Proof. intros Hi. cbn. by destruct (Nat.eqb i 0). Qed.

Lemma improving_ticks_reach : @ticks_reach Fixtures.improving.
Proof.
  intros g best v Hv. cbn. apply Exists_exists. exists v. split; [|apply Qle_refl].
  rewrite last_lookup in Hv. by eapply list_elem_of_lookup_2.
Qed.

Lemma driver_zero_executions_IndexError_witness :
  @optimize_diameters_execs Fixtures.improving 0 10 "results/" Fixtures.no_files =
  (Raise IndexError,
   mkWorld (<["results/" +:+ "ga_dimen_" +:+ @now Fixtures.improving +:+ ".csv" := Csv []]>
              (files Fixtures.no_files))
           (stdout Fixtures.no_files ++ [RunTime 0; Generations []])).
Proof.
  apply (@driver_zero_executions_IndexError Fixtures.improving 10 "results/"
           Fixtures.no_files).
  reflexivity.
Defined.

Lemma unwritable_statistics_lose_all_runs_witness :
  exists w',
    @optimize_diameters_execs Fixtures.no_directory 2 1 "results/" Fixtures.no_files
    = (Raise OSError, w') /\
    files w' = files Fixtures.no_files.
Proof.
  apply (@unwritable_statistics_lose_all_runs Fixtures.no_directory 2 1 "results/"
           Fixtures.no_files
           (fun i => if Nat.eqb i 0 then Fixtures.first_best else Fixtures.second_best)
           (fun i => if Nat.eqb i 0 then Fixtures.first_log else Fixtures.second_log)).
  - intros i Hi. cbn. by destruct (Nat.eqb i 0).
  - reflexivity.
Defined.

Lemma driver_returns_best_of_best_witness :
  exists b w',
    @optimize_diameters_execs Fixtures.improving 2 1 "results/" Fixtures.no_files
    = (Ok (Some b), w') /\
    (exists i, (i < 2)%nat /\
       b = if Nat.eqb i 0 then Fixtures.first_best else Fixtures.second_best) /\
    (forall i, (i < 2)%nat ->
       (fitness b <=
        fitness (if Nat.eqb i 0 then Fixtures.first_best else Fixtures.second_best))%Q).
Proof.
  apply (@driver_returns_best_of_best Fixtures.improving 2 1 "results/"
           Fixtures.no_files
           (fun i => if Nat.eqb i 0 then Fixtures.first_best else Fixtures.second_best)
           (fun i => if Nat.eqb i 0 then Fixtures.first_log else Fixtures.second_log)).
  - lia.
  - exact improving_runs.
  - exists 0%nat. split; [lia | discriminate].
  - reflexivity.
  - reflexivity.
  - reflexivity.
  - exact improving_ticks_reach.
Defined.

Lemma driver_persists_all_rows_witness :
  let base := "results/" +:+ "ga_dimen_" +:+ @now Fixtures.improving in
  exists b w' rows,
    @optimize_diameters_execs Fixtures.improving 2 1 "results/" Fixtures.old_report
    = (Ok (Some b), w') /\
    files w' !! (base +:+ ".csv") = Some (Csv rows) /\
    map row rows =
      concat (map (fun i => if Nat.eqb i 0 then Fixtures.first_log
                            else Fixtures.second_log) (seq 0 2)) /\
    files w' !! (base +:+ ".png") = Some Figure /\
    files w' !! (base +:+ ".txt") =
      Some (appended (Some (appended (Some (appended
                        (files Fixtures.old_report !! (base +:+ ".txt"))
                        (BestSolution (Some b))))
                      (BestFitness (fitness b))))
                     ReportRunTime) /\
    (forall old, files Fixtures.old_report !! (base +:+ ".txt") = Some (Text old) ->
       files w' !! (base +:+ ".txt") =
       Some (Text (old ++ [BestSolution (Some b); BestFitness (fitness b);
                           ReportRunTime]))) /\
    (forall name, name <> base +:+ ".csv" -> name <> base +:+ ".png" ->
                  name <> base +:+ ".txt" ->
                  files w' !! name = files Fixtures.old_report !! name).
Proof.
  apply (@driver_persists_all_rows Fixtures.improving 2 1 "results/"
           Fixtures.old_report
           (fun i => if Nat.eqb i 0 then Fixtures.first_best else Fixtures.second_best)
           (fun i => if Nat.eqb i 0 then Fixtures.first_log else Fixtures.second_log)).
  - lia.
  - exact improving_runs.
  - exists 0%nat. split; [lia | discriminate].
  - reflexivity.
  - reflexivity.
  - reflexivity.
  - exact improving_ticks_reach.
Defined.

(** The second of the two runs is the cheaper one: it is the one
    returned, and the report of the earlier session is kept. *)
Example improving_returns_second :
  fst (@optimize_diameters_execs Fixtures.improving 2 1 "results/" Fixtures.old_report)
  = Ok (Some Fixtures.second_best) /\
  files (snd (@optimize_diameters_execs Fixtures.improving 2 1 "results/"
                Fixtures.old_report))
    !! "results/ga_dimen_2020_01_01-00_00_00.txt" =
  Some (Text [ReportRunTime; BestSolution (Some Fixtures.second_best);
              BestFitness 4200; ReportRunTime]).
Proof. by vm_compute. Qed.

End DriverPlot.
